(** * Wizarr: invitation redemption and multi-server provisioning

    A shallow embedding of the invitation and provisioning code of the
    repository, followed by the properties proved about it.

    - [Py]       : the Python built-ins the code relies on (str.lower,
                   str.split, str.strip, truthiness, int(), re.fullmatch).
    - [Legacy]   : app/web.py (the peewee based /join handler).
    - [MediaServer], [User], [Library], [Invitation], [Model] :
                   app/models.py, the tables and the session.
    - [Invites]  : app/services/invites.py, from its contract.
    - [Public]   : app/blueprints/public/routes.py.
    - [Http], [Client] : the HTTP boundary and what the clients share.
    - [Romm]     : app/services/media/romm.py.
    - [Komga]    : app/services/media/komga.py.
    - [Servers]  : app/blueprints/media_servers/routes.py, delete_server.
    - [Str], [LegacyAdmin] : app/web.py, creating and deleting
                   invitations.
    - [Base64], [ServerAdmin] : app/blueprints/media_servers/routes.py,
                   the connection check, ping, edit and library scan.
    - [Dict], [RommCatalog], [KomgaCatalog] : the [libraries] method of
                   the two clients.

    Strings are sequences of 8-bit characters; [Py.lower] is the ASCII
    case mapping, which is what both str.lower and SQL lower() compute on
    ASCII text.  Time stamps are integers.  Queries without an ORDER BY
    return rows in table order, and foreign keys are not enforced (the
    SQLite defaults).  What the code cannot decide by itself (the
    vendors, whether a commit goes through, the clock, the random
    password) is a parameter of the functions that depend on it. *)

From Stdlib Require Import ZArith List String Ascii Bool Lia.
From Stdlib Require Import Numbers.DecimalString.
Import ListNotations.
Local Open Scope string_scope.
Local Open Scope Z_scope.
Local Open Scope list_scope.

(* ===================================================================== *)
(** * Python built-ins                                                    *)
(* ===================================================================== *)

Module Py.

(** Code point of a character. *)
Definition ord (c : ascii) : N := N_of_ascii c.

Definition in_range (lo hi c : ascii) : bool :=
  (N.leb (ord lo) (ord c) && N.leb (ord c) (ord hi))%bool.

Definition is_upper (c : ascii) : bool := in_range "A" "Z" c.
Definition is_lower (c : ascii) : bool := in_range "a" "z" c.
Definition is_alpha (c : ascii) : bool := (is_upper c || is_lower c)%bool.
Definition is_digit (c : ascii) : bool := in_range "0" "9" c.

(** [c.lower()] on one character. *)
Definition lower_char (c : ascii) : ascii :=
  if is_upper c then ascii_of_N (ord c + 32) else c.

(** [s.lower()] *)
Fixpoint lower (s : string) : string :=
  match s with
  | EmptyString => EmptyString
  | String c s' => String (lower_char c) (lower s')
  end.

(** [s.split(sep)[0]] for a one-character separator: the text before the
    first occurrence of [sep], or all of [s] when there is none. *)
Fixpoint split_head (sep : ascii) (s : string) : string :=
  match s with
  | EmptyString => EmptyString
  | String c s' => if Ascii.eqb c sep then EmptyString
                   else String c (split_head sep s')
  end.

(** Whitespace as str.strip() sees it (ASCII part). *)
Definition is_space (c : ascii) : bool :=
  let n := ord c in
  (N.eqb n 32 || (N.leb 9 n && N.leb n 13) || (N.leb 28 n && N.leb n 31))%bool.

Fixpoint lstrip (s : string) : string :=
  match s with
  | EmptyString => EmptyString
  | String c s' => if is_space c then lstrip s' else s
  end.

Fixpoint rstrip (s : string) : string :=
  match s with
  | EmptyString => EmptyString
  | String c s' =>
      match rstrip s' with
      | EmptyString => if is_space c then EmptyString else String c EmptyString
      | r => String c r
      end
  end.

(** [s.strip()] *)
Definition strip (s : string) : string := rstrip (lstrip s).

(** Truthiness of a string: [bool(s)]. *)
Definition truthy (s : string) : bool :=
  match s with EmptyString => false | _ => true end.

(** [len(s)] *)
Definition len (s : string) : Z := Z.of_nat (String.length s).

(** [str(n)] for an integer. *)
Definition str_of_int (n : Z) : string := NilEmpty.string_of_int (Z.to_int n).

(** ** int(s)

    Optional surrounding whitespace, an optional sign, then decimal digits
    in which single underscores may separate digits.  [None] stands for
    ValueError. *)

Definition digit_val (c : ascii) : Z := Z.of_N (ord c) - 48.

(** [digits acc prev_digit s]: [prev_digit] tells whether the previous
    character was a digit, an underscore being legal only between two. *)
Fixpoint digits (acc : Z) (prev_digit : bool) (s : string) : option Z :=
  match s with
  | EmptyString => if prev_digit then Some acc else None
  | String c s' =>
      if is_digit c then digits (10 * acc + digit_val c) true s'
      else if (Ascii.eqb c "_" && prev_digit)%bool then
        match s' with
        | String d _ => if is_digit d then digits acc false s' else None
        | EmptyString => None
        end
      else None
  end.

Definition int (s : string) : option Z :=
  match strip s with
  | String "-" s' => option_map Z.opp (digits 0 false s')
  | String "+" s' => digits 0 false s'
  | s' => digits 0 false s'
  end.

(** ** Regular expressions (re.fullmatch)

    Character classes, concatenation, alternation and iteration, matched
    by derivatives: [fullmatch r s] decides membership of [s] in the
    language of [r], which is what [re.fullmatch] returns for patterns
    without back-references or look-around. *)

Inductive regex : Type :=
| Empty : regex                       (* matches nothing *)
| Eps : regex                         (* matches the empty string *)
| Class : (ascii -> bool) -> regex    (* one character of a class *)
| Cat : regex -> regex -> regex
| Alt : regex -> regex -> regex
| Star : regex -> regex.

Fixpoint nullable (r : regex) : bool :=
  match r with
  | Empty => false
  | Eps => true
  | Class _ => false
  | Cat a b => nullable a && nullable b
  | Alt a b => nullable a || nullable b
  | Star _ => true
  end.

Fixpoint deriv (c : ascii) (r : regex) : regex :=
  match r with
  | Empty => Empty
  | Eps => Empty
  | Class f => if f c then Eps else Empty
  | Cat a b =>
      if nullable a then Alt (Cat (deriv c a) b) (deriv c b)
      else Cat (deriv c a) b
  | Alt a b => Alt (deriv c a) (deriv c b)
  | Star a => Cat (deriv c a) (Star a)
  end.

Fixpoint fullmatch (r : regex) (s : string) : bool :=
  match s with
  | EmptyString => nullable r
  | String c s' => fullmatch (deriv c r) s'
  end.

(** [r+], [r?] and [r{m,n}] *)
Definition Plus (r : regex) : regex := Cat r (Star r).
Definition Opt (r : regex) : regex := Alt Eps r.

Fixpoint Rep (n : nat) (r : regex) : regex :=
  match n with O => Eps | S k => Cat r (Rep k r) end.

Fixpoint UpTo (n : nat) (r : regex) : regex :=
  match n with O => Eps | S k => Opt (Cat r (UpTo k r)) end.

Definition Between (m n : nat) (r : regex) : regex :=
  Cat (Rep m r) (UpTo (n - m) r).

Definition one_of (cs : string) (c : ascii) : bool :=
  existsb (Ascii.eqb c) (list_ascii_of_string cs).

End Py.

(* ===================================================================== *)
(** * app/web.py: the legacy /join handler                                *)
(* ===================================================================== *)

Module Legacy.

(** A row of the [Invitations] table as [invite()] creates it. *)
Module Invitations.
Record t : Type := mk {
  code : string;
  used : bool;
  expires : option Z;       (* None: never expires *)
  unlimited : bool
}.
End Invitations.

(** What [connect] answers: the login page with a [code_error], or the
    redirect to the OAuth URL. *)
Inductive response : Type :=
| LoginPage (code_error : string)
| OAuthRedirect.

(** [Invitations.select().where(Invitations.code == code).exists()] *)
Definition code_exists (tbl : list Invitations.t) (code : string) : bool :=
  existsb (fun i => String.eqb (Invitations.code i) code) tbl.

(** [... .where(code == code, used == True, unlimited == False).exists()] *)
Definition used_exists (tbl : list Invitations.t) (code : string) : bool :=
  existsb (fun i => String.eqb (Invitations.code i) code
                    && Bool.eqb (Invitations.used i) true
                    && Bool.eqb (Invitations.unlimited i) false) tbl.

(** [... .where(code == code, expires <= now).exists()]; a NULL [expires]
    never compares true. *)
Definition expired_exists (now : Z) (tbl : list Invitations.t) (code : string)
  : bool :=
  existsb (fun i => String.eqb (Invitations.code i) code
                    && match Invitations.expires i with
                       | Some e => e <=? now
                       | None => false
                       end) tbl.

(** [connect()], up to the point where the OAuth thread is started. *)
Definition connect (now : Z) (tbl : list Invitations.t) (code : string)
  : response :=
  if negb (code_exists tbl code) then
    LoginPage "That invite code does not exist."
  else if used_exists tbl code then
    LoginPage "That invite code has already been used."
  else if expired_exists now tbl code then
    LoginPage "That invite code has expired."
  else OAuthRedirect.

(** [plex(code)]: the landing page of the legacy application. *)
Definition plex (tbl : list Invitations.t) (code : string) : Z :=
  if negb (code_exists tbl code) then 401 else 200.

End Legacy.

(* ===================================================================== *)
(** * app/models.py                                                       *)
(* ===================================================================== *)

Module MediaServer.
Record t : Type := mk {
  id : Z;
  name : string;
  server_type : string;
  url : string;
  api_key : option string
}.
End MediaServer.

Module User.
Record t : Type := mk {
  id : Z;
  token : string;
  username : string;
  email : option string;
  code : string;
  expires : option Z;
  password : option string;
  server_id : option Z
}.
End User.

Module Library.
Record t : Type := mk {
  id : Z;
  external_id : string;
  name : string;
  enabled : bool;
  server_id : option Z
}.
End Library.

Module Invitation.
(** [server_id] is the foreign key behind [inv.server]; [servers] and
    [libraries] are the keys behind the relationships of the same name,
    in attachment order; [used_by] is [used_by_id]. *)
Record t : Type := mk {
  id : Z;
  code : string;
  used : bool;
  expires : option Z;
  unlimited : option bool;
  duration : option string;
  server_id : option Z;
  servers : list Z;
  libraries : list Z;
  used_by : option Z
}.
End Invitation.

Module Model.

(** The tables. *)
Record DB : Type := mkDB {
  users : list User.t;
  invitations : list Invitation.t;
  media_servers : list MediaServer.t;
  library_rows : list Library.t
}.

Definition with_users (d : DB) (us : list User.t) : DB :=
  mkDB us (invitations d) (media_servers d) (library_rows d).

Definition with_invitations (d : DB) (invs : list Invitation.t) : DB :=
  mkDB (users d) invs (media_servers d) (library_rows d).

Definition with_media_servers (d : DB) (ms : list MediaServer.t) : DB :=
  mkDB (users d) (invitations d) ms (library_rows d).

(** The SQLAlchemy session: what is committed, and what the session
    currently sees (the committed rows with the pending changes flushed
    over them). *)
Record Session : Type := mkSession {
  committed : DB;
  working : DB
}.

(** A session at the start of a request. *)
Definition begin (d : DB) : Session := mkSession d d.

(** [db.session.add(u)] for a User row. *)
Definition add_user (s : Session) (u : User.t) : Session :=
  mkSession (committed s)
            (with_users (working s) (users (working s) ++ [u])).

(** A pending change of the invitation table. *)
Definition set_invitations (s : Session) (invs : list Invitation.t)
  : Session :=
  mkSession (committed s) (with_invitations (working s) invs).

(** [db.session.commit()] when it succeeds. *)
Definition commit (s : Session) : Session :=
  mkSession (working s) (working s).

(** [db.session.rollback()] *)
Definition rollback (s : Session) : Session :=
  mkSession (committed s) (committed s).

(** Comparison of a nullable integer column with a value. *)
Definition opt_Z_eqb (a b : option Z) : bool :=
  match a, b with
  | Some x, Some y => x =? y
  | None, None => true
  | _, _ => false
  end.

(** [MediaServer.query.get(id)] *)
Definition server_by_id (d : DB) (sid : Z) : option MediaServer.t :=
  find (fun s => MediaServer.id s =? sid) (media_servers d).

(** [inv.server] *)
Definition server (d : DB) (inv : Invitation.t) : option MediaServer.t :=
  match Invitation.server_id inv with
  | Some sid => server_by_id d sid
  | None => None
  end.

Fixpoint filter_map {A B : Type} (f : A -> option B) (l : list A) : list B :=
  match l with
  | [] => []
  | a :: l' => match f a with
               | Some b => b :: filter_map f l'
               | None => filter_map f l'
               end
  end.

(** [inv.servers] *)
Definition servers (d : DB) (inv : Invitation.t) : list MediaServer.t :=
  filter_map (server_by_id d) (Invitation.servers inv).

(** [inv.libraries] *)
Definition libraries (d : DB) (inv : Invitation.t) : list Library.t :=
  filter_map (fun lid => find (fun l => Library.id l =? lid) (library_rows d))
             (Invitation.libraries inv).

(** The primary key the database gives the next inserted User row. *)
Definition next_user_id (us : list User.t) : Z :=
  1 + fold_right (fun u m => Z.max (User.id u) m) 0 us.

(** [Invitation.query.filter(db.func.lower(Invitation.code) ==
    code.lower()).first()] *)
Definition invitation_by_code_ci (d : DB) (code : string)
  : option Invitation.t :=
  find (fun i => String.eqb (Py.lower (Invitation.code i)) (Py.lower code))
       (invitations d).

(** [Invitation.query.filter_by(code=code).first()] *)
Definition invitation_by_code (d : DB) (code : string)
  : option Invitation.t :=
  find (fun i => String.eqb (Invitation.code i) code) (invitations d).

(** The UsageLedger: the pair (invitation code, server) is marked when a
    User row carries that code and that server id. *)
Definition ledger_marked (us : list User.t) (code : string) (sid : Z) : bool :=
  existsb (fun u => String.eqb (User.code u) code
                    && opt_Z_eqb (User.server_id u) (Some sid)) us.

End Model.

(* ===================================================================== *)
(** * app/services/invites.py                                             *)
(* ===================================================================== *)

Module Invites.
Import Model.

(** Modelled from the spec: app/services/invites.py is not under src/;
    [is_invite_valid] follows the contract of the InvitationValidator:
    the code exists (case-insensitive exact match), else NOT_FOUND; the
    expiry, if set, is in the future, else EXPIRED; a single-use code is
    not already used, else ALREADY_USED.  The reason is empty when ok. *)
Definition is_invite_valid (now : Z) (d : DB) (code : string)
  : bool * string :=
  match invitation_by_code_ci d code with
  | None => (false, "NOT_FOUND")
  | Some inv =>
      if match Invitation.expires inv with
         | Some e => e <=? now
         | None => false
         end
      then (false, "EXPIRED")
      else if match Invitation.unlimited inv with
              | Some true => false
              | _ => Invitation.used inv
              end
      then (false, "ALREADY_USED")
      else (true, "")
  end.

End Invites.

(* ===================================================================== *)
(** * app/blueprints/public/routes.py                                     *)
(* ===================================================================== *)

Module Public.
Import Model.

(** The pages and redirects the routes answer with.  A redirect to the
    wizard carries [session["wizard_access"]]; the redirect to the
    password prompt carries the code and token stashed in the session. *)
Inductive response : Type :=
| InvalidInvite (error : string)
| WelcomeJellyfin (code : string) (server_type : option string)
| PlexLogin (code : string) (code_error : option string)
| ChoosePassword (code : string) (error : option string)
| RedirectPasswordPrompt (code : string) (token : option string)
| RedirectWizard (wizard_access : string)
| InternalServerError.

(** The [email] keyword argument of a client's [create_user]. *)
Inductive email_arg : Type :=
| NoEmail
| Email (e : option string).

(** One [client.create_user(...)] call: the server the client was built
    for and the arguments. *)
Record Call : Type := mkCall {
  call_server : MediaServer.t;
  call_username : string;
  call_password : string;
  call_email : email_arg
}.

(** What lies outside the route.
    - [create_user]: the answer of the vendor client to a call, given the
      calls made before it; [None] when it raises.
    - [commit_ok]: whether [db.session.commit()] of a new User row
      succeeds, given the rows already stored.
    - [mark_server_used]: the helper of app/services/invites.py (not
      under src/), taken as a parameter: called with the invitation and
      a server id, it acts on the invitation table, commits, and yields
      [None] when it raises.
    - [generated_password]: the sixteen characters drawn by
      [secrets.choice].
    - [handle_oauth_token]: the Plex OAuth invite of
      app/services/media/plex.py (not under src/). *)
Record Env : Type := mkEnv {
  create_user : list Call -> Call -> option string;
  commit_ok : list User.t -> User.t -> bool;
  mark_server_used :
    Invitation.t -> option Z -> list Invitation.t
    -> option (list Invitation.t);
  generated_password : string;
  handle_oauth_token : option string -> string -> DB -> DB
}.

(** The database, the vendor calls made so far and the errors logged. *)
Record World : Type := mkWorld {
  db : DB;
  calls : list Call;
  errors : list string
}.

(** The same while a request is being served. *)
Record Serving : Type := mkServing {
  session : Session;
  sent : list Call;
  logged : list string
}.

Definition is_password_signup (server_type : string) : bool :=
  existsb (String.eqb server_type)
          ["jellyfin"; "emby"; "audiobookshelf"; "romm"].

(** [invitation.server or MediaServer.query.first()] *)
Definition landing_server (d : DB) (inv : Invitation.t)
  : option MediaServer.t :=
  match server d inv with
  | Some s => Some s
  | None => hd_error (media_servers d)
  end.

(** [invite(code)]: GET /j/<code> *)
Definition invite (now : Z) (d : DB) (code : string) : response :=
  let invitation := invitation_by_code_ci d code in
  let '(valid, msg) := Invites.is_invite_valid now d code in
  if negb valid then InvalidInvite msg
  else
    match invitation with
    | None => InternalServerError
    | Some inv =>
        let server_type := option_map MediaServer.server_type
                                      (landing_server d inv) in
        match server_type with
        | Some st =>
            if is_password_signup st then WelcomeJellyfin code (Some st)
            else PlexLogin code None
        | None => PlexLogin code None
        end
    end.

(** [join()]: POST /join *)
Definition join (env : Env) (now : Z) (d : DB)
           (code : string) (token : option string) : DB * response :=
  let invitation := invitation_by_code_ci d code in
  let '(valid, msg) := Invites.is_invite_valid now d code in
  if negb valid then (d, PlexLogin code (Some msg))
  else
    match invitation with
    | None => (d, InternalServerError)
    | Some inv =>
        match option_map MediaServer.server_type (landing_server d inv) with
        | Some st =>
            if String.eqb st "plex" then
              let d' := handle_oauth_token env token code d in
              let extra :=
                filter (fun s => negb (String.eqb (MediaServer.server_type s)
                                                  "plex"))
                       (servers d' inv) in
              match extra with
              | _ :: _ => (d', RedirectPasswordPrompt code token)
              | [] => (d', RedirectWizard code)
              end
            else if is_password_signup st then
              (d, WelcomeJellyfin code (Some st))
            else (d, InvalidInvite "Configuration error.")
        | None => (d, InvalidInvite "Configuration error.")
        end
    end.

(** [invitation.used_by = invitation.used_by or new_user] on the row of
    the invitation. *)
Definition link_used_by (us : list User.t) (new_user : User.t)
           (inv : Invitation.t) : Invitation.t :=
  let linked :=
    match Invitation.used_by inv with
    | Some uid => existsb (fun u => User.id u =? uid) us
    | None => false
    end in
  if linked then inv
  else Invitation.mk (Invitation.id inv) (Invitation.code inv)
         (Invitation.used inv) (Invitation.expires inv)
         (Invitation.unlimited inv) (Invitation.duration inv)
         (Invitation.server_id inv) (Invitation.servers inv)
         (Invitation.libraries inv) (Some (User.id new_user)).

Definition replace_invitation (inv : Invitation.t)
           (tbl : list Invitation.t) : list Invitation.t :=
  map (fun i => if Invitation.id i =? Invitation.id inv then inv else i) tbl.

(** The invitation row as the session currently holds it. *)
Definition refresh (d : DB) (inv : Invitation.t) : Invitation.t :=
  match find (fun i => Invitation.id i =? Invitation.id inv)
             (invitations d) with
  | Some i => i
  | None => inv
  end.

(** The username and e-mail used on the password servers:
    [plex_user.username if plex_user else
     (plex_user.email.split("@")[0] if plex_user else "wizarr")].
    The inner conditional is evaluated only when [plex_user] is None. *)
Definition derived_username (plex_user : option User.t) : string :=
  match plex_user with
  | Some u => User.username u
  | None =>
      match plex_user with
      | Some u =>
          match User.email u with
          | Some e => Py.split_head "@" e
          | None => ""
          end
      | None => "wizarr"
      end
  end.

Definition derived_email (plex_user : option User.t) : option string :=
  match plex_user with
  | Some u => User.email u
  | None => Some "user@example.com"
  end.

(** The [create_user] call the loop makes for a server, by server type;
    [None] for a type the loop does not know. *)
Definition call_for (srv : MediaServer.t) (username pw : string)
           (email : option string) : option Call :=
  let st := MediaServer.server_type srv in
  if (String.eqb st "jellyfin" || String.eqb st "emby")%bool then
    Some (mkCall srv username pw NoEmail)
  else if String.eqb st "audiobookshelf" then
    Some (mkCall srv username pw (Email email))
  else if String.eqb st "romm" then
    Some (mkCall srv username pw (Email email))
  else None.

(** One iteration of [for srv in invitation.servers]. *)
Definition provision (env : Env) (inv : Invitation.t) (code pw : string)
           (plex_user : option User.t) (w : Serving) (srv : MediaServer.t)
  : Serving :=
  if String.eqb (MediaServer.server_type srv) "plex" then w
  else
    let username := derived_username plex_user in
    let email := derived_email plex_user in
    match call_for srv username pw email with
    | None => w
    | Some c =>
        let sent' := sent w ++ [c] in
        let failed (s : Session) :=
          mkServing (rollback s) sent' (logged w ++ [MediaServer.name srv]) in
        match create_user env (sent w) c with
        | None => failed (session w)
        | Some uid =>
            let us := users (working (session w)) in
            let new_user :=
              User.mk (next_user_id us) uid username email code None None
                      (Some (MediaServer.id srv)) in
            let s1 := add_user (session w) new_user in
            if commit_ok env us new_user then
              let s2 := commit s1 in
              let inv' := link_used_by (users (working s2)) new_user
                                       (refresh (working s2) inv) in
              let s3 := set_invitations s2
                          (replace_invitation inv'
                             (invitations (working s2))) in
              match mark_server_used env inv' (Some (MediaServer.id srv))
                      (invitations (working s3)) with
              | Some tbl => mkServing (commit (set_invitations s3 tbl))
                                      sent' (logged w)
              | None => failed s3
              end
            else failed s1
        end
    end.

(** The whole loop. *)
Definition provision_all (env : Env) (inv : Invitation.t) (code pw : string)
           (plex_user : option User.t) (srvs : list MediaServer.t)
           (w : Serving) : Serving :=
  fold_left (provision env inv code pw plex_user) srvs w.

(** A request starts with a fresh session; what is not committed when it
    ends is lost. *)
Definition serve (w : World) : Serving :=
  mkServing (begin (db w)) (calls w) (errors w).

Definition finish (w : Serving) : World :=
  mkWorld (committed (session w)) (sent w) (logged w).

Inductive method : Type := GET | POST.

(** [request.form] *)
Record Form : Type := mkForm {
  form_password : option string;
  form_confirm : option string;
  form_generate : option string
}.

(** [request.form.get(k) or ""] *)
Definition or_empty (v : option string) : string :=
  match v with Some s => s | None => "" end.

(** The User row that shows that Plex has been processed. *)
Definition find_plex_user (d : DB) (inv : Invitation.t) (code : string)
  : option User.t :=
  match find (fun s => String.eqb (MediaServer.server_type s) "plex")
             (servers d inv) with
  | Some plex_server =>
      find (fun u => String.eqb (User.code u) code
                     && opt_Z_eqb (User.server_id u)
                                  (Some (MediaServer.id plex_server)))
           (users d)
  | None => None
  end.

(** [password_prompt(code)]: GET or POST /j/<code>/password *)
Definition password_prompt (env : Env) (m : method) (form : Form)
           (code : string) (w : World) : World * response :=
  match invitation_by_code_ci (db w) code with
  | None => (w, InvalidInvite "Invalid invite")
  | Some invitation =>
      let plex_user := find_plex_user (db w) invitation code in
      match m with
      | POST =>
          let pw := or_empty (form_password form) in
          let confirm := or_empty (form_confirm form) in
          if (negb (String.eqb pw confirm) || (Py.len pw <? 8))%bool then
            (w, ChoosePassword code
                  (Some "Passwords do not match or too short (8 chars)."))
          else
            let pw :=
              if (Py.truthy (or_empty (form_generate form))
                  || String.eqb (Py.strip pw) "")%bool
              then generated_password env else pw in
            (finish (provision_all env invitation code pw plex_user
                                   (servers (db w) invitation) (serve w)),
             RedirectWizard code)
      | GET => (w, ChoosePassword code None)
      end
  end.

End Public.

(* ===================================================================== *)
(** * The HTTP boundary of the vendor clients                             *)
(* ===================================================================== *)

Module Http.

(** Decoded JSON, which is also the shape of the Python values the
    clients pass around ([JNull] is None). *)
#[local] Set Warnings "-register-all".
Inductive json : Type :=
| JNull
| JBool (b : bool)
| JNum (n : Z)
| JStr (s : string)
| JArr (items : list json)
| JObj (fields : list (string * json)).

(** [bool(v)] *)
Definition truthy (v : json) : bool :=
  match v with
  | JNull => false
  | JBool b => b
  | JNum n => negb (n =? 0)
  | JStr s => Py.truthy s
  | JArr l => match l with [] => false | _ => true end
  | JObj f => match f with [] => false | _ => true end
  end.

(** [d.get(k)] on the items of a dict: [None] when the key is absent. *)
Fixpoint lookup (k : string) (fields : list (string * json)) : option json :=
  match fields with
  | [] => None
  | (k', v) :: rest => if String.eqb k' k then Some v else lookup k rest
  end.

(** The text a value is stored as in a String column; [None] when the
    driver refuses the value or the column is NOT NULL and the value is
    None. *)
Definition db_text (v : json) : option string :=
  match v with
  | JStr s => Some s
  | JNum n => Some (Py.str_of_int n)
  | JBool b => Some (if b then "1" else "0")
  | JNull | JArr _ | JObj _ => None
  end.

(** A response: the status, and the decoded body ([None] when [r.json()]
    raises). *)
Record Response : Type := mkResponse {
  status_code : Z;
  body : option json
}.

(** The requests the clients send. *)
Inductive Request : Type :=
| PostParams (path : string) (params : list (string * json))
| PostJson (path : string) (payload : list (string * json))
| PutSharedLibrary (user_id : json) (library_id : string)
| GetJson (path : string).

(** What a call of the REST mixin does: it returns the response, raises
    [requests.HTTPError] (which carries the response, if any), or raises
    something else (connection error, timeout). *)
Inductive outcome : Type :=
| Returned (r : Response)
| HTTPError (r : option Response)
| OtherError.

(** The vendor: its answer to a request given the requests before it. *)
Definition vendor : Type := list Request -> Request -> outcome.

(** A value or an exception. *)
Inductive result (A : Type) : Type :=
| Ok (a : A)
| Raised.
Arguments Ok {A} a.
Arguments Raised {A}.

End Http.

(* ===================================================================== *)
(** * What the two clients share                                          *)
(* ===================================================================== *)

Module Client.
Import Model Http.

(** [EMAIL_RE = ^[A-Za-z0-9._%+-]+@[A-Za-z0-9.-]+\.[A-Za-z]{2,7}$] *)
Definition local_char (c : ascii) : bool :=
  (Py.is_alpha c || Py.is_digit c || Py.one_of "._%+-" c)%bool.

Definition domain_char (c : ascii) : bool :=
  (Py.is_alpha c || Py.is_digit c || Py.one_of ".-" c)%bool.

Definition EMAIL_RE : Py.regex :=
  Py.Cat (Py.Plus (Py.Class local_char))
    (Py.Cat (Py.Class (Ascii.eqb "@"))
       (Py.Cat (Py.Plus (Py.Class domain_char))
          (Py.Cat (Py.Class (Ascii.eqb "."))
                  (Py.Between 2 7 (Py.Class Py.is_alpha))))).

(** What lies outside a client.
    - [http]: the vendor.
    - [commit_ok]: whether [db.session.commit()] of a new User row
      succeeds, given the rows already stored.
    - [mark_server_used]: the helper of app/services/invites.py (not
      under src/), taken as a parameter: called with the invitation and
      a server id, it acts on the invitation table, commits, and yields
      [None] when it raises.
    - [now], [utcnow]: the clock. *)
Record Env : Type := mkEnv {
  http : vendor;
  commit_ok : list User.t -> User.t -> bool;
  mark_server_used :
    Invitation.t -> option Z -> list Invitation.t
    -> option (list Invitation.t);
  now : Z;
  utcnow : Z
}.

(** The session, the requests sent to the vendor so far, the
    notifications fired and the errors logged. *)
Record World : Type := mkWorld {
  session : Session;
  requests : list Request;
  notifications : list string;
  errors : list string
}.

Definition with_session (w : World) (s : Session) : World :=
  mkWorld s (requests w) (notifications w) (errors w).

Definition with_requests (w : World) (rs : list Request) : World :=
  mkWorld (session w) rs (notifications w) (errors w).

Definition log_error (w : World) (msg : string) : World :=
  mkWorld (session w) (requests w) (notifications w) (errors w ++ [msg]).

(** [notify("New User", f"User {username} has joined your server! ...")]:
    fire-and-forget. *)
Definition notify (w : World) (username : string) : World :=
  mkWorld (session w) (requests w)
          (notifications w
           ++ [String.append "User "
                 (String.append username " has joined your server! 🎉")])
          (errors w).

(** [datetime.timedelta(days=days)] and the addition to [utcnow()], in
    seconds; [None] stands for OverflowError. *)
Definition add_days (t days : Z) : option Z :=
  if (Z.abs days <=? 999999999) then
    let t' := t + days * 86400 in
    if ((-62135596800 <=? t') && (t' <=? 253402300799))%bool
    then Some t' else None
  else None.

(** The [existing] query of [join]: the first User of this server with
    the same username or e-mail. *)
Definition existing_user (d : DB) (self_server_id : option Z)
           (username email : string) : option User.t :=
  find (fun u => (String.eqb (User.username u) username
                  || match User.email u with
                     | Some e => String.eqb e email
                     | None => false
                     end)
                 && opt_Z_eqb (User.server_id u) self_server_id)
       (users d).

(** [inv.server.id if inv.server else None] *)
Definition server_id_of (d : DB) (inv : Invitation.t) : option Z :=
  option_map MediaServer.id (server d inv).

(** The checks [join] makes before anything is created, in the order of
    the source; [None] when all pass. *)
Definition prechecks (env : Env) (d : DB) (self_server_id : option Z)
           (username password confirm email code : string)
  : option string :=
  if negb (Py.fullmatch EMAIL_RE email) then
    Some "Invalid e-mail address."
  else if negb ((8 <=? Py.len password) && (Py.len password <=? 20)) then
    Some "Password must be 8–20 characters."
  else if negb (String.eqb password confirm) then
    Some "Passwords do not match."
  else
    let '(ok, msg) := Invites.is_invite_valid (now env) d code in
    if negb ok then Some msg
    else
      match existing_user d self_server_id username email with
      | Some _ => Some "User or e-mail already exists."
      | None => None
      end.

(** [inv.used_by = new_user] *)
Definition set_used_by (inv : Invitation.t) (new_user : User.t)
  : Invitation.t :=
  Invitation.mk (Invitation.id inv) (Invitation.code inv)
    (Invitation.used inv) (Invitation.expires inv)
    (Invitation.unlimited inv) (Invitation.duration inv)
    (Invitation.server_id inv) (Invitation.servers inv)
    (Invitation.libraries inv) (Some (User.id new_user)).

(** [a or b] on nullable integers. *)
Definition or_else (a b : option Z) : option Z :=
  match a with
  | Some n => if n =? 0 then b else a
  | None => b
  end.

(** [expires]: None unless the invitation has a duration, in which case
    [utcnow() + timedelta(days=int(inv.duration))]; [Raised] for the
    ValueError of [int] and the OverflowError of the date arithmetic. *)
Definition expiry (env : Env) (duration : option string)
  : result (option Z) :=
  match duration with
  | Some dur =>
      if Py.truthy dur then
        match Py.int dur with
        | Some days =>
            match add_days (utcnow env) days with
            | Some t => Ok (Some t)
            | None => Raised
            end
        | None => Raised
        end
      else Ok None
  | None => Ok None
  end.

(** [db.session.add(new_user); db.session.commit()]: the session
    afterwards, and whether the commit went through.  The row is built
    from the token once the session knows its primary key. *)
Definition add_and_commit (env : Env) (s : Session) (token : json)
           (row : Z -> string -> User.t) : Session * option User.t :=
  let us := users (working s) in
  match db_text token with
  | Some tok =>
      let new_user := row (next_user_id us) tok in
      let s1 := add_user s new_user in
      if commit_ok env us new_user then (commit s1, Some new_user)
      else (s1, None)
  | None => (s, None)
  end.

(** [inv.used_by = new_user; mark_server_used(inv, ...)]: the session
    afterwards, and whether the helper returned. *)
Definition mark_used (env : Env) (s : Session) (inv : Invitation.t)
           (new_user : User.t) : Session * bool :=
  let inv' := set_used_by inv new_user in
  let s1 := set_invitations s
              (Public.replace_invitation inv' (invitations (working s))) in
  match mark_server_used env inv'
          (or_else (User.server_id new_user) (server_id_of (working s1) inv'))
          (invitations (working s1)) with
  | Some tbl => (commit (set_invitations s1 tbl), true)
  | None => (s1, false)
  end.

(** The [try ... except Exception] of [join]: the body hands back the
    world at the point it returned or raised, and whether it returned;
    the handler logs, rolls the session back and reports the failure. *)
Definition guarded (label : string) (r : World * bool)
  : World * (bool * string) :=
  let '(w, returned) := r in
  if returned then (w, (true, ""))
  else (with_session (log_error w label) (rollback (session w)),
        (false, "An unexpected error occurred.")).

End Client.

(* ===================================================================== *)
(** * app/services/media/romm.py                                          *)
(* ===================================================================== *)

Module RommUser.
(** An element of the /api/users payload: [id] is [None] when the key is
    missing or null, [username] when the key is missing, [email] when the
    key is missing ([Some None] is an explicit null). *)
Record t : Type := mk {
  id : option Z;
  username : option string;
  email : option (option string)
}.
End RommUser.

Module Romm.
Import Model Http Client.

Definition API_PREFIX : string := "/api".

(** ** create_user *)

Definition json_of_email (email : option string) : json :=
  match email with Some e => JStr e | None => JNull end.

Definition payload (username password : string) (email : option string)
  : list (string * json) :=
  [("username", JStr username); ("password", JStr password);
   ("email", json_of_email email); ("role", JStr "VIEWER")].

(** [alt = payload.copy(); alt["passwordConfirm"] = password] *)
Definition alt_payload (username password : string) (email : option string)
  : list (string * json) :=
  payload username password email ++ [("passwordConfirm", JStr password)].

Definition users_path : string := String.append API_PREFIX "/users".

(** [try: r = self.post(...) except requests.HTTPError as exc:
    r = exc.response]: the response kept in [r] (possibly None), or
    [Raised] when another exception escapes. *)
Definition post_result (o : outcome) : result (option Response) :=
  match o with
  | Returned r => Ok (Some r)
  | HTTPError r => Ok r
  | OtherError => Raised
  end.

Definition is_422 (r : option Response) : bool :=
  match r with
  | Some resp => status_code resp =? 422
  | None => false
  end.

(** [data = {}; try: if r is not None: data = r.json() except: pass] *)
Definition data_of (r : option Response) : json :=
  match r with
  | Some resp => match body resp with
                 | Some v => v
                 | None => JObj []
                 end
  | None => JObj []
  end.

(** [data.get("id") or data.get("user", {}).get("id")]; [Raised] when
    [data], or the value under "user", has no [get]. *)
Definition extract_id (data : json) : result json :=
  match data with
  | JObj fields =>
      let first := match lookup "id" fields with
                   | Some v => v
                   | None => JNull
                   end in
      if truthy first then Ok first
      else
        match lookup "user" fields with
        | Some (JObj ufields) =>
            Ok (match lookup "id" ufields with
                | Some v => v
                | None => JNull
                end)
        | Some _ => Raised
        | None => Ok JNull
        end
  | _ => Raised
  end.

(** [create_user(username, password, email)]: the requests sent so far
    extended by those of this call, and the value returned. *)
Definition create_user (v : vendor) (sent : list Request)
           (username password : string) (email : option string)
  : list Request * result json :=
  let first := PostParams users_path (payload username password email) in
  let sent1 := sent ++ [first] in
  match post_result (v sent first) with
  | Raised => (sent1, Raised)
  | Ok r =>
      if is_422 r then
        let second :=
          PostJson users_path (alt_payload username password email) in
        let sent2 := sent1 ++ [second] in
        match post_result (v sent1 second) with
        | Raised => (sent2, Raised)
        | Ok r' => (sent2, extract_id (data_of r'))
        end
      else (sent1, extract_id (data_of r))
  end.

(** ** list_users *)

(** What one GET /api/users?skip=&take= yields after decoding. *)
Inductive page : Type :=
| PageFailed                       (* the request or r.json() raises *)
| PageUsers (batch : list RommUser.t)
      (* a list, bare or under "items" *)
| PageUnexpected.                  (* any other payload *)

(** The paging loop; the outer [None] is running out of [fuel], the inner
    one the exception that makes [list_users] return []. *)
Fixpoint fetch (fuel : nat) (get : Z -> Z -> page) (skip take : Z)
         (remote_users : list RommUser.t)
  : option (option (list RommUser.t)) :=
  match fuel with
  | O => None
  | S fuel' =>
      match get skip take with
      | PageFailed => Some None
      | PageUnexpected => Some (Some remote_users)
      | PageUsers batch =>
          let remote_users := remote_users ++ batch in
          if Z.of_nat (List.length batch) <? take then Some (Some remote_users)
          else fetch fuel' get (skip + take) take remote_users
      end
  end.

(** [str(u.get("id") or u["username"])]; [None] stands for KeyError. *)
Definition remote_key (u : RommUser.t) : option string :=
  match RommUser.id u with
  | Some n => if n =? 0 then RommUser.username u
              else Some (Py.str_of_int n)
  | None => RommUser.username u
  end.

(** [d[k] = v] on a dict kept as its items in insertion order. *)
Fixpoint dict_set {V : Type} (k : string) (v : V) (d : list (string * V))
  : list (string * V) :=
  match d with
  | [] => [(k, v)]
  | (k', v') :: rest =>
      if String.eqb k' k then (k', v) :: rest
      else (k', v') :: dict_set k v rest
  end.

Definition dict_has {V : Type} (k : string) (d : list (string * V)) : bool :=
  existsb (fun kv => String.eqb (fst kv) k) d.

(** [remote_by_id = {str(...): u for u in remote_users}] *)
Fixpoint remote_by_id_from (acc : list (string * RommUser.t))
         (remote_users : list RommUser.t)
  : option (list (string * RommUser.t)) :=
  match remote_users with
  | [] => Some acc
  | u :: rest =>
      match remote_key u with
      | Some k => remote_by_id_from (dict_set k u acc) rest
      | None => None
      end
  end.

Definition remote_by_id (remote_users : list RommUser.t)
  : option (list (string * RommUser.t)) :=
  remote_by_id_from [] remote_users.

Definition is_row (romm_id : string) (self_server_id : option Z)
           (u : User.t) : bool :=
  String.eqb (User.token u) romm_id
  && opt_Z_eqb (User.server_id u) self_server_id.

(** The row added for an unknown remote user. *)
Definition new_row (us : list User.t) (romm_id : string) (ru : RommUser.t)
           (self_server_id : option Z) : User.t :=
  User.mk (next_user_id us) romm_id
    (match RommUser.username ru with Some n => n | None => "romm-user" end)
    (match RommUser.email ru with Some e => e | None => Some "" end)
    "romm" None (Some "romm") self_server_id.

(** [db_row.username = ru.get("username", db_row.username)] and the same
    for the e-mail. *)
Definition refreshed (ru : RommUser.t) (row : User.t) : User.t :=
  User.mk (User.id row) (User.token row)
    (match RommUser.username ru with
     | Some n => n
     | None => User.username row
     end)
    (match RommUser.email ru with
     | Some e => e
     | None => User.email row
     end)
    (User.code row) (User.expires row) (User.password row)
    (User.server_id row).

(** Apply [f] to the first element that satisfies [p]; [None] when there
    is none. *)
Fixpoint update_first {A : Type} (p : A -> bool) (f : A -> A) (l : list A)
  : option (list A) :=
  match l with
  | [] => None
  | a :: l' =>
      if p a then Some (f a :: l')
      else option_map (cons a) (update_first p f l')
  end.

(** One iteration of the upsert loop. *)
Definition upsert (self_server_id : option Z) (us : list User.t)
           (item : string * RommUser.t) : list User.t :=
  let '(romm_id, ru) := item in
  match update_first (is_row romm_id self_server_id) (refreshed ru) us with
  | Some us' => us'
  | None => us ++ [new_row us romm_id ru self_server_id]
  end.

(** The rows the second loop keeps. *)
Definition kept (self_server_id : option Z)
           (by_id : list (string * RommUser.t)) (u : User.t) : bool :=
  negb (opt_Z_eqb (User.server_id u) self_server_id
        && negb (dict_has (User.token u) by_id)).

(** Both loops, on the User table. *)
Definition sync (self_server_id : option Z)
           (by_id : list (string * RommUser.t)) (us : list User.t)
  : list User.t :=
  filter (kept self_server_id by_id)
         (fold_left (upsert self_server_id) by_id us).

Definition users_of_server (self_server_id : option Z) (d : DB)
  : list User.t :=
  filter (fun u => opt_Z_eqb (User.server_id u) self_server_id) (users d).

(** [list_users()]: the database afterwards and the rows returned;
    [None] when [fuel] runs out, [Raised] for the KeyError of a remote
    user with neither id nor username. *)
Definition list_users (fuel : nat) (get : Z -> Z -> page)
           (self_server_id : option Z) (d : DB)
  : option (result (DB * list User.t)) :=
  match fetch fuel get 0 100 [] with
  | None => None
  | Some None => Some (Ok (d, []))
  | Some (Some remote_users) =>
      match remote_by_id remote_users with
      | None => Some Raised
      | Some by_id =>
          let d' := with_users d (sync self_server_id by_id (users d)) in
          Some (Ok (d', users_of_server self_server_id d'))
      end
  end.

(** An upstream that serves a fixed list of users page by page. *)
Definition paged (all : list RommUser.t) (skip take : Z) : page :=
  PageUsers (firstn (Z.to_nat take) (skipn (Z.to_nat skip) all)).

(** ** join *)

Definition _password_for_db (password : string) : string := password.

(** The body of the [try]. *)
Definition join_body (env : Env) (w : World)
           (username password email code : string) : World * bool :=
  let '(sent, created) :=
    create_user (http env) (requests w) username password (Some email) in
  let w := with_requests w sent in
  match created with
  | Raised => (w, false)
  | Ok user_id =>
      let d := working (session w) in
      let inv := invitation_by_code d code in
      match expiry env (match inv with
                        | Some i => Invitation.duration i
                        | None => None
                        end) with
      | Raised => (w, false)
      | Ok expires =>
          let server_id :=
            match inv with
            | Some i => server_id_of d i
            | None => None
            end in
          let row id tok :=
            User.mk id tok username (Some email) code expires
                    (Some (_password_for_db password)) server_id in
          match add_and_commit env (session w) user_id row with
          | (s, None) => (with_session w s, false)
          | (s, Some new_user) =>
              match inv with
              | Some i =>
                  match mark_used env s i new_user with
                  | (s', true) => (notify (with_session w s') username, true)
                  | (s', false) => (with_session w s', false)
                  end
              | None => (notify (with_session w s) username, true)
              end
          end
      end
  end.

(** [join(username, password, confirm, email, code)]; [self_server_id]
    is [getattr(self, "server_id", None)]. *)
Definition join (env : Env) (self_server_id : option Z) (w : World)
           (username password confirm email code : string)
  : World * (bool * string) :=
  match prechecks env (working (session w)) self_server_id
                  username password confirm email code with
  | Some msg => (w, (false, msg))
  | None =>
      guarded "ROMM join error"
              (join_body env w username password email code)
  end.

End Romm.

(* ===================================================================== *)
(** * app/services/media/komga.py                                         *)
(* ===================================================================== *)

Module KomgaUser.
(** An element of the /api/v1/users payload. *)
Record t : Type := mk {
  id : string;
  email : string
}.
End KomgaUser.

Module Komga.
Import Model Http Client.

(** ** create_user *)

Definition payload (email password : string) : list (string * json) :=
  [("email", JStr email); ("password", JStr password);
   ("roles", JArr [JStr "USER"])].

(** [response.json()["id"]] *)
Definition id_of (r : Response) : result json :=
  match body r with
  | Some (JObj fields) =>
      match lookup "id" fields with
      | Some v => Ok v
      | None => Raised
      end
  | _ => Raised
  end.

Definition create_user (v : vendor) (sent : list Request)
           (username password email : string)
  : list Request * result json :=
  let req := PostJson "/api/v1/users" (payload email password) in
  (sent ++ [req],
   match v sent req with
   | Returned r => id_of r
   | HTTPError _ | OtherError => Raised
   end).

(** ** list_users *)

(** [komga_users = {u["id"]: u for u in response.json()}] *)
Definition komga_users (remote : list KomgaUser.t)
  : list (string * KomgaUser.t) :=
  fold_left (fun d u => Romm.dict_set (KomgaUser.id u) u d) remote [].

(** One iteration of the insert loop. *)
Definition insert_missing (self_server_id : option Z) (us : list User.t)
           (item : string * KomgaUser.t) : list User.t :=
  let komga_user := snd item in
  if existsb (fun u => String.eqb (User.token u) (KomgaUser.id komga_user)) us
  then us
  else us ++ [User.mk (next_user_id us) (KomgaUser.id komga_user)
                      (KomgaUser.email komga_user)
                      (Some (KomgaUser.email komga_user))
                      "empty" None None self_server_id].

Definition kept (self_server_id : option Z)
           (by_id : list (string * KomgaUser.t)) (u : User.t) : bool :=
  negb (opt_Z_eqb (User.server_id u) self_server_id
        && negb (Romm.dict_has (User.token u) by_id)).

(** Both loops, on the User table. *)
Definition sync (self_server_id : option Z)
           (by_id : list (string * KomgaUser.t)) (us : list User.t)
  : list User.t :=
  filter (kept self_server_id by_id)
         (fold_left (insert_missing self_server_id) by_id us).

(** [list_users()]; [upstream] is the decoded answer to GET
    /api/v1/users, [None] when the request or the decoding raises. *)
Definition list_users (upstream : option (list KomgaUser.t))
           (self_server_id : option Z) (d : DB) : DB * list User.t :=
  match upstream with
  | None => (d, [])
  | Some remote =>
      let d' := with_users d
                  (sync self_server_id (komga_users remote) (users d)) in
      (d', Romm.users_of_server self_server_id d')
  end.

(** ** join *)

(** [_set_library_access(user_id, library_ids)]: the requests sent; the
    first failing PUT ends the loop with a warning. *)
Fixpoint _set_library_access (v : vendor) (sent : list Request)
         (user_id : json) (library_ids : list string) : list Request :=
  match library_ids with
  | [] => sent
  | library_id :: rest =>
      let req := PutSharedLibrary user_id library_id in
      match v sent req with
      | Returned _ => _set_library_access v (sent ++ [req]) user_id rest
      | HTTPError _ | OtherError => sent ++ [req]
      end
  end.

(** The libraries the invitation grants on its server. *)
Definition granted_libraries (d : DB) (inv : Invitation.t) : list string :=
  match libraries d inv with
  | (_ :: _) as libs =>
      map Library.external_id
          (filter (fun lib => opt_Z_eqb (Library.server_id lib)
                                        (server_id_of d inv)) libs)
  | [] =>
      map Library.external_id
          (filter (fun lib => Library.enabled lib
                              && opt_Z_eqb (Library.server_id lib)
                                           (server_id_of d inv))
                  (library_rows d))
  end.

(** The body of the [try]. *)
Definition join_body (env : Env) (w : World)
           (username password email code : string) : World * bool :=
  let '(sent, created) :=
    create_user (http env) (requests w) username password email in
  let w := with_requests w sent in
  match created with
  | Raised => (w, false)
  | Ok user_id =>
      let d := working (session w) in
      match invitation_by_code d code with
      | None => (w, false)
      | Some inv =>
          let w := with_requests w
                     (_set_library_access (http env) (requests w) user_id
                                          (granted_libraries d inv)) in
          match expiry env (Invitation.duration inv) with
          | Raised => (w, false)
          | Ok expires =>
              let row id tok :=
                User.mk id tok username (Some email) code expires None
                        (server_id_of d inv) in
              match add_and_commit env (session w) user_id row with
              | (s, None) => (with_session w s, false)
              | (s, Some new_user) =>
                  match mark_used env s inv new_user with
                  | (s', true) => (notify (with_session w s') username, true)
                  | (s', false) => (with_session w s', false)
                  end
              end
          end
      end
  end.

(** [join(username, password, confirm, email, code)] *)
Definition join (env : Env) (self_server_id : option Z) (w : World)
           (username password confirm email code : string)
  : World * (bool * string) :=
  match prechecks env (working (session w)) self_server_id
                  username password confirm email code with
  | Some msg => (w, (false, msg))
  | None =>
      guarded "Komga join error"
              (join_body env w username password email code)
  end.

End Komga.

(* ===================================================================== *)
(** * app/blueprints/media_servers/routes.py                              *)
(* ===================================================================== *)

Module Servers.
Import Model.

(** [User.query.filter(User.server_id == n).delete()] *)
Definition delete_users_of (n : Z) (s : Session) : Session :=
  mkSession (committed s)
    (with_users (working s)
       (filter (fun u => negb (opt_Z_eqb (User.server_id u) (Some n)))
               (users (working s)))).

(** [MediaServer.query.filter_by(id=server_id).delete()]; the value bound
    to the integer column is the text of the request argument, and
    [id_matches] is the comparison the database makes of the two. *)
Definition delete_media_server (id_matches : Z -> string -> bool)
           (server_id : string) (s : Session) : Session :=
  mkSession (committed s)
    (with_media_servers (working s)
       (filter (fun m => negb (id_matches (MediaServer.id m) server_id))
               (media_servers (working s)))).

(** The comparison when the text is the decimal writing of the id. *)
Definition decimal_id_matches (n : Z) (server_id : string) : bool :=
  String.eqb (Py.str_of_int n) server_id.

(** [delete_server()]: DELETE /settings/servers/?delete=<id>.  The
    argument is [request.args.get("delete")]; the answer is the database
    afterwards and the status, 500 standing for the ValueError of
    [int(server_id)] that nothing handles. *)
Definition delete_server (id_matches : Z -> string -> bool)
           (arg : option string) (d : DB) : DB * Z :=
  match arg with
  | Some server_id =>
      if Py.truthy server_id then
        match Py.int server_id with
        | Some n =>
            let s := delete_users_of n (begin d) in
            let s := delete_media_server id_matches server_id s in
            (committed (commit s), 204)
        | None => (d, 500)
        end
      else (d, 204)
  | None => (d, 204)
  end.

End Servers.

(* ===================================================================== *)
(** * app/web.py: creating and deleting invitations                       *)
(* ===================================================================== *)

Module Str.

(** [c.upper()] on one character (ASCII). *)
Definition upper_char (c : ascii) : ascii :=
  if Py.is_lower c then ascii_of_N (Py.ord c - 32) else c.

(** [s.upper()] *)
Fixpoint upper (s : string) : string :=
  match s with
  | EmptyString => EmptyString
  | String c s' => String (upper_char c) (upper s')
  end.

(** [string.ascii_uppercase + string.digits] *)
Definition uppercase_and_digits : string :=
  "ABCDEFGHIJKLMNOPQRSTUVWXYZ0123456789".

(** [seq[i]] with a default for an index out of range. *)
Fixpoint char_at (s : string) (i : nat) : ascii :=
  match s, i with
  | EmptyString, _ => "?"%char
  | String c _, O => c
  | String _ s', S i' => char_at s' i'
  end.

(** [secrets.choice(seq)], [draw] being what the random source gives:
    one of the characters of [seq]. *)
Definition choice (seq : string) (draw : nat) : ascii :=
  char_at seq (draw mod String.length seq).

(** [''.join(secrets.choice(seq) for _ in range(n))], the k-th draw
    being [draws k], counted from [from]. *)
Fixpoint token (seq : string) (draws : nat -> nat) (from n : nat) : string :=
  match n with
  | O => EmptyString
  | S n' => String (choice seq (draws from)) (token seq draws (S from) n')
  end.

End Str.

Module LegacyAdmin.
Import Legacy.

(** [request.form] of the invitation form. *)
Record Form : Type := mkForm {
  form_code : option string;
  form_expires : option string;
  form_unlimited : option string
}.

(** What lies outside the handler: the random source, the APP_URL
    variable of the environment and the clock (local time, in
    seconds). *)
Record Env : Type := mkEnv {
  draws : nat -> nat;
  app_url : option string;
  now : Z
}.

(** What [invite] answers: the page with the link of the new invitation,
    the listing (GET), 401, or the 500 of an exception nothing handles. *)
Inductive response : Type :=
| InvitePage (link : string)
| Listing
| Unauthorized
| ServerError.

(** [t.strftime("%Y-%m-%d %H:%M")]: the time cut to the minute. *)
Definition to_minute (t : Z) : Z := 60 * (t / 60).

Definition days (n : Z) : Z := n * 86400.

(** The code of the new invitation.  [abort(401)] raises inside the
    [try], and the bare [except] catches it along with the
    AttributeError of a missing field: either way the code is drawn at
    random. *)
Definition chosen_code (env : Env) (form : Form) : string :=
  let random := Str.token Str.uppercase_and_digits (draws env) 0 6 in
  match form_code form with
  | Some c =>
      let code := Str.upper c in
      if negb (Py.len code =? 6) then random else code
  | None => random
  end.

(** The four [if request.form.get("expires") == ...] in a row. *)
Definition chosen_expiry (env : Env) (form : Form) : option Z :=
  let expires := None in
  let expires :=
    if String.eqb (Public.or_empty (form_expires form)) "day"
    then Some (to_minute (now env + days 1)) else expires in
  let expires :=
    if String.eqb (Public.or_empty (form_expires form)) "week"
    then Some (to_minute (now env + days 7)) else expires in
  let expires :=
    if String.eqb (Public.or_empty (form_expires form)) "month"
    then Some (to_minute (now env + days 30)) else expires in
  let expires :=
    if String.eqb (Public.or_empty (form_expires form)) "never"
    then None else expires in
  expires.

(** [invite()]: GET or POST /invite, for a logged-in administrator.
    [Invitations.create] writes the row at once; the link is built after
    it, and [os.getenv("APP_URL") + ...] raises when the variable is not
    set. *)
Definition invite (env : Env) (m : Public.method) (form : Form)
           (tbl : list Invitations.t) : list Invitations.t * response :=
  match m with
  | Public.POST =>
      let code := chosen_code env form in
      if code_exists tbl code then (tbl, Unauthorized)
      else
        let expires := chosen_expiry env form in
        let unlimited := Py.truthy (Public.or_empty (form_unlimited form)) in
        let tbl' := tbl ++ [Invitations.mk code false expires unlimited] in
        match app_url env with
        | Some url =>
            (tbl', InvitePage (String.append url (String.append "/j/" code)))
        | None => (tbl', ServerError)
        end
  | Public.GET => (tbl, Listing)
  end.

(** [delete(code)]: GET /invite/delete=<code>; the answer is always the
    redirect to /invites. *)
Definition delete (tbl : list Invitations.t) (code : string)
  : list Invitations.t :=
  filter (fun i => negb (String.eqb (Invitations.code i) code)) tbl.

End LegacyAdmin.


(* ===================================================================== *)
(** * app/blueprints/media_servers/routes.py: probing, editing, scanning  *)
(* ===================================================================== *)

Module Base64.

Definition alphabet : string :=
  "ABCDEFGHIJKLMNOPQRSTUVWXYZabcdefghijklmnopqrstuvwxyz0123456789+/".

(** The character of a six-bit group. *)
Definition digit (n : N) : ascii :=
  Str.char_at alphabet (N.to_nat (N.modulo n 64)).

(** [base64.b64encode(s).decode()] *)
Fixpoint b64encode (s : string) : string :=
  match s with
  | EmptyString => EmptyString
  | String a EmptyString =>
      let n := (Py.ord a * 65536)%N in
      String (digit (n / 262144)) (String (digit (n / 4096)) "==")
  | String a (String b EmptyString) =>
      let n := (Py.ord a * 65536 + Py.ord b * 256)%N in
      String (digit (n / 262144))
        (String (digit (n / 4096)) (String (digit (n / 64)) "="))
  | String a (String b (String c rest)) =>
      let n := (Py.ord a * 65536 + Py.ord b * 256 + Py.ord c)%N in
      String (digit (n / 262144))
        (String (digit (n / 4096))
           (String (digit (n / 64)) (String (digit n) (b64encode rest))))
  end.

End Base64.

Module ServerAdmin.
Import Model Http.

(** A dict of the handlers: [request.form.to_dict()], or the dict
    [ping_server] builds from a row, whose api_key may be None. *)
Definition Data : Type := list (string * option string).

(** [request.form.to_dict()] *)
Definition of_form (form : list (string * string)) : Data :=
  map (fun kv => (fst kv, Some (snd kv))) form.

(** The item under a key: [None] when the key is absent. *)
Fixpoint item (k : string) (data : Data) : option (option string) :=
  match data with
  | [] => None
  | (k', v) :: rest => if String.eqb k' k then Some v else item k rest
  end.

(** [data.get(k)] *)
Definition get (k : string) (data : Data) : option string :=
  match item k data with Some v => v | None => None end.

(** [data.get(k, "").strip()]; [Raised] for the AttributeError of a
    None. *)
Definition stripped (k : string) (data : Data) : result string :=
  match item k data with
  | Some (Some s) => Ok (Py.strip s)
  | Some None => Raised
  | None => Ok (Py.strip "")
  end.

(** The RomM credentials folded into the api key:
    [if username and password: data["api_key"] = b64encode(...)].  The
    dict is changed in place. *)
Definition with_romm_key (data : Data) : result Data :=
  match stripped "server_username" data with
  | Raised => Raised
  | Ok username =>
      match stripped "server_password" data with
      | Raised => Raised
      | Ok password =>
          if (Py.truthy username && Py.truthy password)%bool then
            Ok (Romm.dict_set "api_key"
                  (Some (Base64.b64encode
                           (String.append username
                              (String.append ":" password))))
                  data)
          else Ok data
      end
  end.

(** The connection checks of app/services/servers.py (not under src/). *)
Inductive check : Type :=
| check_plex | check_jellyfin | check_emby | check_audiobookshelf
| check_romm.

(** What lies outside the handlers: the answer [(ok, error_msg)] of a
    connection check to a url and an api key, and the result of
    [scan_libraries_for_server] as (external id, name) pairs, [None]
    when it raises. *)
Record Env : Type := mkEnv {
  probe : check -> option string -> option string -> bool * string;
  scan : MediaServer.t -> option (list (string * string))
}.

(** [check(data["server_url"], data["api_key"])]; [Raised] for the
    KeyError of a missing key. *)
Definition run_check (env : Env) (c : check) (data : Data)
  : result (Data * (bool * string)) :=
  match item "server_url" data, item "api_key" data with
  | Some url, Some key => Ok (data, probe env c url key)
  | _, _ => Raised
  end.

(** [_check_connection(data)]: the dict as the call leaves it, and the
    answer of the check. *)
Definition _check_connection (env : Env) (data : Data)
  : result (Data * (bool * string)) :=
  match item "server_type" data with
  | None => Raised
  | Some stype =>
      let of_type t := match stype with
                  | Some s => String.eqb s t
                  | None => false
                  end in
      if of_type "plex" then run_check env check_plex data
      else if of_type "emby" then run_check env check_emby data
      else if of_type "audiobookshelf" then run_check env check_audiobookshelf data
      else if of_type "romm" then
        match with_romm_key data with
        | Raised => Raised
        | Ok data => run_check env check_romm data
        end
      else run_check env check_jellyfin data
  end.

(** What the handlers answer. *)
Inductive response : Type :=
| NotFound                              (* get_or_404 *)
| ServerError                           (* an exception nothing handles *)
| Modal (error : string)                (* the edit modal *)
| RedirectToList
| ScanFailed                            (* "Failed", 500 *)
| Checkboxes                            (* the library partial *)
| Ping (connected : bool) (error : option string).

(** [ping_server(server_id)], for a request that is not from HTMX. *)
Definition ping_server (env : Env) (server_id : Z) (d : DB) : response :=
  match server_by_id d server_id with
  | None => NotFound
  | Some server =>
      match _check_connection env
              [("server_type", Some (MediaServer.server_type server));
               ("server_url", Some (MediaServer.url server));
               ("api_key", MediaServer.api_key server)] with
      | Raised => ServerError
      | Ok (_, (ok, error_msg)) =>
          Ping ok (if negb ok then Some error_msg else None)
      end
  end.

Definition with_library_rows (d : DB) (libs : list Library.t) : DB :=
  mkDB (users d) (invitations d) (media_servers d) libs.

Definition set_enabled (lib : Library.t) (b : bool) : Library.t :=
  Library.mk (Library.id lib) (Library.external_id lib) (Library.name lib)
             b (Library.server_id lib).

Definition set_name (name : string) (lib : Library.t) : Library.t :=
  Library.mk (Library.id lib) (Library.external_id lib) name
             (Library.enabled lib) (Library.server_id lib).

(** [for lib in Library.query.filter_by(server_id=server.id):
       lib.enabled = lib.external_id in chosen] *)
Definition choose (server_id : Z) (chosen : list string)
           (libs : list Library.t) : list Library.t :=
  map (fun lib =>
         if opt_Z_eqb (Library.server_id lib) (Some server_id)
         then set_enabled lib
                (existsb (String.eqb (Library.external_id lib)) chosen)
         else lib)
      libs.

(** The server row with the fields of the form written over it. *)
Definition replace_server (s : MediaServer.t) (ms : list MediaServer.t)
  : list MediaServer.t :=
  map (fun m => if MediaServer.id m =? MediaServer.id s then s else m) ms.

(** [edit_server(server_id)]: GET or POST
    /settings/servers/<id>/edit; [chosen] is
    [request.form.getlist('libraries')].  Of the columns written, those
    of [MediaServer.t] are kept. *)
Definition edit_server (env : Env) (server_id : Z) (m : Public.method)
           (form : list (string * string)) (chosen : list string) (d : DB)
  : DB * response :=
  match server_by_id d server_id with
  | None => (d, NotFound)
  | Some server =>
      match m with
      | Public.GET => (d, Modal "")
      | Public.POST =>
          let data := of_form form in
          let derived :=
            match get "server_type" data with
            | Some "romm" => with_romm_key data
            | _ => Ok data
            end in
          match derived with
          | Raised => (d, ServerError)
          | Ok data =>
              match _check_connection env data with
              | Raised => (d, ServerError)
              | Ok (data, (ok, error_msg)) =>
                  if negb ok then (d, Modal error_msg)
                  else
                    match item "server_name" data, item "server_type" data,
                          item "server_url" data with
                    | Some (Some name), Some (Some stype), Some (Some url) =>
                        let server' :=
                          MediaServer.mk (MediaServer.id server) name stype
                                         url (get "api_key" data) in
                        let libs :=
                          match chosen with
                          | [] => library_rows d
                          | _ :: _ =>
                              choose (MediaServer.id server) chosen
                                     (library_rows d)
                          end in
                        (mkDB (users d) (invitations d)
                              (replace_server server' (media_servers d))
                              libs,
                         RedirectToList)
                    | _, _, _ => (d, ServerError)
                    end
              end
          end
      end
  end.

(** The primary key the database gives the next inserted Library row. *)
Definition next_library_id (libs : list Library.t) : Z :=
  1 + fold_right (fun l m => Z.max (Library.id l) m) 0 libs.

Definition is_library (fid : string) (server_id : Z) (lib : Library.t)
  : bool :=
  String.eqb (Library.external_id lib) fid
  && opt_Z_eqb (Library.server_id lib) (Some server_id).

(** One iteration of the loop of [scan_server_libraries]: the first row
    of this server with the external id gets the name; when there is
    none a row is added, which the UNIQUE constraint on
    [Library.external_id] refuses ([None]) when a row of another server
    carries the id. *)
Definition scan_step (server_id : Z) (libs : option (list Library.t))
           (pair : string * string) : option (list Library.t) :=
  match libs with
  | None => None
  | Some libs =>
      let '(fid, name) := pair in
      match Romm.update_first (is_library fid server_id) (set_name name)
                              libs with
      | Some libs' => Some libs'
      | None =>
          if existsb (fun l => String.eqb (Library.external_id l) fid) libs
          then None
          else Some (libs ++ [Library.mk (next_library_id libs) fid name true
                                         (Some server_id)])
      end
  end.

(** [scan_server_libraries(server_id)]: POST
    /settings/servers/<id>/scan-libraries. *)
Definition scan_server_libraries (env : Env) (server_id : Z) (d : DB)
  : DB * response :=
  match server_by_id d server_id with
  | None => (d, NotFound)
  | Some server =>
      match scan env server with
      | None => (d, ScanFailed)
      | Some pairs =>
          match fold_left (scan_step (MediaServer.id server)) pairs
                          (Some (library_rows d)) with
          | Some libs => (with_library_rows d libs, Checkboxes)
          | None => (d, ServerError)
          end
      end
  end.

End ServerAdmin.


(* ===================================================================== *)
(** * The [libraries] method of the two clients                           *)
(* ===================================================================== *)

Module Dict.
Import Http.

(** Whether a value can be a dict key: lists and dicts cannot. *)
Definition hashable (v : json) : bool :=
  match v with
  | JArr _ | JObj _ => false
  | _ => true
  end.

(** Equality of dict keys: [True == 1] and [False == 0]. *)
Definition key_eqb (a b : json) : bool :=
  match a, b with
  | JNull, JNull => true
  | JStr s, JStr t => String.eqb s t
  | JNum n, JNum m => n =? m
  | JBool x, JBool y => Bool.eqb x y
  | JBool x, JNum m => (if x then 1 else 0) =? m
  | JNum n, JBool y => n =? (if y then 1 else 0)
  | _, _ => false
  end.

(** [d[k] = v] on a dict kept as its items in insertion order: a key
    already there keeps its place and its first spelling. *)
Fixpoint put (k v : json) (d : list (json * json)) : list (json * json) :=
  match d with
  | [] => [(k, v)]
  | (k', v') :: rest =>
      if key_eqb k' k then (k', v) :: rest else (k', v') :: put k v rest
  end.

(** [k in d] *)
Definition has (k : json) (d : list (json * json)) : bool :=
  existsb (fun kv => key_eqb (fst kv) k) d.

(** [{key(p): value(p) for p in items}], [entry] giving the pair of an
    item, or [None] when one of the two expressions or the insertion
    raises. *)
Fixpoint comprehension (entry : json -> option (json * json))
         (items : list json) (acc : list (json * json))
  : option (list (json * json)) :=
  match items with
  | [] => Some acc
  | p :: rest =>
      match entry p with
      | Some (k, v) => comprehension entry rest (put k v acc)
      | None => None
      end
  end.

End Dict.

Module RommCatalog.
Import Http.

(** [p["id"]: p.get("name", p["id"])] for one platform. *)
Definition entry (p : json) : option (json * json) :=
  match p with
  | JObj fields =>
      match lookup "id" fields with
      | Some id =>
          if Dict.hashable id
          then Some (id, match lookup "name" fields with
                         | Some name => name
                         | None => id
                         end)
          else None
      | None => None
      end
  | _ => None
  end.

(** [libraries()]; [payload] is the decoded answer to GET
    /api/platforms, [None] when the request or the decoding raises.
    Whatever goes wrong inside the [try] gives the empty dict. *)
Definition libraries (payload : option json) : list (json * json) :=
  match payload with
  | Some (JArr items) =>
      match Dict.comprehension entry items [] with
      | Some d => d
      | None => []
      end
  | _ => []
  end.

End RommCatalog.

Module KomgaCatalog.
Import Http.

(** [lib["id"]: lib["name"]] for one library. *)
Definition entry (lib : json) : option (json * json) :=
  match lib with
  | JObj fields =>
      match lookup "id" fields, lookup "name" fields with
      | Some id, Some name =>
          if Dict.hashable id then Some (id, name) else None
      | _, _ => None
      end
  | _ => None
  end.

(** [libraries()]; [payload] is the decoded answer to GET
    /api/v1/libraries. *)
Definition libraries (payload : option json) : list (json * json) :=
  match payload with
  | Some (JArr items) =>
      match Dict.comprehension entry items [] with
      | Some d => d
      | None => []
      end
  | _ => []
  end.

End KomgaCatalog.


(* ===================================================================== *)
(** * Vocabulary of the statements                                        *)
(* ===================================================================== *)

(** ** The legacy /join handler *)

(** Some row carries the code. *)
Definition known (tbl : list Legacy.Invitations.t) (code : string) : Prop :=
  exists i, In i tbl /\ Legacy.Invitations.code i = code.

(** Some row with the code is single-use and used. *)
Definition spent (tbl : list Legacy.Invitations.t) (code : string) : Prop :=
  exists i, In i tbl /\ Legacy.Invitations.code i = code
            /\ Legacy.Invitations.used i = true
            /\ Legacy.Invitations.unlimited i = false.

(** Some row with the code has an expiry that is not in the future. *)
Definition lapsed (now : Z) (tbl : list Legacy.Invitations.t)
           (code : string) : Prop :=
  exists i e, In i tbl /\ Legacy.Invitations.code i = code
              /\ Legacy.Invitations.expires i = Some e /\ e <= now.

(** ** Invitation lookup *)

(** No other stored invitation has a code equal to the code of [inv] up
    to letter case. *)
Definition alone_up_to_case (d : Model.DB) (inv : Invitation.t) : Prop :=
  forall j, In j (Model.invitations d) ->
            Py.lower (Invitation.code j) = Py.lower (Invitation.code inv) ->
            j = inv.

(** ** The vendor clients *)

(** The status of the response an attempt ends with, if it has one. *)
Definition status_of (o : Http.outcome) : option Z :=
  match o with
  | Http.Returned r => Some (Http.status_code r)
  | Http.HTTPError (Some r) => Some (Http.status_code r)
  | Http.HTTPError None => None
  | Http.OtherError => None
  end.

Definition is_put (r : Http.Request) : Prop :=
  match r with Http.PutSharedLibrary _ _ => True | _ => False end.

(** The five checks of [join], as properties of its arguments. *)
Definition email_ok (email : string) : Prop :=
  Py.fullmatch Client.EMAIL_RE email = true.

Definition length_ok (password : string) : Prop :=
  8 <= Py.len password <= 20.

Definition confirm_ok (password confirm : string) : Prop :=
  password = confirm.

Definition invite_ok (env : Client.Env) (w : Client.World) (code : string)
  : Prop :=
  fst (Invites.is_invite_valid (Client.now env)
         (Model.working (Client.session w)) code) = true.

(** A User of this server already has the username or the e-mail. *)
Definition collision (self_server_id : option Z) (w : Client.World)
           (username email : string) : Prop :=
  exists u, In u (Model.users (Model.working (Client.session w)))
            /\ (User.username u = username \/ User.email u = Some email)
            /\ User.server_id u = self_server_id.

(** What the order of the checks means for the answer of a [join] whose
    remote creation starts with the request [first]: a failing check is
    reported by its own message provided the checks before it pass, and
    the world is then handed back as it was. *)
Definition checks_in_order (env : Client.Env) (self_server_id : option Z)
           (w : Client.World)
           (username password confirm email code : string)
           (answer : Client.World * (bool * string))
           (first : Http.Request) : Prop :=
  (~ email_ok email -> answer = (w, (false, "Invalid e-mail address.")))
  /\ (email_ok email -> ~ length_ok password ->
      answer = (w, (false, "Password must be 8–20 characters.")))
  /\ (email_ok email -> length_ok password ->
      ~ confirm_ok password confirm ->
      answer = (w, (false, "Passwords do not match.")))
  /\ (email_ok email -> length_ok password -> confirm_ok password confirm ->
      ~ invite_ok env w code ->
      answer
      = (w, (false, snd (Invites.is_invite_valid
                           (Client.now env)
                           (Model.working (Client.session w)) code))))
  /\ (email_ok email -> length_ok password -> confirm_ok password confirm ->
      invite_ok env w code ->
      collision self_server_id w username email ->
      answer = (w, (false, "User or e-mail already exists.")))
  /\ (email_ok email -> length_ok password -> confirm_ok password confirm ->
      invite_ok env w code ->
      ~ collision self_server_id w username email ->
      exists rest,
        Client.requests (fst answer) = Client.requests w ++ first :: rest).

(** How the committed state after a failed [join] relates to the state
    before it: either nothing was committed, or the commit of the new
    User row went through and it is the ledger helper that raised, in
    which case that row, and nothing else, was committed. *)
Definition committed_after_failure (env : Client.Env)
           (before after : Model.Session) : Prop :=
  Model.committed after = Model.committed before
  \/ exists new_user inv sid tbl,
      Client.commit_ok env (Model.users (Model.working before)) new_user
      = true
      /\ Client.mark_server_used env inv sid tbl = None
      /\ Model.committed after
         = Model.with_users (Model.working before)
             (Model.users (Model.working before) ++ [new_user]).

(** ** The password-provisioning loop *)

(** The servers the loop creates an account on. *)
Definition provisioned_type (srv : MediaServer.t) : bool :=
  Public.is_password_signup (MediaServer.server_type srv).

(** Nothing is pending in the session. *)
Definition clean (s : Model.Session) : Prop :=
  Model.working s = Model.committed s.

(** The arguments every call of the loop carries. *)
Definition loop_call (pw : string) (plex_user : option User.t)
           (c : Public.Call) : Prop :=
  Public.call_username c = Public.derived_username plex_user
  /\ Public.call_password c = pw
  /\ provisioned_type (Public.call_server c) = true.

(** A row the loop stores for a server. *)
Definition loop_row (code : string) (plex_user : option User.t)
           (srv : MediaServer.t) (u : User.t) : Prop :=
  User.server_id u = Some (MediaServer.id srv) /\ User.code u = code
  /\ User.username u = Public.derived_username plex_user.

(** The row [u] was stored for [srv]: the client returned an id and the
    commit of the row went through. *)
Definition stored_for (env : Public.Env) (code : string)
           (plex_user : option User.t) (srv : MediaServer.t) (u : User.t)
  : Prop :=
  exists c uid h us,
    Public.call_server c = srv /\ Public.create_user env h c = Some uid
    /\ Public.commit_ok env us u = true /\ loop_row code plex_user srv u.

(** The form passes the check of the route: the two fields agree and
    the password has eight characters or more. *)
Definition acceptable (form : Public.Form) : Prop :=
  Public.or_empty (Public.form_password form)
  = Public.or_empty (Public.form_confirm form)
  /\ 8 <= Py.len (Public.or_empty (Public.form_password form)).

(** The password the loop uses. *)
Definition chosen_password (env : Public.Env) (form : Public.Form)
  : string :=
  if (Py.truthy (Public.or_empty (Public.form_generate form))
      || String.eqb (Py.strip (Public.or_empty (Public.form_password form)))
                    "")%bool
  then Public.generated_password env
  else Public.or_empty (Public.form_password form).




(** ** Reconciliation *)





(** ** Paging *)

(** From [skip] on, [get] answers with the batches [pages] one after the
    other, none of them shorter than [take]. *)
Fixpoint full_pages (get : Z -> Z -> Romm.page) (skip take : Z)
         (pages : list (list RommUser.t)) : Prop :=
  match pages with
  | [] => True
  | batch :: rest =>
      get skip take = Romm.PageUsers batch
      /\ take <= Z.of_nat (List.length batch)
      /\ full_pages get (skip + take) take rest
  end.



(** ** Library grants *)

(** The vendor refuses the request, whatever came before it. *)
Definition always_refused (v : Http.vendor) (req : Http.Request) : Prop :=
  forall sent, match v sent req with
               | Http.Returned _ => False
               | _ => True
               end.

(** The vendor accepts every grant. *)
Definition grants_accepted (v : Http.vendor) : Prop :=
  forall sent user_id library_id,
    match v sent (Http.PutSharedLibrary user_id library_id) with
    | Http.Returned _ => True
    | _ => False
    end.


(** ** Legacy invitation codes *)

(** The string has a lower-case ASCII letter. *)
Fixpoint has_lower (s : string) : bool :=
  match s with
  | EmptyString => false
  | String c s' => (Py.is_lower c || has_lower s')%bool
  end.

(** No stored code has a lower-case letter. *)
Definition codes_upper (tbl : list Legacy.Invitations.t) : Prop :=
  Forall (fun i => has_lower (Legacy.Invitations.code i) = false) tbl.

(** No two rows carry the same code. *)
Definition codes_distinct (tbl : list Legacy.Invitations.t) : Prop :=
  NoDup (map Legacy.Invitations.code tbl).


(** ** Server administration *)

(** The connection check that answers for a server type. *)
Definition check_for (server_type : string) : ServerAdmin.check :=
  if String.eqb server_type "plex" then ServerAdmin.check_plex
  else if String.eqb server_type "emby" then ServerAdmin.check_emby
  else if String.eqb server_type "audiobookshelf"
       then ServerAdmin.check_audiobookshelf
  else if String.eqb server_type "romm" then ServerAdmin.check_romm
  else ServerAdmin.check_jellyfin.

(** A Library row with its name blanked when it belongs to the server:
    two tables that agree under this map hold the same rows in the same
    order, up to the names of the rows of that server. *)
Definition nameless_on (server_id : Z) (lib : Library.t) : Library.t :=
  if Model.opt_Z_eqb (Library.server_id lib) (Some server_id)
  then ServerAdmin.set_name "" lib
  else lib.

(** A Library row with its enabled flag cleared when it belongs to the
    server. *)
Definition flagless_on (server_id : Z) (lib : Library.t) : Library.t :=
  if Model.opt_Z_eqb (Library.server_id lib) (Some server_id)
  then ServerAdmin.set_enabled lib false
  else lib.

(** An external id comes with one name only. *)
Definition one_name_each (pairs : list (string * string)) : Prop :=
  forall fid name name',
    In (fid, name) pairs -> In (fid, name') pairs -> name = name'.

(** The first row of the server with the external id carries the
    name. *)
Definition named (server_id : Z) (fid name : string)
           (libs : list Library.t) : Prop :=
  exists lib, find (ServerAdmin.is_library fid server_id) libs = Some lib
              /\ Library.name lib = name.


(* ===================================================================== *)
(** * Sample data                                                         *)
(* ===================================================================== *)

Module Samples.

(** A single-use legacy invitation that is both used and expired at
    time 20. *)
Definition spent_and_lapsed : Legacy.Invitations.t :=
  Legacy.Invitations.mk "ABC123" true (Some 10) false.

(** A fresh legacy invitation. *)
Definition fresh_legacy : Legacy.Invitations.t :=
  Legacy.Invitations.mk "ABC123" false None false.

(** Three servers. *)
Definition plex : MediaServer.t :=
  MediaServer.mk 1 "Plex" "plex" "http://plex.local" None.

Definition jellyfin : MediaServer.t :=
  MediaServer.mk 2 "Jellyfin" "jellyfin" "http://jellyfin.local" None.

Definition romm : MediaServer.t :=
  MediaServer.mk 3 "RomM" "romm" "http://romm.local" None.

(** An invitation attached to the three of them. *)
Definition invitation : Invitation.t :=
  Invitation.mk 1 "ABC123" false None (Some false) None (Some 1)
                [1; 2; 3] [] None.

(** A second invitation whose code is that of the first in lower
    case. *)
Definition lower_twin : Invitation.t :=
  Invitation.mk 7 "abc123" false None (Some false) None (Some 1)
                [1] [] None.

(** The row the Plex OAuth step left behind. *)
Definition bob : User.t :=
  User.mk 1 "plex-token" "bobby" (Some "bob@x.com") "ABC123" None None
          (Some 1).

(** A row that marks the Jellyfin server as provisioned. *)
Definition bob_on_jellyfin : User.t :=
  User.mk 2 "jf-1" "bobby" (Some "bob@x.com") "ABC123" None None (Some 2).

Definition db0 : Model.DB :=
  Model.mkDB [bob] [invitation] [plex; jellyfin; romm] [].

Definition db_marked : Model.DB :=
  Model.mkDB [bob; bob_on_jellyfin] [invitation] [plex; jellyfin; romm] [].

(** Every vendor answers, every commit goes through. *)
Definition env_up : Public.Env :=
  Public.mkEnv (fun _ _ => Some "uid") (fun _ _ => true)
               (fun _ _ tbl => Some tbl) "Zq3mV8kPw1LxT7aB"
               (fun _ _ d => d).

(** The Jellyfin server is unreachable. *)
Definition env_jellyfin_down : Public.Env :=
  Public.mkEnv
    (fun _ c => if MediaServer.id (Public.call_server c) =? 2 then None
                else Some "uid")
    (fun _ _ => true) (fun _ _ tbl => Some tbl) "Zq3mV8kPw1LxT7aB"
    (fun _ _ d => d).

Definition form : Public.Form :=
  Public.mkForm (Some "password123") (Some "password123") None.

Definition world0 : Public.World := Public.mkWorld db0 [] [].

Definition world_marked : Public.World := Public.mkWorld db_marked [] [].

(** A RomM that refuses the query-string form with 422 and accepts the
    JSON body. *)
Definition picky_romm : Http.vendor :=
  fun _ req =>
    match req with
    | Http.PostParams _ _ =>
        Http.HTTPError
          (Some (Http.mkResponse 422
                   (Some (Http.JObj [("detail", Http.JStr "invalid")]))))
    | _ =>
        Http.Returned
          (Http.mkResponse 201 (Some (Http.JObj [("id", Http.JNum 7)])))
    end.

(** A vendor that creates every account, and a database that refuses
    every commit. *)
Definition env_commit_fails : Client.Env :=
  Client.mkEnv picky_romm (fun _ _ => false) (fun _ _ tbl => Some tbl) 0 0.

(** The same vendor, commits that go through, and a ledger helper that
    raises. *)
Definition env_ledger_raises : Client.Env :=
  Client.mkEnv picky_romm (fun _ _ => true) (fun _ _ _ => None) 0 0.

(** An invitation for the RomM server alone, and a session that holds
    it. *)
Definition romm_invitation : Invitation.t :=
  Invitation.mk 2 "ROMM42" false None (Some false) None (Some 3) [3] [] None.

Definition client_world : Client.World :=
  Client.mkWorld
    (Model.begin (Model.mkDB [] [romm_invitation] [plex; jellyfin; romm] []))
    [] [] [].


(** A RomM user unknown locally. *)
Definition dave : RommUser.t :=
  RommUser.mk (Some 5) (Some "dave") (Some (Some "dave@example.com")).

End Samples.

(* ===================================================================== *)
(** * More sample data                                                    *)
(* ===================================================================== *)

Module MoreSamples.

Definition komga : MediaServer.t :=
  MediaServer.mk 4 "Komga" "komga" "http://komga.local" None.

Definition audiobookshelf : MediaServer.t :=
  MediaServer.mk 5 "Audiobookshelf" "audiobookshelf" "http://abs.local" None.

(** An invitation attached to Plex and Komga. *)
Definition plex_komga_invitation : Invitation.t :=
  Invitation.mk 3 "KOMGA1" false None (Some false) None (Some 1)
                [1; 4] [] None.

(** An invitation whose server is the Komga server. *)
Definition komga_invitation : Invitation.t :=
  Invitation.mk 4 "KOMGA2" false None (Some false) None (Some 4)
                [4] [] None.

Definition db_komga : Model.DB :=
  Model.mkDB [Samples.bob] [plex_komga_invitation; komga_invitation]
             [Samples.plex; Samples.jellyfin; Samples.romm; komga] [].

Definition world_komga : Public.World := Public.mkWorld db_komga [] [].

(** The ledger helper always raises; everything else works. *)
Definition env_helper_raises : Public.Env :=
  Public.mkEnv (fun _ _ => Some "uid") (fun _ _ => true)
               (fun _ _ _ => None) "Zq3mV8kPw1LxT7aB" (fun _ _ d => d).

Definition form_generate : Public.Form :=
  Public.mkForm (Some "password123") (Some "password123") (Some "on").

Definition form_short : Public.Form :=
  Public.mkForm (Some "short") (Some "short") None.

End MoreSamples.

Module PagingSamples.

(** A batch of one hundred users. *)
Definition hundred : list RommUser.t :=
  map (fun n => RommUser.mk (Some (Z.of_nat n)) (Some "player") None)
      (seq 1 100).

(** An upstream whose first page is full and whose second page fails. *)
Definition second_page_fails (skip take : Z) : Romm.page :=
  if skip =? 0 then Romm.PageUsers hundred else Romm.PageFailed.

(** An upstream whose first page is full and whose second page is not a
    list. *)
Definition second_page_odd (skip take : Z) : Romm.page :=
  if skip =? 0 then Romm.PageUsers hundred else Romm.PageUnexpected.

(** An upstream that ignores skip and take. *)
Definition same_page_forever (skip take : Z) : Romm.page :=
  Romm.PageUsers hundred.


End PagingSamples.


Module RommSamples.

(** An earlier upstream entry under dave's id. *)
Definition david : RommUser.t := RommUser.mk (Some 5) (Some "david") None.

(** A row of dave on the RomM server, from an invitation. *)
Definition dave_row : User.t :=
  User.mk 7 "5" "dave-old" (Some "old@example.com") "ROMM42" (Some 1000)
          (Some "hunter2hunter2") (Some 3).

Definition db_dave : Model.DB :=
  Model.mkDB [Samples.bob; dave_row] [Samples.romm_invitation]
             [Samples.plex; Samples.jellyfin; Samples.romm] [].

End RommSamples.


Module JoinSamples.

(** RomM creates the account on the second attempt; commits and the
    ledger helper go through. *)
Definition env_romm : Client.Env :=
  Client.mkEnv Samples.picky_romm (fun _ _ => true)
               (fun _ _ tbl => Some tbl) 0 0.

(** A Komga that creates every account and accepts every grant. *)
Definition komga_up : Http.vendor :=
  fun _ _ =>
    Http.Returned
      (Http.mkResponse 200 (Some (Http.JObj [("id", Http.JStr "k-9")]))).

(** A Komga that refuses the grants on the library "lib-b". *)
Definition komga_refuses_b : Http.vendor :=
  fun _ req =>
    match req with
    | Http.PutSharedLibrary _ "lib-b" => Http.HTTPError None
    | _ =>
        Http.Returned
          (Http.mkResponse 200 (Some (Http.JObj [("id", Http.JStr "k-9")])))
    end.

Definition env_komga : Client.Env :=
  Client.mkEnv komga_up (fun _ _ => true) (fun _ _ tbl => Some tbl) 0 0.

(** Libraries of the Komga server, one of them disabled, and one of the
    Jellyfin server. *)
Definition lib_a : Library.t := Library.mk 1 "lib-a" "Comics" true (Some 4).
Definition lib_b : Library.t := Library.mk 2 "lib-b" "Manga" true (Some 4).
Definition lib_c : Library.t := Library.mk 3 "lib-c" "Drafts" false (Some 4).
Definition lib_j : Library.t := Library.mk 4 "lib-j" "Films" true (Some 2).

(** An invitation for the Komga server that names no library, with a
    duration of thirty days. *)
Definition komga_invitation : Invitation.t :=
  Invitation.mk 5 "KOMGA5" false None (Some false) (Some "30") (Some 4)
                [4] [] None.

(** An invitation for the Komga server that names a disabled library of
    that server and a library of another server. *)
Definition komga_named : Invitation.t :=
  Invitation.mk 6 "KOMGA6" false None (Some false) None (Some 4)
                [4] [3; 4] None.

Definition db_komga : Model.DB :=
  Model.mkDB [] [komga_invitation; komga_named]
             [Samples.plex; Samples.jellyfin; Samples.romm;
              MoreSamples.komga]
             [lib_a; lib_b; lib_c; lib_j].

Definition komga_world : Client.World :=
  Client.mkWorld (Model.begin db_komga) [] [] [].

End JoinSamples.


Module LegacySamples.

(** The administrator asks for the code "abc123", valid for a day. *)
Definition form_day : LegacyAdmin.Form :=
  LegacyAdmin.mkForm (Some "abc123") (Some "day") None.

(** A code that is too short. *)
Definition form_short : LegacyAdmin.Form :=
  LegacyAdmin.mkForm (Some "abc") (Some "never") (Some "on").

Definition env : LegacyAdmin.Env :=
  LegacyAdmin.mkEnv (fun k => (7 * k + 3)%nat) (Some "https://wizarr.local")
                    1000.

Definition table : list Legacy.Invitations.t :=
  [Legacy.Invitations.mk "XYZ789" false None false].

End LegacySamples.


Module AdminSamples.

(** Every check answers that the server is reachable; the scan of the
    Jellyfin server finds two folders. *)
Definition env : ServerAdmin.Env :=
  ServerAdmin.mkEnv (fun _ _ _ => (true, ""))
                    (fun _ => Some [("f-1", "Films"); ("f-2", "Series")]).

(** The scan finds a folder whose id a library of the Komga server
    carries. *)
Definition env_clash : ServerAdmin.Env :=
  ServerAdmin.mkEnv (fun _ _ _ => (true, ""))
                    (fun _ => Some [("f-1", "Films"); ("lib-a", "Comics")]).

Definition film : Library.t := Library.mk 5 "f-1" "Movies" false (Some 2).

Definition db : Model.DB :=
  Model.mkDB [] []
             [Samples.plex; Samples.jellyfin; Samples.romm;
              MoreSamples.komga]
             [JoinSamples.lib_a; JoinSamples.lib_b; film].

(** The edit form of the RomM server, with credentials. *)
Definition romm_form : list (string * string) :=
  [("server_name", "RomM"); ("server_type", "romm");
   ("server_url", "http://romm.local"); ("server_username", " admin ");
   ("server_password", "secret")].

(** The edit form of the Jellyfin server. *)
Definition jellyfin_form : list (string * string) :=
  [("server_name", "Jellyfin"); ("server_type", "jellyfin");
   ("server_url", "http://jellyfin.local"); ("api_key", "key")].

End AdminSamples.


(* ===================================================================== *)
(** * The embedding at work                                               *)
(* ===================================================================== *)

Example lower_is_ascii : Py.lower "AbC-123_z" = "abc-123_z".
Proof. reflexivity. Qed.

Example int_accepts :
  Py.int " 12_3 " = Some 123 /\ Py.int "-5" = Some (-5)
  /\ Py.int "+07" = Some 7.
Proof. repeat split. Qed.

Example int_rejects :
  Py.int "" = None /\ Py.int "abc" = None /\ Py.int "1__2" = None
  /\ Py.int "3_" = None.
Proof. repeat split. Qed.

Example email_re_accepts :
  Py.fullmatch Client.EMAIL_RE "alice@example.com" = true
  /\ Py.fullmatch Client.EMAIL_RE "a.b+c@mail.example.org" = true.
Proof. split; vm_compute; reflexivity. Qed.

Example email_re_rejects :
  Py.fullmatch Client.EMAIL_RE "alice@example" = false
  /\ Py.fullmatch Client.EMAIL_RE "alice@example.c" = false
  /\ Py.fullmatch Client.EMAIL_RE "a@b@example.com" = false
  /\ Py.fullmatch Client.EMAIL_RE "alice@example.abcdefgh" = false.
Proof. repeat split; vm_compute; reflexivity. Qed.

(** The legacy handler on a fresh code, on an unknown one and on a code
    in another case. *)
Example connect_fresh :
  Legacy.connect 0 [Samples.fresh_legacy] "ABC123" = Legacy.OAuthRedirect
  /\ Legacy.connect 0 [Samples.fresh_legacy] "XYZ789"
     = Legacy.LoginPage "That invite code does not exist."
  /\ Legacy.plex [Samples.fresh_legacy] "abc123" = 401.
Proof. repeat split. Qed.

(** The password prompt on the sample invitation: Plex is skipped, the
    Jellyfin and RomM accounts are created under the Plex username. *)
Example password_prompt_calls :
  map (fun c => (MediaServer.name (Public.call_server c),
                 Public.call_username c))
      (Public.calls (fst (Public.password_prompt Samples.env_up Public.POST
                            Samples.form "ABC123" Samples.world0)))
  = [("Jellyfin", "bobby"); ("RomM", "bobby")].
Proof. vm_compute. reflexivity. Qed.

(** With the Jellyfin server down its name is logged and the RomM
    account is still created. *)
Example password_prompt_one_down :
  let w := fst (Public.password_prompt Samples.env_jellyfin_down Public.POST
                  Samples.form "ABC123" Samples.world0) in
  Public.errors w = ["Jellyfin"]
  /\ map User.server_id (Model.users (Public.db w)) = [Some 1; Some 3].
Proof. vm_compute. split; reflexivity. Qed.

(** A form whose fields differ is sent back. *)
Example password_prompt_mismatch :
  Public.password_prompt Samples.env_up Public.POST
    (Public.mkForm (Some "password123") (Some "password124") None)
    "ABC123" Samples.world0
  = (Samples.world0,
     Public.ChoosePassword "ABC123"
       (Some "Passwords do not match or too short (8 chars).")).
Proof. vm_compute. reflexivity. Qed.

(** RomM's reconciliation on one unknown remote user: a row is added
    with the id as token and the placeholder code. *)
Example romm_list_users_adds :
  option_map
    (Http.result_rect _ (fun _ => list (string * string))
       (fun r => map (fun u => (User.token u, User.code u)) (snd r)) [])
    (Romm.list_users 2 (Romm.paged [Samples.dave]) (Some 3) Samples.db0)
  = Some [("5", "romm")].
Proof. vm_compute. reflexivity. Qed.

(** [join] on the sample RomM invitation when the commit is refused:
    both requests of the creation are sent, nothing is stored. *)
Example romm_join_commit_refused :
  let r := Romm.join Samples.env_commit_fails (Some 3) Samples.client_world
             "alice" "password123" "password123" "alice@example.com"
             "ROMM42" in
  snd r = (false, "An unexpected error occurred.")
  /\ List.length (Client.requests (fst r)) = 2%nat
  /\ Model.users (Model.committed (Client.session (fst r))) = []
  /\ Client.errors (fst r) = ["ROMM join error"].
Proof. vm_compute. repeat split; reflexivity. Qed.

(** Deleting server 2 from the sample database. *)
Example delete_server_sample :
  let r := Servers.delete_server Servers.decimal_id_matches (Some "2")
                                 Samples.db_marked in
  snd r = 204
  /\ map User.id (Model.users (fst r)) = [1]
  /\ map MediaServer.id (Model.media_servers (fst r)) = [1; 3].
Proof. vm_compute. repeat split; reflexivity. Qed.

Example delete_server_not_a_number :
  Servers.delete_server Servers.decimal_id_matches (Some "abc")
                        Samples.db_marked
  = (Samples.db_marked, 500).
Proof. reflexivity. Qed.

(* ===================================================================== *)
(** * Properties of the legacy /join handler                              *)
(* ===================================================================== *)

Section LegacyConnect.
Import Legacy.

Variable now : Z.
Variable tbl : list Invitations.t.
Variable code : string.

Lemma code_exists_known : code_exists tbl code = true <-> known tbl code.
Proof.
  unfold code_exists, known. rewrite existsb_exists.
  split; intros [i [Hin H]]; exists i; split; auto.
  - now apply String.eqb_eq.
  - now apply String.eqb_eq.
Qed.

Lemma used_exists_spent : used_exists tbl code = true <-> spent tbl code.
Proof.
  unfold used_exists, spent. rewrite existsb_exists.
  split.
  - intros [i [Hin H]]. exists i.
    apply andb_prop in H as [H Hu]. apply andb_prop in H as [Hc Hs].
    apply String.eqb_eq in Hc. apply Bool.eqb_prop in Hs, Hu. auto.
  - intros [i (Hin & Hc & Hs & Hu)]. exists i. split; auto.
    rewrite Hc, Hs, Hu, String.eqb_refl. reflexivity.
Qed.

Lemma expired_exists_lapsed :
  expired_exists now tbl code = true <-> lapsed now tbl code.
Proof.
  unfold expired_exists, lapsed. rewrite existsb_exists.
  split.
  - intros [i [Hin H]]. apply andb_prop in H as [Hc He].
    apply String.eqb_eq in Hc.
    destruct (Invitations.expires i) as [e|] eqn:E; [|discriminate].
    exists i, e. apply Z.leb_le in He. auto.
  - intros [i [e (Hin & Hc & He & Hle)]]. exists i. split; auto.
    rewrite Hc, He, String.eqb_refl. simpl. now apply Z.leb_le.
Qed.

Lemma lapsed_known : lapsed now tbl code -> known tbl code.
Proof. intros [i [e (Hin & Hc & _)]]. exists i. auto. Qed.

End LegacyConnect.

(** C7 (as the code has it).  [connect] checks, in this order and
    stopping at the first failure: the code exists, else "does not
    exist"; no single-use row of the code is used, else "already been
    used"; no row of the code is expired, else "has expired".  So for an
    expired invitation the answer is never the OAuth redirect: it is
    "already been used" when the code is single-use and used, and "has
    expired" otherwise. *)
Theorem connect_checks_in_source_order :
  forall (now : Z) (tbl : list Legacy.Invitations.t) (code : string),
    (~ known tbl code ->
     Legacy.connect now tbl code
     = Legacy.LoginPage "That invite code does not exist.")
    /\ (known tbl code -> spent tbl code ->
        Legacy.connect now tbl code
        = Legacy.LoginPage "That invite code has already been used.")
    /\ (known tbl code -> ~ spent tbl code -> lapsed now tbl code ->
        Legacy.connect now tbl code
        = Legacy.LoginPage "That invite code has expired.")
    /\ (known tbl code -> ~ spent tbl code -> ~ lapsed now tbl code ->
        Legacy.connect now tbl code = Legacy.OAuthRedirect)
    /\ (lapsed now tbl code ->
        (spent tbl code /\
         Legacy.connect now tbl code
         = Legacy.LoginPage "That invite code has already been used.")
        \/ (~ spent tbl code /\
            Legacy.connect now tbl code
            = Legacy.LoginPage "That invite code has expired.")).
Proof.
  intros now tbl code. unfold Legacy.connect.
  pose proof (code_exists_known tbl code) as Hk.
  pose proof (used_exists_spent tbl code) as Hs.
  pose proof (expired_exists_lapsed now tbl code) as Hl.
  pose proof (lapsed_known now tbl code) as Hlk.
  destruct (Legacy.code_exists tbl code) eqn:Ek;
    destruct (Legacy.used_exists tbl code) eqn:Es;
    destruct (Legacy.expired_exists now tbl code) eqn:El; simpl;
    repeat split; intros;
    try reflexivity;
    try (exfalso; intuition congruence);
    try (left; split; [intuition congruence | reflexivity]);
    try (right; split; [intuition congruence | reflexivity]).
Qed.

Lemma connect_checks_in_source_order_witness :
  Legacy.connect 20 [Samples.spent_and_lapsed] "ABC123"
  = Legacy.LoginPage "That invite code has already been used.".
Proof.
  apply (connect_checks_in_source_order 20 [Samples.spent_and_lapsed]
                                        "ABC123").
  - exists Samples.spent_and_lapsed. simpl. auto.
  - exists Samples.spent_and_lapsed. simpl. auto.
Defined.

(** C7 (as stated) fails: an invitation that is expired and, being
    single-use, already used is answered with "already been used", not
    with "has expired". *)
Lemma connect_expired_not_always_reported :
  ~ (forall (now : Z) (tbl : list Legacy.Invitations.t)
            (i : Legacy.Invitations.t) (e : Z),
        In i tbl -> Legacy.Invitations.expires i = Some e -> e <= now ->
        Legacy.connect now tbl (Legacy.Invitations.code i)
        = Legacy.LoginPage "That invite code has expired.").
Proof.
  intros H.
  specialize (H 20 [Samples.spent_and_lapsed] Samples.spent_and_lapsed 10).
  simpl in H.
  assert (E : Legacy.LoginPage "That invite code has already been used."
              = Legacy.LoginPage "That invite code has expired.").
  { apply H; [auto | reflexivity | lia]. }
  discriminate E.
Qed.

(* ===================================================================== *)
(** * Invitation lookup                                                   *)
(* ===================================================================== *)

Section Lookup.
Import Model.

Lemma find_unique {A : Type} (p : A -> bool) (l : list A) (a : A) :
  In a l -> p a = true ->
  (forall b, In b l -> p b = true -> b = a) ->
  find p l = Some a.
Proof.
  induction l as [|x l IH]; simpl; intros Hin Hp Huniq.
  - contradiction.
  - destruct (p x) eqn:Ex.
    + f_equal. apply Huniq; auto.
    + destruct Hin as [->|Hin]; [congruence|].
      apply IH; auto.
Qed.

Lemma invitation_by_code_ci_found (d : DB) (inv : Invitation.t)
      (code : string) :
  alone_up_to_case d inv -> In inv (invitations d) ->
  Py.lower code = Py.lower (Invitation.code inv) ->
  invitation_by_code_ci d code = Some inv.
Proof.
  intros Huniq Hin Hcase. unfold invitation_by_code_ci.
  apply find_unique; auto.
  - apply String.eqb_eq. auto.
  - intros b Hb Hpb. apply String.eqb_eq in Hpb.
    apply Huniq; auto. congruence.
Qed.

Lemma connect_unknown (now : Z) (tbl : list Legacy.Invitations.t)
      (code : string) :
  (forall i, In i tbl -> Legacy.Invitations.code i <> code) ->
  Legacy.connect now tbl code
  = Legacy.LoginPage "That invite code does not exist.".
Proof.
  intros Hnone. unfold Legacy.connect.
  assert (H : Legacy.code_exists tbl code = false).
  { unfold Legacy.code_exists. induction tbl as [|i tbl IH]; [reflexivity|].
    simpl. rewrite IH by (intros j Hj; apply Hnone; simpl; auto).
    destruct (String.eqb_spec (Legacy.Invitations.code i) code) as [E|_];
      [|reflexivity].
    exfalso. apply (Hnone i); simpl; auto. }
  now rewrite H.
Qed.

End Lookup.

(** C9 (as the code has it).  The routes of the public blueprint look
    the invitation up with both sides lower-cased.  Take a stored
    invitation whose code no other stored invitation shares up to letter
    case, and a code that differs from its code only in letter case.
    The query the routes issue yields that invitation.  The invite
    landing page then answers by the validity of the code and the
    landing server of that invitation; the join submission by the
    validity, that landing server and, after the Plex OAuth step, the
    servers attached to that invitation; the password prompt serves its
    form on GET and, on an acceptable POST, provisions the servers
    attached to that invitation.  The legacy /join handler compares the
    code exactly: a code that no row carries letter for letter does not
    exist for it. *)
Theorem public_lookup_ignores_case :
  forall (env : Public.Env) (form : Public.Form) (now : Z)
         (token : option string) (w : Public.World)
         (inv : Invitation.t) (code : string),
    alone_up_to_case (Public.db w) inv ->
    In inv (Model.invitations (Public.db w)) ->
    Py.lower code = Py.lower (Invitation.code inv) ->
    let d := Public.db w in
    let valid := Invites.is_invite_valid now d code in
    let landing := option_map MediaServer.server_type
                              (Public.landing_server d inv) in
    Model.invitation_by_code_ci d code = Some inv
    /\ Public.invite now d code
       = (if negb (fst valid) then Public.InvalidInvite (snd valid)
          else match landing with
               | Some st =>
                   if Public.is_password_signup st
                   then Public.WelcomeJellyfin code (Some st)
                   else Public.PlexLogin code None
               | None => Public.PlexLogin code None
               end)
    /\ Public.join env now d code token
       = (if negb (fst valid) then (d, Public.PlexLogin code (Some (snd valid)))
          else match landing with
               | Some st =>
                   if String.eqb st "plex" then
                     let d' := Public.handle_oauth_token env token code d in
                     match filter
                             (fun s => negb (String.eqb
                                               (MediaServer.server_type s)
                                               "plex"))
                             (Model.servers d' inv) with
                     | _ :: _ =>
                         (d', Public.RedirectPasswordPrompt code token)
                     | [] => (d', Public.RedirectWizard code)
                     end
                   else if Public.is_password_signup st
                        then (d, Public.WelcomeJellyfin code (Some st))
                        else (d, Public.InvalidInvite "Configuration error.")
               | None => (d, Public.InvalidInvite "Configuration error.")
               end)
    /\ Public.password_prompt env Public.GET form code w
       = (w, Public.ChoosePassword code None)
    /\ (acceptable form ->
        Public.password_prompt env Public.POST form code w
        = (Public.finish
             (Public.provision_all env inv code (chosen_password env form)
                (Public.find_plex_user d inv code) (Model.servers d inv)
                (Public.serve w)),
           Public.RedirectWizard code))
    /\ (forall tbl,
          (forall i, In i tbl -> Legacy.Invitations.code i <> code) ->
          Legacy.connect now tbl code
          = Legacy.LoginPage "That invite code does not exist.").
Proof.
  intros env form now token w inv code Huniq Hin Hcase d valid landing.
  subst d valid landing.
  pose proof (invitation_by_code_ci_found _ _ _ Huniq Hin Hcase) as Hfound.
  split; [exact Hfound|]. split; [|split; [|split; [|split]]].
  - unfold Public.invite. rewrite Hfound.
    destruct (Invites.is_invite_valid now (Public.db w) code) as [[|] msg];
      reflexivity.
  - unfold Public.join. rewrite Hfound.
    destruct (Invites.is_invite_valid now (Public.db w) code) as [[|] msg];
      reflexivity.
  - unfold Public.password_prompt. rewrite Hfound. reflexivity.
  - intros [Hsame Hlen]. unfold Public.password_prompt. rewrite Hfound.
    rewrite Hsame, String.eqb_refl. simpl. rewrite <- Hsame.
    destruct (Py.len (Public.or_empty (Public.form_password form)) <? 8)
      eqn:E.
    + apply Z.ltb_lt in E. lia.
    + reflexivity.
  - intros tbl. apply connect_unknown.
Qed.

(** C9 (as stated) fails in two ways.  The legacy /join handler
    compares the code exactly: a stored "ABC123" is not found under
    "abc123".  And the public routes take the first row that matches up
    to case: when "ABC123" and "abc123" are both stored, the code
    "ABC123", which differs from the stored "abc123" only in case, does
    not resolve to that invitation but to the other one. *)
Lemma code_lookup_does_not_always_ignore_case :
  ~ (forall (now : Z) (tbl : list Legacy.Invitations.t)
            (i : Legacy.Invitations.t) (code : string),
        In i tbl -> Py.lower code = Py.lower (Legacy.Invitations.code i) ->
        Legacy.connect now tbl code
        = Legacy.connect now tbl (Legacy.Invitations.code i))
  /\ ~ (forall (d : Model.DB) (inv : Invitation.t) (code : string),
          In inv (Model.invitations d) ->
          Py.lower code = Py.lower (Invitation.code inv) ->
          Model.invitation_by_code_ci d code = Some inv).
Proof.
  split.
  - intros H.
    specialize (H 0 [Samples.fresh_legacy] Samples.fresh_legacy "abc123").
    assert (E : Legacy.connect 0 [Samples.fresh_legacy] "abc123"
                = Legacy.connect 0 [Samples.fresh_legacy] "ABC123").
    { apply H; [simpl; auto | reflexivity]. }
    vm_compute in E. discriminate E.
  - intros H.
    specialize (H (Model.mkDB [] [Samples.invitation; Samples.lower_twin]
                              [Samples.plex] [])
                  Samples.lower_twin "ABC123").
    assert (E : Some Samples.invitation = Some Samples.lower_twin).
    { rewrite <- H; [reflexivity | simpl; auto | reflexivity]. }
    discriminate E.
Qed.

(* ===================================================================== *)
(** * Deleting a media server                                             *)
(* ===================================================================== *)

Section DeleteServer.
Import Model.

Lemma int_truthy (s : string) (n : Z) : Py.int s = Some n -> Py.truthy s = true.
Proof. destruct s; [discriminate | reflexivity]. Qed.

Lemma delete_server_with_id (id_matches : Z -> string -> bool)
      (s : string) (n : Z) (d : DB) :
  Py.int s = Some n ->
  Servers.delete_server id_matches (Some s) d
  = (mkDB (filter (fun u => negb (opt_Z_eqb (User.server_id u) (Some n)))
                  (users d))
          (invitations d)
          (filter (fun m => negb (id_matches (MediaServer.id m) s))
                  (media_servers d))
          (library_rows d),
     204).
Proof.
  intros Hint. unfold Servers.delete_server.
  rewrite (int_truthy _ _ Hint), Hint. reflexivity.
Qed.

Lemma opt_Z_eqb_eq (a b : option Z) : opt_Z_eqb a b = true <-> a = b.
Proof.
  destruct a as [x|], b as [y|]; simpl; split; intros H;
    try discriminate; try reflexivity.
  - apply Z.eqb_eq in H. now subst.
  - inversion H. apply Z.eqb_refl.
Qed.

End DeleteServer.

(** C10.  With a server id [n] supplied, [delete_server] commits one
    state in which exactly the User rows whose [server_id] is [n] are
    gone, the rows of other servers are all still there in their order,
    the Invitation rows are unchanged, and the MediaServer rows the
    database matches with the argument are gone; the status is 204, as
    it is when no id (or an empty one) is supplied, in which case nothing
    changes. *)
Theorem delete_server_deletes_its_users :
  forall (id_matches : Z -> string -> bool) (d : Model.DB)
         (s : string) (n : Z),
    Py.int s = Some n ->
    Servers.delete_server id_matches None d = (d, 204)
    /\ Servers.delete_server id_matches (Some "") d = (d, 204)
    /\ snd (Servers.delete_server id_matches (Some s) d) = 204
    /\ let d' := fst (Servers.delete_server id_matches (Some s) d) in
       (forall u, In u (Model.users d') <->
                  In u (Model.users d) /\ User.server_id u <> Some n)
       /\ Model.users d'
          = filter (fun u => negb (Model.opt_Z_eqb (User.server_id u) (Some n)))
                   (Model.users d)
       /\ Model.invitations d' = Model.invitations d
       /\ (forall m, In m (Model.media_servers d') <->
                     In m (Model.media_servers d)
                     /\ id_matches (MediaServer.id m) s = false).
Proof.
  intros id_matches d s n Hint.
  split; [reflexivity|]. split; [reflexivity|].
  rewrite (delete_server_with_id id_matches s n d Hint). simpl.
  split; [reflexivity|].
  split; [|split; [reflexivity | split; [reflexivity|]]].
  - intros u. rewrite filter_In.
    split; intros [Hin H]; split; auto.
    + intros E. apply opt_Z_eqb_eq in E. rewrite E in H. discriminate.
    + destruct (Model.opt_Z_eqb (User.server_id u) (Some n)) eqn:E; auto.
      apply opt_Z_eqb_eq in E. contradiction.
  - intros m. rewrite filter_In.
    split; intros [Hin H]; split; auto.
    + now apply negb_true_iff.
    + now apply negb_true_iff.
Qed.

(* ===================================================================== *)
(** * RommClient.create_user                                              *)
(* ===================================================================== *)

Section RommCreateUser.
Import Http.

Lemma status_422 (o : outcome) :
  status_of o = Some 422 ->
  exists r, Romm.post_result o = Ok (Some r) /\ Romm.is_422 (Some r) = true.
Proof.
  destruct o as [r|[r|]|]; simpl; intros H; try discriminate;
    exists r; inversion H; split; try reflexivity; apply Z.eqb_refl.
Qed.

Lemma extract_id_top (fields : list (string * json)) (uid : json) :
  lookup "id" fields = Some uid -> truthy uid = true ->
  Romm.extract_id (JObj fields) = Ok uid.
Proof. intros Hl Ht. unfold Romm.extract_id. now rewrite Hl, Ht. Qed.

Lemma create_user_at_most_two (v : vendor) (sent : list Request)
      (username password : string) (email : option string) :
  exists extra,
    fst (Romm.create_user v sent username password email) = sent ++ extra
    /\ (List.length extra <= 2)%nat.
Proof.
  unfold Romm.create_user.
  destruct (Romm.post_result (v sent _)) as [r|].
  - destruct (Romm.is_422 r).
    + destruct (Romm.post_result (v _ _)); simpl;
        eexists; rewrite <- app_assoc; split; try reflexivity; simpl; lia.
    + simpl. eexists. split; [reflexivity | simpl; lia].
  - simpl. eexists. split; [reflexivity | simpl; lia].
Qed.

End RommCreateUser.

(** C8.  When the first attempt of [create_user] (the payload as query
    parameters) ends with status 422, one more request is sent and no
    other: a JSON body that is the payload with [passwordConfirm] set to
    the password; when it ends in any other way, no second request is
    sent.  With or without the retry, a call sends at most two requests.
    What is returned is read from the last response, the second after a
    422 and the first otherwise: it is the value under "id" (or under
    "user"."id") of its body, and when the last attempt raises something
    other than an HTTP error, so does the call. *)
Theorem create_user_retries_once_on_422 :
  forall (v : Http.vendor) (sent : list Http.Request)
         (username password : string) (email : option string),
    let first := Http.PostParams "/api/users"
                   (Romm.payload username password email) in
    let second := Http.PostJson "/api/users"
                    (Romm.payload username password email
                     ++ [("passwordConfirm", Http.JStr password)]) in
    (exists extra,
        fst (Romm.create_user v sent username password email)
        = sent ++ extra /\ (List.length extra <= 2)%nat)
    /\ (status_of (v sent first) = Some 422 ->
        fst (Romm.create_user v sent username password email)
        = sent ++ [first; second]
        /\ snd (Romm.create_user v sent username password email)
           = match Romm.post_result (v (sent ++ [first]) second) with
             | Http.Ok r => Romm.extract_id (Romm.data_of r)
             | Http.Raised => Http.Raised
             end
        /\ (forall r fields uid,
               Romm.post_result (v (sent ++ [first]) second)
               = Http.Ok (Some r) ->
               Http.body r = Some (Http.JObj fields) ->
               Http.lookup "id" fields = Some uid ->
               Http.truthy uid = true ->
               snd (Romm.create_user v sent username password email)
               = Http.Ok uid))
    /\ (status_of (v sent first) <> Some 422 ->
        fst (Romm.create_user v sent username password email)
        = sent ++ [first]
        /\ snd (Romm.create_user v sent username password email)
           = match Romm.post_result (v sent first) with
             | Http.Ok r => Romm.extract_id (Romm.data_of r)
             | Http.Raised => Http.Raised
             end
        /\ (forall r fields uid,
               Romm.post_result (v sent first) = Http.Ok (Some r) ->
               Http.body r = Some (Http.JObj fields) ->
               Http.lookup "id" fields = Some uid ->
               Http.truthy uid = true ->
               snd (Romm.create_user v sent username password email)
               = Http.Ok uid)).
Proof.
  intros v sent username password email first second.
  split; [apply create_user_at_most_two|]. split.
  - intros H422.
    assert (Hrun :
      Romm.create_user v sent username password email
      = (sent ++ [first; second],
         match Romm.post_result (v (sent ++ [first]) second) with
         | Http.Ok r => Romm.extract_id (Romm.data_of r)
         | Http.Raised => Http.Raised
         end)).
    { unfold Romm.create_user.
      change (Http.PostParams Romm.users_path
                (Romm.payload username password email)) with first.
      change (Http.PostJson Romm.users_path
                (Romm.alt_payload username password email)) with second.
      destruct (status_422 _ H422) as [r [Hr H4]].
      rewrite Hr, H4.
      replace ((sent ++ [first]) ++ [second]) with (sent ++ [first; second])
        by (rewrite <- app_assoc; reflexivity).
      destruct (Romm.post_result (v (sent ++ [first]) second)); reflexivity. }
    split; [rewrite Hrun; reflexivity|].
    split; [rewrite Hrun; reflexivity|].
    intros r fields uid Hpost Hbody Hid Htruthy.
    rewrite Hrun. simpl. rewrite Hpost. unfold Romm.data_of. rewrite Hbody.
    now apply extract_id_top.
  - intros Hnot.
    assert (Hrun :
      Romm.create_user v sent username password email
      = (sent ++ [first],
         match Romm.post_result (v sent first) with
         | Http.Ok r => Romm.extract_id (Romm.data_of r)
         | Http.Raised => Http.Raised
         end)).
    { unfold Romm.create_user.
      change (Http.PostParams Romm.users_path
                (Romm.payload username password email)) with first.
      destruct (v sent first) as [r|[r|]|] eqn:Ev; simpl in Hnot |- *;
        try reflexivity.
      - destruct (Z.eqb_spec (Http.status_code r) 422) as [E|_];
          [rewrite E in Hnot; contradiction | reflexivity].
      - destruct (Z.eqb_spec (Http.status_code r) 422) as [E|_];
          [rewrite E in Hnot; contradiction | reflexivity]. }
    split; [rewrite Hrun; reflexivity|].
    split; [rewrite Hrun; reflexivity|].
    intros r fields uid Hpost Hbody Hid Htruthy.
    rewrite Hrun. simpl. rewrite Hpost. unfold Romm.data_of. rewrite Hbody.
    now apply extract_id_top.
Qed.

(* ===================================================================== *)
(** * join: the order of the checks                                       *)
(* ===================================================================== *)

Section JoinChecks.
Import Model Http Client.

Variable env : Env.
Variable self_server_id : option Z.
Variable w : World.
Variables username password confirm email code : string.

Lemma existing_user_collision :
  (exists u, existing_user (working (session w)) self_server_id
                           username email = Some u)
  <-> collision self_server_id w username email.
Proof.
  unfold existing_user, collision. split.
  - intros [u Hf]. apply find_some in Hf as [Hin Hp]. exists u.
    apply andb_prop in Hp as [Hue Hs]. apply opt_Z_eqb_eq in Hs.
    split; [exact Hin | split; [|exact Hs]].
    apply orb_prop in Hue as [Hu|He].
    + left. now apply String.eqb_eq.
    + right. destruct (User.email u) as [e|]; [|discriminate].
      apply String.eqb_eq in He. now subst.
  - intros [u (Hin & Hue & Hs)].
    destruct (find _ (users (working (session w)))) as [x|] eqn:Ef.
    + now exists x.
    + exfalso. apply (find_none _ _ Ef) in Hin.
      assert (Hs' : opt_Z_eqb (User.server_id u) self_server_id = true)
        by now apply opt_Z_eqb_eq.
      rewrite Hs', andb_true_r in Hin.
      destruct Hue as [Hu|He].
      * rewrite Hu, String.eqb_refl in Hin. discriminate.
      * rewrite He, String.eqb_refl, orb_true_r in Hin. discriminate.
Qed.

Lemma length_ok_bool :
  (8 <=? Py.len password) && (Py.len password <=? 20) = true
  <-> length_ok password.
Proof.
  unfold length_ok. rewrite andb_true_iff, !Z.leb_le. tauto.
Qed.

(** The checks as a decision list. *)
Lemma prechecks_order :
  let r := prechecks env (working (session w)) self_server_id
                     username password confirm email code in
  (~ email_ok email -> r = Some "Invalid e-mail address.")
  /\ (email_ok email -> ~ length_ok password ->
      r = Some "Password must be 8–20 characters.")
  /\ (email_ok email -> length_ok password ->
      ~ confirm_ok password confirm ->
      r = Some "Passwords do not match.")
  /\ (email_ok email -> length_ok password -> confirm_ok password confirm ->
      ~ invite_ok env w code ->
      r = Some (snd (Invites.is_invite_valid
                       (now env) (working (session w)) code)))
  /\ (email_ok email -> length_ok password -> confirm_ok password confirm ->
      invite_ok env w code ->
      collision self_server_id w username email ->
      r = Some "User or e-mail already exists.")
  /\ (email_ok email -> length_ok password -> confirm_ok password confirm ->
      invite_ok env w code ->
      ~ collision self_server_id w username email ->
      r = None).
Proof.
  unfold prechecks, email_ok, confirm_ok, invite_ok.
  pose proof length_ok_bool as Hlen.
  pose proof existing_user_collision as Hcol.
  destruct (Py.fullmatch EMAIL_RE email);
    destruct ((8 <=? Py.len password) && (Py.len password <=? 20));
    destruct (String.eqb_spec password confirm);
    destruct (Invites.is_invite_valid (now env) (working (session w)) code)
      as [[|] msg];
    destruct (existing_user (working (session w)) self_server_id
                            username email) as [u|];
    simpl; repeat split; intros;
    try reflexivity;
    try (exfalso; intuition congruence);
    try (exfalso;
         match goal with H : ~ collision _ _ _ _ |- _ => apply H end;
         apply Hcol; eexists; reflexivity);
    try (exfalso;
         match goal with
         | H : collision _ _ _ _ |- _ => apply Hcol in H as [? ?]
         end;
         discriminate).
Qed.

End JoinChecks.

Section JoinRequests.
Import Model Http Client.

Lemma guarded_requests (label : string) (r : World * bool) :
  requests (fst (guarded label r)) = requests (fst r).
Proof. destruct r as [w' [|]]; reflexivity. Qed.

Lemma set_library_access_extends (v : vendor) (user_id : json)
      (library_ids : list string) :
  forall sent, exists puts,
    Komga._set_library_access v sent user_id library_ids = sent ++ puts.
Proof.
  induction library_ids as [|l ls IH]; intros sent; simpl.
  - exists []. now rewrite app_nil_r.
  - destruct (v sent _).
    + destruct (IH (sent ++ [PutSharedLibrary user_id l])) as [puts Hp].
      exists (PutSharedLibrary user_id l :: puts).
      rewrite Hp, <- app_assoc. reflexivity.
    + eexists. reflexivity.
    + eexists. reflexivity.
Qed.

Lemma romm_create_user_first (v : vendor) (sent : list Request)
      (username password : string) (email : option string) :
  exists rest,
    fst (Romm.create_user v sent username password email)
    = sent ++ PostParams "/api/users" (Romm.payload username password email)
              :: rest.
Proof.
  unfold Romm.create_user.
  destruct (Romm.post_result (v sent _)) as [r|].
  - destruct (Romm.is_422 r).
    + destruct (Romm.post_result (v _ _)); simpl;
        eexists; rewrite <- app_assoc; reflexivity.
    + simpl. eexists. reflexivity.
  - simpl. eexists. reflexivity.
Qed.

Lemma romm_join_body_requests (env : Env) (w : World)
      (username password email code : string) :
  requests (fst (Romm.join_body env w username password email code))
  = fst (Romm.create_user (http env) (requests w)
                          username password (Some email)).
Proof.
  unfold Romm.join_body.
  destruct (Romm.create_user _ _ _ _ _) as [sent [user_id|]]; simpl;
    [|reflexivity].
  destruct (expiry env _) as [expires|]; [|reflexivity].
  destruct (add_and_commit env _ _ _) as [s [new_user|]]; [|reflexivity].
  destruct (invitation_by_code _ _) as [i|]; [|reflexivity].
  destruct (mark_used env s i new_user) as [s' [|]]; reflexivity.
Qed.

Lemma komga_join_body_requests (env : Env) (w : World)
      (username password email code : string) :
  exists rest,
    requests (fst (Komga.join_body env w username password email code))
    = requests w
      ++ PostJson "/api/v1/users" (Komga.payload email password) :: rest.
Proof.
  unfold Komga.join_body, Komga.create_user.
  destruct (match http env (requests w) _ with
            | Returned r => Komga.id_of r
            | _ => Raised
            end) as [user_id|]; simpl; [|exists []; reflexivity].
  destruct (invitation_by_code _ _) as [inv|]; [|exists []; reflexivity].
  destruct (set_library_access_extends (http env) user_id
              (Komga.granted_libraries (working (session w)) inv)
              (requests w
               ++ [PostJson "/api/v1/users" (Komga.payload email password)]))
    as [puts Hputs].
  exists puts.
  assert (Happ : forall rs,
             rs = (requests w
                   ++ [PostJson "/api/v1/users"
                                (Komga.payload email password)]) ++ puts ->
             rs = requests w
                  ++ PostJson "/api/v1/users" (Komga.payload email password)
                     :: puts).
  { intros rs ->. rewrite <- app_assoc. reflexivity. }
  destruct (expiry env _) as [expires|]; [|simpl; auto].
  destruct (add_and_commit env _ _ _) as [s [new_user|]]; [|simpl; auto].
  destruct (mark_used env s inv new_user) as [s' [|]]; simpl; auto.
Qed.

End JoinRequests.

(** C3.  In both clients [join] checks, in this order, the e-mail
    format, the password length (8 to 20), the confirmation, the
    invitation, and the collision with a User of the same server; the
    first check that fails decides the answer [(False, message)], and
    the world comes back untouched: no request was sent and the session
    holds what it held.  Only when all five pass is the vendor called,
    the creation request being the first one sent. *)
Theorem join_checks_in_order :
  forall (env : Client.Env) (self_server_id : option Z) (w : Client.World)
         (username password confirm email code : string),
    checks_in_order env self_server_id w username password confirm email code
      (Romm.join env self_server_id w username password confirm email code)
      (Http.PostParams "/api/users"
         (Romm.payload username password (Some email)))
    /\ checks_in_order env self_server_id w username password confirm
         email code
         (Komga.join env self_server_id w username password confirm
                     email code)
         (Http.PostJson "/api/v1/users" (Komga.payload email password)).
Proof.
  intros env sid w username password confirm email code.
  pose proof (prechecks_order env sid w username password confirm email code)
    as (H1 & H2 & H3 & H4 & H5 & H6).
  split; unfold checks_in_order, Romm.join, Komga.join;
    (split; [intros A; now rewrite (H1 A)|]);
    (split; [intros A B; now rewrite (H2 A B)|]);
    (split; [intros A B C; now rewrite (H3 A B C)|]);
    (split; [intros A B C D; now rewrite (H4 A B C D)|]);
    (split; [intros A B C D E; now rewrite (H5 A B C D E)|]);
    intros A B C D E; rewrite (H6 A B C D E), guarded_requests.
  - rewrite romm_join_body_requests. apply romm_create_user_first.
  - apply komga_join_body_requests.
Qed.

(* ===================================================================== *)
(** * join: failure after the remote creation                             *)
(* ===================================================================== *)

Section JoinFailure.
Import Model Http Client.

Lemma add_and_commit_failed (env : Env) (s s' : Session) (token : json)
      (row : Z -> string -> User.t) :
  add_and_commit env s token row = (s', None) -> committed s' = committed s.
Proof.
  unfold add_and_commit. destruct (db_text token) as [tok|].
  - destruct (commit_ok env _ _); intros H; inversion H. reflexivity.
  - intros H. now inversion H.
Qed.

Lemma add_and_commit_done (env : Env) (s s' : Session) (token : json)
      (row : Z -> string -> User.t) (new_user : User.t) :
  add_and_commit env s token row = (s', Some new_user) ->
  commit_ok env (users (working s)) new_user = true
  /\ s' = commit (add_user s new_user).
Proof.
  unfold add_and_commit. destruct (db_text token) as [tok|].
  - destruct (commit_ok env _ _) eqn:E; intros H; inversion H; subst.
    split; [exact E | reflexivity].
  - intros H. inversion H.
Qed.

Lemma mark_used_failed (env : Env) (s s' : Session) (inv : Invitation.t)
      (new_user : User.t) :
  mark_used env s inv new_user = (s', false) ->
  committed s' = committed s
  /\ exists inv' sid tbl, mark_server_used env inv' sid tbl = None.
Proof.
  unfold mark_used. destruct (mark_server_used env _ _ _) eqn:E.
  - intros H. inversion H.
  - intros H. inversion H. split; [reflexivity|]. eauto.
Qed.

(** When the ledger helper never raises, a failed [join] commits
    nothing. *)
Lemma nothing_committed_unless_helper_raises (env : Env)
      (before after : Session) :
  (forall inv sid tbl, mark_server_used env inv sid tbl <> None) ->
  committed_after_failure env before after ->
  committed after = committed before.
Proof.
  intros Hnever [H | (u & inv & sid & tbl & _ & Hmark & _)]; [exact H|].
  exfalso. exact (Hnever inv sid tbl Hmark).
Qed.

Lemma guarded_failure (label : string) (w : World) :
  guarded label (w, false)
  = (with_session (log_error w label) (rollback (session w)),
     (false, "An unexpected error occurred.")).
Proof. reflexivity. Qed.

Lemma romm_join_body_failure (env : Env) (w w' : World)
      (username password email code : string) :
  Romm.join_body env w username password email code = (w', false) ->
  committed_after_failure env (session w) (session w').
Proof.
  unfold Romm.join_body, committed_after_failure.
  destruct (Romm.create_user _ _ _ _ _) as [sent [user_id|]]; simpl;
    [|intros H; inversion H; now left].
  destruct (expiry env _) as [expires|]; [|intros H; inversion H; now left].
  destruct (add_and_commit env _ _ _) as [s [new_user|]] eqn:Eadd.
  - apply add_and_commit_done in Eadd as [Hok ->].
    destruct (invitation_by_code _ _) as [i|]; [|intros H; inversion H].
    destruct (mark_used env _ i new_user) as [s' [|]] eqn:Emark;
      intros H; inversion H; subst; simpl.
    apply mark_used_failed in Emark as [Hc (inv' & sid & tbl & Hmark)].
    right. exists new_user, inv', sid, tbl.
    split; [exact Hok|]. split; [exact Hmark|]. now rewrite Hc.
  - intros H; inversion H; subst; simpl. left.
    now apply add_and_commit_failed in Eadd.
Qed.

Lemma set_library_access_puts (v : vendor) (user_id : json)
      (library_ids : list string) :
  forall sent, exists puts,
    Komga._set_library_access v sent user_id library_ids = sent ++ puts
    /\ Forall is_put puts.
Proof.
  induction library_ids as [|l ls IH]; intros sent; simpl.
  - exists []. split; [now rewrite app_nil_r | constructor].
  - destruct (v sent _).
    + destruct (IH (sent ++ [PutSharedLibrary user_id l]))
        as [puts [Hp Hall]].
      exists (PutSharedLibrary user_id l :: puts).
      rewrite Hp, <- app_assoc. split; [reflexivity|].
      constructor; [exact I | exact Hall].
    + eexists. split; [reflexivity|]. repeat constructor.
    + eexists. split; [reflexivity|]. repeat constructor.
Qed.

Lemma komga_join_body_failure (env : Env) (w w' : World)
      (username password email code : string) :
  Komga.join_body env w username password email code = (w', false) ->
  committed_after_failure env (session w) (session w')
  /\ exists puts,
      requests w'
      = fst (Komga.create_user (http env) (requests w)
                               username password email) ++ puts
      /\ Forall is_put puts.
Proof.
  unfold Komga.join_body, committed_after_failure, Komga.create_user.
  simpl.
  destruct (match http env (requests w) _ with
            | Returned r => Komga.id_of r
            | _ => Raised
            end) as [user_id|]; simpl.
  2:{ intros H; inversion H; simpl. split; [now left|].
      exists []. split; [now rewrite app_nil_r | constructor]. }
  destruct (invitation_by_code _ _) as [inv|].
  2:{ intros H; inversion H; simpl. split; [now left|].
      exists []. split; [now rewrite app_nil_r | constructor]. }
  destruct (set_library_access_puts (http env) user_id
              (Komga.granted_libraries (working (session w)) inv)
              (requests w
               ++ [PostJson "/api/v1/users" (Komga.payload email password)]))
    as [puts [Hputs Hall]].
  destruct (expiry env _) as [expires|].
  2:{ intros H; inversion H; simpl. split; [now left|]. now exists puts. }
  destruct (add_and_commit env _ _ _) as [s [new_user|]] eqn:Eadd.
  - simpl in Eadd. apply add_and_commit_done in Eadd as [Hok ->].
    destruct (mark_used env _ inv new_user) as [s' [|]] eqn:Emark;
      intros H; inversion H; subst; simpl.
    split; [|now exists puts].
    apply mark_used_failed in Emark as [Hc (inv' & sid & tbl & Hmark)].
    right. exists new_user, inv', sid, tbl.
    split; [exact Hok|]. split; [exact Hmark|]. now rewrite Hc.
  - simpl in Eadd. intros H; inversion H; subst; simpl.
    split; [|now exists puts]. left.
    now apply add_and_commit_failed in Eadd.
Qed.

End JoinFailure.

(** C4 (as the code has it).  In both clients, when the checks of
    [join] pass, the remote creation returns an id and a later step of
    the body raises, the handler rolls the session back, so that it
    holds nothing beyond what is committed, and [join] answers [(False,
    "An unexpected error occurred.")].  What is committed is what was
    committed before, unless the commit of the new User row had already
    gone through when the ledger helper raised: then that row, and
    nothing else, stays committed.  In particular nothing is committed
    when the ledger helper does not raise, and nothing when the commit
    itself is refused.  The vendor has received the requests of the one
    creation call (for Komga followed only by the library grants): the
    account is neither created again nor removed. *)
Theorem join_rolls_back_after_remote_creation :
  forall (env : Client.Env) (self_server_id : option Z) (w : Client.World)
         (username password confirm email code : string) (user_id : Http.json),
    Client.prechecks env (Model.working (Client.session w)) self_server_id
                     username password confirm email code = None ->
    (snd (Romm.create_user (Client.http env) (Client.requests w)
                           username password (Some email)) = Http.Ok user_id ->
     snd (Romm.join_body env w username password email code) = false ->
     let answer :=
       Romm.join env self_server_id w username password confirm email code in
     snd answer = (false, "An unexpected error occurred.")
     /\ Model.working (Client.session (fst answer))
        = Model.committed (Client.session (fst answer))
     /\ committed_after_failure env (Client.session w)
                                (Client.session (fst answer))
     /\ Client.requests (fst answer)
        = fst (Romm.create_user (Client.http env) (Client.requests w)
                                username password (Some email))
     /\ ((forall inv sid tbl,
             Client.mark_server_used env inv sid tbl <> None) ->
         Model.committed (Client.session (fst answer))
         = Model.committed (Client.session w))
     /\ ((forall us u, Client.commit_ok env us u = false) ->
         Model.committed (Client.session (fst answer))
         = Model.committed (Client.session w)))
    /\ (snd (Komga.create_user (Client.http env) (Client.requests w)
                               username password email) = Http.Ok user_id ->
        snd (Komga.join_body env w username password email code) = false ->
        let answer :=
          Komga.join env self_server_id w username password confirm
                     email code in
        snd answer = (false, "An unexpected error occurred.")
        /\ Model.working (Client.session (fst answer))
           = Model.committed (Client.session (fst answer))
        /\ committed_after_failure env (Client.session w)
                                   (Client.session (fst answer))
        /\ (exists puts,
               Client.requests (fst answer)
               = fst (Komga.create_user (Client.http env) (Client.requests w)
                                        username password email) ++ puts
               /\ Forall is_put puts)
        /\ ((forall inv sid tbl,
                Client.mark_server_used env inv sid tbl <> None) ->
            Model.committed (Client.session (fst answer))
            = Model.committed (Client.session w))
        /\ ((forall us u, Client.commit_ok env us u = false) ->
            Model.committed (Client.session (fst answer))
            = Model.committed (Client.session w))).
Proof.
  intros env sid w username password confirm email code user_id Hchecks.
  split; intros Hcreated Hraised answer; subst answer.
  - unfold Romm.join. rewrite Hchecks.
    pose proof (romm_join_body_requests env w username password email code)
      as Hreq.
    destruct (Romm.join_body env w username password email code)
      as [w' ok] eqn:Ebody.
    simpl in Hraised. subst ok. rewrite guarded_failure. simpl.
    apply romm_join_body_failure in Ebody.
    split; [reflexivity|]. split; [reflexivity|]. split; [exact Ebody|].
    split; [exact Hreq|]. split.
    + intros Hnever.
      exact (nothing_committed_unless_helper_raises env _ _ Hnever Ebody).
    + intros Hrefused.
      destruct Ebody as [H | (u & _ & _ & _ & Hok & _)]; [exact H|].
      rewrite Hrefused in Hok. discriminate.
  - unfold Komga.join. rewrite Hchecks.
    destruct (Komga.join_body env w username password email code)
      as [w' ok] eqn:Ebody.
    simpl in Hraised. subst ok. rewrite guarded_failure. simpl.
    apply komga_join_body_failure in Ebody as [Hc Hputs].
    split; [reflexivity|]. split; [reflexivity|]. split; [exact Hc|].
    split; [exact Hputs|]. split.
    + intros Hnever.
      exact (nothing_committed_unless_helper_raises env _ _ Hnever Hc).
    + intros Hrefused.
      destruct Hc as [H | (u & _ & _ & _ & Hok & _)]; [exact H|].
      rewrite Hrefused in Hok. discriminate.
Qed.

(** C4 (as stated) fails when the ledger helper raises: the checks
    pass, RomM returns the id 7, the commit of the new User row goes
    through, [mark_server_used] raises, [join] answers with the failure,
    and the row of alice is committed where no row was before. *)
Lemma failed_join_keeps_the_committed_row :
  let out := Romm.join Samples.env_ledger_raises (Some 3)
                       Samples.client_world "alice" "password123"
                       "password123" "alice@example.com" "ROMM42" in
  snd (Romm.create_user (Client.http Samples.env_ledger_raises)
                        (Client.requests Samples.client_world)
                        "alice" "password123" (Some "alice@example.com"))
  = Http.Ok (Http.JNum 7)
  /\ snd out = (false, "An unexpected error occurred.")
  /\ Model.users (Model.committed (Client.session Samples.client_world)) = []
  /\ Model.users (Model.committed (Client.session (fst out)))
     = [User.mk 1 "7" "alice" (Some "alice@example.com") "ROMM42" None
                (Some "password123") (Some 3)].
Proof. repeat split; reflexivity. Qed.

(* ===================================================================== *)
(** * The password-provisioning loop                                      *)
(* ===================================================================== *)

Section Provisioning.
Import Model Public.

Variable env : Env.
Variable inv : Invitation.t.
Variables code pw : string.
Variable plex_user : option User.t.

Local Abbreviation step := (provision env inv code pw plex_user).
Local Abbreviation loop := (provision_all env inv code pw plex_user).

Lemma call_for_provisioned (srv : MediaServer.t) (username p : string)
      (email : option string) :
  String.eqb (MediaServer.server_type srv) "plex" = false ->
  match call_for srv username p email with
  | Some c => provisioned_type srv = true /\ call_server c = srv
              /\ call_username c = username /\ call_password c = p
  | None => provisioned_type srv = false
  end.
Proof.
  intros _. unfold call_for, provisioned_type, is_password_signup. simpl.
  destruct (String.eqb (MediaServer.server_type srv) "jellyfin");
    destruct (String.eqb (MediaServer.server_type srv) "emby");
    destruct (String.eqb (MediaServer.server_type srv) "audiobookshelf");
    destruct (String.eqb (MediaServer.server_type srv) "romm");
    simpl; auto.
Qed.

Lemma plex_not_provisioned (srv : MediaServer.t) :
  String.eqb (MediaServer.server_type srv) "plex" = true ->
  provisioned_type srv = false.
Proof.
  intros H. apply String.eqb_eq in H.
  unfold provisioned_type. now rewrite H.
Qed.

(** One iteration: the calls. *)
Lemma step_sent (w : Serving) (srv : MediaServer.t) :
  if provisioned_type srv
  then exists c, sent (step w srv) = sent w ++ [c]
                 /\ call_server c = srv /\ loop_call pw plex_user c
  else step w srv = w.
Proof.
  unfold provision.
  destruct (String.eqb (MediaServer.server_type srv) "plex") eqn:Eplex.
  - now rewrite (plex_not_provisioned _ Eplex).
  - pose proof (call_for_provisioned srv (derived_username plex_user) pw
                  (derived_email plex_user) Eplex) as Hc.
    destruct (call_for srv _ pw _) as [c|].
    + destruct Hc as (Hp & Hs & Hu & Hpw). rewrite Hp.
      exists c. split.
      * destruct (create_user env (sent w) c); [|reflexivity].
        destruct (commit_ok env _ _); [|reflexivity].
        destruct (mark_server_used env _ _ _); reflexivity.
      * split; [exact Hs|]. unfold loop_call. rewrite Hs. auto.
    + now rewrite Hc.
Qed.

(** One iteration: the session and the log.  Either no row is stored,
    and the server name is logged if the server was tried, or one row is
    stored for the server. *)
Lemma step_session (w : Serving) (srv : MediaServer.t) :
  clean (session w) ->
  clean (session (step w srv))
  /\ ((users (committed (session (step w srv)))
       = users (committed (session w))
       /\ (provisioned_type srv = true ->
           logged (step w srv) = logged w ++ [MediaServer.name srv])
       /\ (provisioned_type srv = false -> logged (step w srv) = logged w))
      \/ (exists u,
             provisioned_type srv = true
             /\ stored_for env code plex_user srv u
             /\ users (committed (session (step w srv)))
                = users (committed (session w)) ++ [u]
             /\ exists l, logged (step w srv) = logged w ++ l)).
Proof.
  intros Hclean. unfold clean in *.
  destruct w as [[cm wk] snt lg]. simpl in Hclean. subst wk.
  unfold provision. cbv zeta.
  destruct (String.eqb (MediaServer.server_type srv) "plex") eqn:Eplex.
  - rewrite (plex_not_provisioned _ Eplex).
    split; [reflexivity|].
    left. repeat split; auto. discriminate.
  - pose proof (call_for_provisioned srv (derived_username plex_user) pw
                  (derived_email plex_user) Eplex) as Hc.
    destruct (call_for srv _ pw _) as [c|].
    + destruct Hc as (Hp & Hs & Hu & Hpw). simpl.
      destruct (create_user env snt c) as [uid|] eqn:Ecreate.
      * destruct (commit_ok env _ _) eqn:Ecommit.
        -- destruct (mark_server_used env _ _ _); simpl;
             (split; [reflexivity|]);
             right; eexists;
             (split; [exact Hp|]);
             (split; [exists c, uid, snt, (users cm);
                      repeat split; eauto|]);
             (split; [reflexivity|]).
           ++ exists []. now rewrite app_nil_r.
           ++ eexists. reflexivity.
        -- simpl. split; [reflexivity|].
           left. repeat split; auto. rewrite Hp. discriminate.
      * simpl. split; [reflexivity|].
        left. repeat split; auto. rewrite Hp. discriminate.
    + split; [reflexivity|].
      left. rewrite Hc. repeat split; auto. discriminate.
Qed.

(** The loop: one call per attached server of a provisioned type, in
    the order of attachment, whatever the calls before it did. *)
Lemma loop_sent (srvs : list MediaServer.t) :
  forall w, exists new,
    sent (loop srvs w) = sent w ++ new
    /\ map call_server new = filter provisioned_type srvs
    /\ Forall (loop_call pw plex_user) new.
Proof.
  induction srvs as [|srv srvs IH]; intros w; simpl.
  - exists []. rewrite app_nil_r. repeat split. constructor.
  - destruct (IH (step w srv)) as [new (Hs & Hm & Hall)].
    pose proof (step_sent w srv) as Hstep.
    unfold provision_all in *. rewrite Hs.
    destruct (provisioned_type srv).
    + destruct Hstep as [c (Hc & Hsrv & Hcall)].
      exists (c :: new). rewrite Hc, <- app_assoc. simpl.
      rewrite Hsrv, Hm. repeat split. now constructor.
    + rewrite Hstep. exists new. auto.
Qed.

(** The loop only appends User rows, each stored for one of the servers;
    the log only grows. *)
Lemma loop_users (srvs : list MediaServer.t) :
  forall w, clean (session w) ->
    clean (session (loop srvs w))
    /\ (exists l, logged (loop srvs w) = logged w ++ l)
    /\ exists added,
        users (committed (session (loop srvs w)))
        = users (committed (session w)) ++ added
        /\ Forall (fun u => exists srv, In srv srvs /\ stored_for env code plex_user srv u)
                  added.
Proof.
  induction srvs as [|srv srvs IH]; intros w Hclean; simpl.
  - split; [exact Hclean|]. split; [exists []; now rewrite app_nil_r|].
    exists []. rewrite app_nil_r. split; [reflexivity | constructor].
  - destruct (step_session w srv Hclean) as (Hc1 & Hcase).
    destruct (IH (step w srv) Hc1) as (Hc2 & [l Hl] & added & Hu & Hall).
    unfold provision_all in *.
    split; [exact Hc2|].
    assert (Hwiden : Forall (fun u => exists s,
                                 (srv = s \/ In s srvs)
                                 /\ stored_for env code plex_user s u)
                            added).
    { eapply Forall_impl; [|exact Hall].
      intros u [s [Hin Hrow]]. exists s. auto. }
    destruct Hcase as [(Hsame & Hlog1 & Hlog2)
                      | (u & Hp & Hrow & Happ & [l1 Hl1])].
    + split.
      * rewrite Hl. destruct (provisioned_type srv).
        -- rewrite (Hlog1 eq_refl), <- app_assoc. eexists. reflexivity.
        -- rewrite (Hlog2 eq_refl). eexists. reflexivity.
      * exists added. rewrite Hu, Hsame. split; [reflexivity | exact Hwiden].
    + split.
      * rewrite Hl, Hl1, <- app_assoc. eexists. reflexivity.
      * exists (u :: added). rewrite Hu, Happ, <- app_assoc.
        split; [reflexivity|]. constructor; [|exact Hwiden].
        exists srv. auto.
Qed.


End Provisioning.

Section PromptDetails.
Import Model Public.

Variable env : Env.
Variable inv : Invitation.t.
Variables code pw : string.
Variable plex_user : option User.t.

Local Abbreviation step := (provision env inv code pw plex_user).
Local Abbreviation loop := (provision_all env inv code pw plex_user).
Local Abbreviation planned srv :=
  (call_for srv (derived_username plex_user) pw (derived_email plex_user)).

Lemma call_for_plex (srv : MediaServer.t) (username p : string)
      (email : option string) :
  String.eqb (MediaServer.server_type srv) "plex" = true ->
  call_for srv username p email = None.
Proof.
  intros H. apply String.eqb_eq in H. unfold call_for. now rewrite H.
Qed.

(** What a planned call looks like. *)
Lemma call_for_some (srv : MediaServer.t) (username p : string)
      (email : option string) (c : Call) :
  call_for srv username p email = Some c ->
  call_server c = srv /\ call_username c = username /\ call_password c = p
  /\ provisioned_type srv = true
  /\ (call_email c = NoEmail /\
      (MediaServer.server_type srv = "jellyfin"
       \/ MediaServer.server_type srv = "emby")
      \/ call_email c = Email email /\
         (MediaServer.server_type srv = "audiobookshelf"
          \/ MediaServer.server_type srv = "romm")).
Proof.
  unfold call_for, provisioned_type, is_password_signup. simpl.
  destruct (String.eqb_spec (MediaServer.server_type srv) "jellyfin");
    destruct (String.eqb_spec (MediaServer.server_type srv) "emby");
    destruct (String.eqb_spec (MediaServer.server_type srv) "audiobookshelf");
    destruct (String.eqb_spec (MediaServer.server_type srv) "romm");
    simpl; intros H; inversion H; subst; simpl; intuition.
Qed.

Lemma call_for_none (srv : MediaServer.t) (username p : string)
      (email : option string) :
  call_for srv username p email = None <-> provisioned_type srv = false.
Proof.
  unfold call_for, provisioned_type, is_password_signup. simpl.
  destruct (String.eqb (MediaServer.server_type srv) "jellyfin");
    destruct (String.eqb (MediaServer.server_type srv) "emby");
    destruct (String.eqb (MediaServer.server_type srv) "audiobookshelf");
    destruct (String.eqb (MediaServer.server_type srv) "romm");
    simpl; split; intros H; try reflexivity; discriminate.
Qed.

(** One iteration, case by case: the server is passed over; or it is
    tried and nothing is stored; or its row is stored, the ledger helper
    returning or not. *)
Lemma step_cases (w : Serving) (srv : MediaServer.t) :
  clean (session w) ->
  let us := users (committed (session w)) in
  let row uid :=
    User.mk (next_user_id us) uid (derived_username plex_user)
            (derived_email plex_user) code None None
            (Some (MediaServer.id srv)) in
  (planned srv = None /\ step w srv = w)
  \/ (exists c,
         planned srv = Some c
         /\ sent (step w srv) = sent w ++ [c]
         /\ logged (step w srv) = logged w ++ [MediaServer.name srv]
         /\ committed (session (step w srv)) = committed (session w)
         /\ clean (session (step w srv))
         /\ (create_user env (sent w) c = None
             \/ exists uid, create_user env (sent w) c = Some uid
                            /\ commit_ok env us (row uid) = false))
  \/ (exists c uid,
         planned srv = Some c
         /\ create_user env (sent w) c = Some uid
         /\ commit_ok env us (row uid) = true
         /\ sent (step w srv) = sent w ++ [c]
         /\ users (committed (session (step w srv))) = us ++ [row uid]
         /\ clean (session (step w srv))
         /\ ((exists i s t tbl,
                 mark_server_used env i s t = Some tbl
                 /\ invitations (committed (session (step w srv))) = tbl
                 /\ logged (step w srv) = logged w)
             \/ (exists i s t,
                    mark_server_used env i s t = None
                    /\ invitations (committed (session (step w srv)))
                       = invitations (committed (session w))
                    /\ logged (step w srv)
                       = logged w ++ [MediaServer.name srv]))).
Proof.
  intros Hclean us row. subst us row. unfold clean in *.
  destruct w as [[cm wk] snt lg]. simpl in Hclean. subst wk.
  unfold provision. cbv zeta.
  destruct (String.eqb (MediaServer.server_type srv) "plex") eqn:Eplex.
  - left. split; [now apply call_for_plex | reflexivity].
  - destruct (call_for srv _ pw _) as [c|] eqn:Ec; [|left; auto].
    simpl.
    destruct (create_user env snt c) as [uid|] eqn:Ecreate.
    + destruct (commit_ok env _ _) eqn:Ecommit.
      * right. right. exists c, uid.
        split; [reflexivity|]. split; [exact Ecreate|].
        split; [exact Ecommit|].
        destruct (mark_server_used env _ _ _) as [tbl|] eqn:Emark; simpl;
          (split; [reflexivity|]); (split; [reflexivity|]);
          (split; [reflexivity|]).
        -- left. do 3 eexists. exists tbl. split; [exact Emark|]. auto.
        -- right. do 3 eexists. split; [exact Emark|]. auto.
      * right. left. exists c. simpl. repeat split; auto.
        right. exists uid. auto.
    + right. left. exists c. simpl. repeat split; auto.
Qed.

(** One iteration sends the planned call, if there is one. *)
Lemma step_sent_exact (w : Serving) (srv : MediaServer.t) :
  sent (step w srv)
  = sent w ++ match planned srv with Some c => [c] | None => [] end.
Proof.
  unfold provision.
  destruct (String.eqb (MediaServer.server_type srv) "plex") eqn:Eplex.
  - rewrite (call_for_plex _ _ _ _ Eplex). now rewrite app_nil_r.
  - destruct (call_for srv _ pw _) as [c|]; [|now rewrite app_nil_r].
    destruct (create_user env (sent w) c); [|reflexivity].
    destruct (commit_ok env _ _); [|reflexivity].
    destruct (mark_server_used env _ _ _); reflexivity.
Qed.

(** The loop sends exactly the planned calls, in order. *)
Lemma loop_sent_exact (srvs : list MediaServer.t) :
  forall w, sent (loop srvs w)
            = sent w ++ filter_map (fun srv => planned srv) srvs.
Proof.
  induction srvs as [|srv srvs IH]; intros w; simpl.
  - now rewrite app_nil_r.
  - unfold provision_all in *. rewrite IH, step_sent_exact, <- app_assoc.
    destruct (call_for srv _ pw _); reflexivity.
Qed.

Lemma in_filter_map {A B : Type} (f : A -> option B) (l : list A) (b : B) :
  In b (filter_map f l) <-> exists a, In a l /\ f a = Some b.
Proof.
  induction l as [|x l IH]; simpl.
  - split; [intros [] | intros [a [[] _]]].
  - destruct (f x) as [y|] eqn:E; simpl; rewrite IH; split.
    + intros [<-|[a [Ha Hf]]]; [exists x; auto | exists a; auto].
    + intros [a [[<-|Ha] Hf]]; [left; congruence | right; exists a; auto].
    + intros [a [Ha Hf]]. exists a. auto.
    + intros [a [[<-|Ha] Hf]]; [congruence | exists a; auto].
Qed.

End PromptDetails.

Section PromptRows.
Import Model Public.

Variable env : Env.
Variable inv : Invitation.t.
Variables code pw : string.
Variable plex_user : option User.t.

Local Abbreviation loop := (provision_all env inv code pw plex_user).

Lemma loop_cons (srv : MediaServer.t) (srvs : list MediaServer.t)
      (w : Serving) :
  loop (srv :: srvs) w = loop srvs (provision env inv code pw plex_user w srv).
Proof. reflexivity. Qed.

(** The loop appends rows and nothing else: each carries the code of
    the request, the derived name and e-mail, no expiry, no password, and
    the id of an attached server of a provisioned type; there are no more
    rows than calls. *)
Lemma loop_rows (srvs : list MediaServer.t) :
  forall w, clean (session w) ->
    clean (session (loop srvs w))
    /\ exists added,
        users (committed (session (loop srvs w)))
        = users (committed (session w)) ++ added
        /\ (List.length added
            <= List.length (filter provisioned_type srvs))%nat
        /\ Forall
             (fun u =>
                User.code u = code
                /\ User.username u = derived_username plex_user
                /\ User.email u = derived_email plex_user
                /\ User.expires u = None /\ User.password u = None
                /\ exists srv, In srv srvs /\ provisioned_type srv = true
                               /\ User.server_id u
                                  = Some (MediaServer.id srv))
             added.
Proof.
  induction srvs as [|srv srvs IH]; intros w Hclean.
  - split; [exact Hclean|]. exists []. simpl. rewrite app_nil_r.
    repeat split; auto.
  - rewrite loop_cons.
    pose proof (step_cases env inv code pw plex_user w srv Hclean) as Hstep.
    cbv zeta in Hstep.
    assert (Hwiden : forall added,
      Forall (fun u =>
                User.code u = code
                /\ User.username u = derived_username plex_user
                /\ User.email u = derived_email plex_user
                /\ User.expires u = None /\ User.password u = None
                /\ exists s, In s srvs /\ provisioned_type s = true
                             /\ User.server_id u = Some (MediaServer.id s))
             added ->
      Forall (fun u =>
                User.code u = code
                /\ User.username u = derived_username plex_user
                /\ User.email u = derived_email plex_user
                /\ User.expires u = None /\ User.password u = None
                /\ exists s, In s (srv :: srvs) /\ provisioned_type s = true
                             /\ User.server_id u = Some (MediaServer.id s))
             added).
    { intros added. apply Forall_impl.
      intros u (H1 & H2 & H3 & H4 & H5 & s & Hin & Hp & Hs).
      repeat split; auto. exists s. simpl. auto. }
    destruct Hstep as [[Hnone Hsame]
                      | [(c & Hc & _ & _ & Hcm & Hcl & _)
                        | (c & uid & Hc & _ & _ & _ & Hus & Hcl & _)]].
    + rewrite Hsame. destruct (IH w Hclean) as (Hc2 & added & Hu & Hlen & Hall).
      split; [exact Hc2|]. exists added. split; [exact Hu|].
      split; [|now apply Hwiden].
      simpl. apply call_for_none in Hnone. rewrite Hnone. exact Hlen.
    + destruct (IH _ Hcl) as (Hc2 & added & Hu & Hlen & Hall).
      split; [exact Hc2|]. exists added. rewrite Hu, Hcm.
      split; [reflexivity|]. split; [|now apply Hwiden].
      simpl. destruct (provisioned_type srv); simpl; lia.
    + destruct (IH _ Hcl) as (Hc2 & added & Hu & Hlen & Hall).
      split; [exact Hc2|].
      apply call_for_some in Hc as (Hs & _ & _ & Hpt & _).
      eexists (_ :: added). rewrite Hu, Hus, <- app_assoc.
      split; [reflexivity|]. split.
      * simpl. rewrite Hpt. simpl. lia.
      * constructor; [|now apply Hwiden].
        simpl. repeat split; auto. exists srv. simpl. auto.
Qed.


(** When every client returns an id, every commit goes through and the
    ledger helper always raises, every server that is tried gets its row
    and its log entry, and the invitation table is as it was. *)
Lemma loop_helper_raises (srvs : list MediaServer.t) :
  (forall h c, create_user env h c <> None) ->
  (forall us u, commit_ok env us u = true) ->
  (forall i s t, mark_server_used env i s t = None) ->
  forall w, clean (session w) ->
    clean (session (loop srvs w))
    /\ logged (loop srvs w)
       = logged w ++ map MediaServer.name (filter provisioned_type srvs)
    /\ invitations (committed (session (loop srvs w)))
       = invitations (committed (session w))
    /\ exists added,
        users (committed (session (loop srvs w)))
        = users (committed (session w)) ++ added
        /\ map User.server_id added
           = map (fun s => Some (MediaServer.id s))
                 (filter provisioned_type srvs).
Proof.
  intros Hcreate Hcommit Hmark.
  induction srvs as [|srv srvs IH]; intros w Hclean.
  - split; [exact Hclean|]. simpl. rewrite app_nil_r.
    split; [reflexivity|]. split; [reflexivity|].
    exists []. now rewrite app_nil_r.
  - rewrite loop_cons.
    pose proof (step_cases env inv code pw plex_user w srv Hclean) as Hstep.
    cbv zeta in Hstep.
    destruct Hstep as [[Hnone Hsame]
                      | [(c & _ & _ & _ & _ & _ & Hwhy)
                        | (c & uid & Hc & _ & _ & _ & Hus & Hcl & Hhelper)]].
    + rewrite Hsame. apply call_for_none in Hnone. simpl. rewrite Hnone.
      now apply IH.
    + exfalso. destruct Hwhy as [Hno | [uid [_ Hno]]].
      * exact (Hcreate _ _ Hno).
      * rewrite Hcommit in Hno. discriminate.
    + apply call_for_some in Hc as (_ & _ & _ & Hpt & _).
      destruct Hhelper as [(i & s & t & tbl & Hsome & _)
                          | (i & s & t & _ & Hinv & Hlog)].
      * rewrite Hmark in Hsome. discriminate.
      * destruct (IH _ Hcl) as (Hc2 & Hl & Hi & added & Hu & Hm).
        split; [exact Hc2|]. simpl. rewrite Hpt. simpl.
        split; [rewrite Hl, Hlog, <- app_assoc; reflexivity|].
        split; [now rewrite Hi|].
        eexists (_ :: added). rewrite Hu, Hus, <- app_assoc.
        split; [reflexivity|]. simpl. now rewrite Hm.
Qed.

(** With no attached server of a provisioned type the loop does
    nothing. *)
Lemma loop_nothing_to_do (srvs : list MediaServer.t) :
  (forall srv, In srv srvs -> provisioned_type srv = false) ->
  forall w, loop srvs w = w.
Proof.
  induction srvs as [|srv srvs IH]; intros Hnone w; [reflexivity|].
  rewrite loop_cons.
  pose proof (step_sent env inv code pw plex_user w srv) as Hstep.
  rewrite (Hnone srv) in Hstep by (simpl; auto).
  rewrite Hstep. apply IH. intros s Hin. apply Hnone. simpl. auto.
Qed.

End PromptRows.

Section PasswordPrompt.
Import Model Public.

Lemma password_prompt_post (env : Env) (form : Form) (code : string)
      (w : World) (invitation : Invitation.t) :
  invitation_by_code_ci (db w) code = Some invitation ->
  acceptable form ->
  password_prompt env POST form code w
  = (finish (provision_all env invitation code (chosen_password env form)
               (find_plex_user (db w) invitation code)
               (servers (db w) invitation) (serve w)),
     RedirectWizard code).
Proof.
  intros Hfound [Hsame Hlen]. unfold password_prompt. rewrite Hfound.
  rewrite Hsame, String.eqb_refl. simpl.
  rewrite <- Hsame.
  destruct (Py.len (or_empty (form_password form)) <? 8) eqn:E.
  - apply Z.ltb_lt in E. lia.
  - reflexivity.
Qed.

Lemma serve_clean (w : World) : clean (session (serve w)).
Proof. reflexivity. Qed.




Lemma ledger_marked_app (us added : list User.t) (code : string) (sid : Z) :
  ledger_marked us code sid = true ->
  ledger_marked (us ++ added) code sid = true.
Proof.
  unfold ledger_marked. rewrite existsb_app. intros ->. reflexivity.
Qed.

Lemma derived_username_cases (plex_user : option User.t) :
  derived_username plex_user
  = match plex_user with
    | Some u => User.username u
    | None => "wizarr"
    end.
Proof. now destruct plex_user. Qed.

End PasswordPrompt.

(** C1 (as the code has it).  The password-provisioning step does not
    consult the ledger.  Run on an acceptable form, it calls
    [create_user] once for every attached server of type jellyfin, emby,
    audiobookshelf or romm, in the order of attachment, marked in the
    ledger or not, and never for a Plex server; it removes and alters no
    User row, rows being only appended, so every ledger entry that was
    marked stays marked. *)
Theorem provisioning_does_not_consult_the_ledger :
  forall (env : Public.Env) (form : Public.Form) (code : string)
         (w : Public.World) (invitation : Invitation.t),
    Model.invitation_by_code_ci (Public.db w) code = Some invitation ->
    acceptable form ->
    let w' := fst (Public.password_prompt env Public.POST form code w) in
    (exists new,
        Public.calls w' = Public.calls w ++ new
        /\ map Public.call_server new
           = filter provisioned_type
                    (Model.servers (Public.db w) invitation))
    /\ (exists added,
           Model.users (Public.db w') = Model.users (Public.db w) ++ added)
    /\ (forall c sid,
           Model.ledger_marked (Model.users (Public.db w)) c sid = true ->
           Model.ledger_marked (Model.users (Public.db w')) c sid = true).
Proof.
  intros env form code w invitation Hfound Hform w'. subst w'.
  rewrite (password_prompt_post env form code w invitation Hfound Hform).
  simpl.
  destruct (loop_sent env invitation code (chosen_password env form)
              (Public.find_plex_user (Public.db w) invitation code)
              (Model.servers (Public.db w) invitation) (Public.serve w))
    as [new (Hs & Hm & _)].
  destruct (loop_users env invitation code (chosen_password env form)
              (Public.find_plex_user (Public.db w) invitation code)
              (Model.servers (Public.db w) invitation) (Public.serve w)
              (serve_clean w))
    as (_ & _ & added & Hu & _).
  simpl in Hs, Hu.
  split; [exists new; auto|].
  split; [exists added; exact Hu|].
  intros c sid Hmarked. rewrite Hu. now apply ledger_marked_app.
Qed.

Lemma provisioning_does_not_consult_the_ledger_witness :
  Model.ledger_marked (Model.users (Public.db Samples.world_marked))
                      "ABC123" 2 = true
  /\ exists new,
      Public.calls (fst (Public.password_prompt Samples.env_up Public.POST
                           Samples.form "ABC123" Samples.world_marked))
      = Public.calls Samples.world_marked ++ new
      /\ map Public.call_server new
         = filter provisioned_type
                  (Model.servers (Public.db Samples.world_marked)
                                 Samples.invitation).
Proof.
  split; [reflexivity|].
  apply (provisioning_does_not_consult_the_ledger
           Samples.env_up Samples.form "ABC123" Samples.world_marked
           Samples.invitation).
  - reflexivity.
  - split; [reflexivity | vm_compute; discriminate].
Defined.

(** C1 (as stated) fails: with the Jellyfin server of the invitation
    already marked in the ledger, running the step again calls
    [create_user] for it once more and stores one more row. *)
Lemma provisioning_is_not_idempotent :
  ~ (forall (env : Public.Env) (form : Public.Form) (code : string)
            (w : Public.World) (invitation : Invitation.t)
            (srv : MediaServer.t),
        Model.invitation_by_code_ci (Public.db w) code = Some invitation ->
        In srv (Model.servers (Public.db w) invitation) ->
        MediaServer.server_type srv <> "plex" ->
        Model.ledger_marked (Model.users (Public.db w))
                            (Invitation.code invitation)
                            (MediaServer.id srv) = true ->
        let w' := fst (Public.password_prompt env Public.POST form code w) in
        (forall c, In c (Public.calls w') -> Public.call_server c = srv ->
                   In c (Public.calls w))
        /\ Model.users (Public.db w') = Model.users (Public.db w)).
Proof.
  intros H.
  specialize (H Samples.env_up Samples.form "ABC123" Samples.world_marked
                Samples.invitation Samples.jellyfin).
  destruct H as [Hcalls _].
  - reflexivity.
  - simpl. auto.
  - discriminate.
  - reflexivity.
  - apply (Hcalls (Public.mkCall Samples.jellyfin "bobby" "password123"
                                 Public.NoEmail)).
    + vm_compute. auto.
    + reflexivity.
Qed.



(** C6 (as the code has it).  In the password-provisioning step, the
    username of every [create_user] call is the [username] of the local
    User row of the Plex server of the invitation (the row with the code
    of the request and the id of that server), and the literal "wizarr"
    when there is no such row. *)
Theorem password_servers_get_the_plex_username :
  forall (env : Public.Env) (form : Public.Form) (code : string)
         (w : Public.World) (invitation : Invitation.t),
    Model.invitation_by_code_ci (Public.db w) code = Some invitation ->
    acceptable form ->
    let w' := fst (Public.password_prompt env Public.POST form code w) in
    exists new,
      Public.calls w' = Public.calls w ++ new
      /\ map Public.call_server new
         = filter provisioned_type (Model.servers (Public.db w) invitation)
      /\ Forall
           (fun c =>
              Public.call_username c
              = match Public.find_plex_user (Public.db w) invitation code with
                | Some plex_user => User.username plex_user
                | None => "wizarr"
                end) new.
Proof.
  intros env form code w invitation Hfound Hform w'. subst w'.
  rewrite (password_prompt_post env form code w invitation Hfound Hform).
  simpl.
  destruct (loop_sent env invitation code (chosen_password env form)
              (Public.find_plex_user (Public.db w) invitation code)
              (Model.servers (Public.db w) invitation) (Public.serve w))
    as [new (Hs & Hm & Hall)].
  exists new. split; [exact Hs|]. split; [exact Hm|].
  eapply Forall_impl; [|exact Hall].
  intros c (Hu & _). rewrite Hu. apply derived_username_cases.
Qed.

Lemma password_servers_get_the_plex_username_witness :
  exists new,
    Public.calls (fst (Public.password_prompt Samples.env_up Public.POST
                         Samples.form "ABC123" Samples.world0))
    = Public.calls Samples.world0 ++ new
    /\ map Public.call_server new
       = filter provisioned_type
                (Model.servers (Public.db Samples.world0) Samples.invitation)
    /\ Forall (fun c => Public.call_username c = "bobby") new.
Proof.
  apply (password_servers_get_the_plex_username
           Samples.env_up Samples.form "ABC123" Samples.world0
           Samples.invitation eq_refl
           (conj eq_refl
                 (fun E : (8 ?= 11) = Gt => ltac:(discriminate E)))).
Defined.

(** C6 (as stated) fails: with the Plex row of user "bobby", whose
    e-mail is bob@x.com, the account on the Jellyfin server is created
    as "bobby", not as "bob". *)
Lemma username_is_not_the_email_local_part :
  ~ (forall (env : Public.Env) (form : Public.Form) (code : string)
            (w : Public.World) (invitation : Invitation.t)
            (plex_user : User.t) (e : string),
        Model.invitation_by_code_ci (Public.db w) code = Some invitation ->
        Public.find_plex_user (Public.db w) invitation code
        = Some plex_user ->
        User.email plex_user = Some e ->
        forall c,
          In c (Public.calls
                  (fst (Public.password_prompt env Public.POST form code w))) ->
          ~ In c (Public.calls w) ->
          Public.call_username c = Py.split_head "@" e).
Proof.
  intros H.
  specialize (H Samples.env_up Samples.form "ABC123" Samples.world0
                Samples.invitation Samples.bob "bob@x.com"
                eq_refl eq_refl eq_refl
                (Public.mkCall Samples.jellyfin "bobby" "password123"
                               Public.NoEmail)).
  assert (E : "bobby" = "bob"); [|discriminate E].
  apply H.
  - vm_compute. auto.
  - simpl. auto.
Qed.

(* ===================================================================== *)
(** * list_users: reconciliation                                          *)
(* ===================================================================== *)

Section Dicts.

Context {V : Type}.


Lemma dict_set_keys (k k' : string) (v : V) (d : list (string * V)) :
  In k (map fst (Romm.dict_set k' v d)) <-> k = k' \/ In k (map fst d).
Proof.
  induction d as [|[k0 v0] d IH]; simpl.
  - intuition.
  - destruct (String.eqb_spec k0 k') as [->|Hne]; simpl.
    + intuition.
    + rewrite IH. intuition.
Qed.

Lemma dict_set_nodup (k : string) (v : V) (d : list (string * V)) :
  NoDup (map fst d) -> NoDup (map fst (Romm.dict_set k v d)).
Proof.
  induction d as [|[k0 v0] d IH]; simpl; intros Hnd.
  - constructor; [intros [] | constructor].
  - inversion Hnd as [|? ? Hnotin Hnd']; subst.
    destruct (String.eqb_spec k0 k) as [->|Hne]; simpl.
    + now constructor.
    + constructor; [|now apply IH].
      rewrite dict_set_keys. intros [->|Hin]; [congruence | contradiction].
Qed.

Lemma dict_has_in (k : string) (d : list (string * V)) :
  Romm.dict_has k d = true <-> In k (map fst d).
Proof.
  unfold Romm.dict_has. rewrite existsb_exists, in_map_iff.
  split; intros [[k0 v0] [H1 H2]]; exists (k0, v0); simpl in *.
  - apply String.eqb_eq in H2. auto.
  - subst. split; [assumption | apply String.eqb_refl].
Qed.

End Dicts.

Section ListFacts.

Context {A : Type}.

Lemma find_filter_agree (p q : A -> bool) (l : list A) :
  (forall a, p a = true -> q a = true) ->
  find p (filter q l) = find p l.
Proof.
  intros Hpq. induction l as [|a l IH]; simpl; [reflexivity|].
  destruct (q a) eqn:Eq; simpl.
  - now rewrite IH.
  - destruct (p a) eqn:Ep; [|exact IH].
    rewrite (Hpq a Ep) in Eq. discriminate.
Qed.


Lemma update_first_none (p : A -> bool) (f : A -> A) (l : list A) :
  Romm.update_first p f l = None <-> find p l = None.
Proof.
  induction l as [|a l IH]; simpl; [tauto|].
  destruct (p a); [split; discriminate|].
  destruct (Romm.update_first p f l); simpl.
  - split; [discriminate|]. intros H. apply IH in H. discriminate.
  - tauto.
Qed.

(** Updating the first match with a function that leaves it as it is
    changes nothing. *)
Lemma update_first_fixed (p : A -> bool) (f : A -> A) (l : list A) (a : A) :
  find p l = Some a -> f a = a -> Romm.update_first p f l = Some l.
Proof.
  induction l as [|x l IH]; simpl; [discriminate|].
  destruct (p x).
  - intros H Hf. inversion H; subst. now rewrite Hf.
  - intros H Hf. now rewrite (IH H Hf).
Qed.

(** After the update, the first match is the updated element, provided
    the update keeps it a match. *)
Lemma update_first_find (p : A -> bool) (f : A -> A) (l l' : list A) :
  (forall a, p a = true -> p (f a) = true) ->
  Romm.update_first p f l = Some l' ->
  exists a, find p l = Some a /\ find p l' = Some (f a).
Proof.
  intros Hpf. revert l'.
  induction l as [|x l IH]; simpl; intros l'; [discriminate|].
  destruct (p x) eqn:Ep.
  - intros H. inversion H; subst. exists x. simpl.
    now rewrite (Hpf x Ep).
  - destruct (Romm.update_first p f l) as [l0|]; simpl; [|discriminate].
    intros H. inversion H; subst. simpl. rewrite Ep. now apply IH.
Qed.

(** An update of the first [q]-element leaves the first [p]-element
    alone when no [q]-element is a [p]-element, before or after. *)
Lemma update_first_other (p q : A -> bool) (f : A -> A) (l l' : list A) :
  (forall a, q a = true -> p a = false /\ p (f a) = false) ->
  Romm.update_first q f l = Some l' ->
  find p l' = find p l.
Proof.
  intros Hq. revert l'.
  induction l as [|x l IH]; simpl; intros l'; [discriminate|].
  destruct (q x) eqn:Eq.
  - intros H. inversion H; subst. simpl.
    destruct (Hq x Eq) as [-> ->]. reflexivity.
  - destruct (Romm.update_first q f l) as [l0|]; simpl; [|discriminate].
    intros H. inversion H; subst. simpl. now rewrite (IH l0 eq_refl).
Qed.

Lemma find_app_miss (p : A -> bool) (l : list A) (a : A) :
  p a = false -> find p (l ++ [a]) = find p l.
Proof.
  intros Hp. induction l as [|x l IH]; simpl.
  - now rewrite Hp.
  - now rewrite IH.
Qed.

Lemma find_app_hit (p : A -> bool) (l : list A) (a : A) :
  find p l = None -> p a = true -> find p (l ++ [a]) = Some a.
Proof.
  intros Hnone Hp. induction l as [|x l IH]; simpl in *.
  - now rewrite Hp.
  - destruct (p x); [discriminate | now apply IH].
Qed.

End ListFacts.

Section KomgaSync.
Import Model.

Variable self_server_id : option Z.

Local Abbreviation insert := (Komga.insert_missing self_server_id).











End KomgaSync.

Section RommSync.
Import Model.

Variable self_server_id : option Z.

Local Abbreviation row_of k := (Romm.is_row k self_server_id).
Local Abbreviation upsert := (Romm.upsert self_server_id).

Lemma refreshed_row (k : string) (ru : RommUser.t) (u : User.t) :
  row_of k (Romm.refreshed ru u) = row_of k u.
Proof. reflexivity. Qed.


Lemma new_row_settled (us : list User.t) (k : string) (ru : RommUser.t) :
  row_of k (Romm.new_row us k ru self_server_id) = true
  /\ Romm.refreshed ru (Romm.new_row us k ru self_server_id)
     = Romm.new_row us k ru self_server_id.
Proof.
  split.
  - unfold Romm.is_row. simpl. rewrite String.eqb_refl. simpl.
    now apply opt_Z_eqb_eq.
  - unfold Romm.refreshed, Romm.new_row. simpl.
    destruct (RommUser.username ru), (RommUser.email ru); reflexivity.
Qed.

Lemma row_of_other (k k' : string) (u : User.t) :
  k <> k' -> row_of k' u = true -> row_of k u = false.
Proof.
  unfold Romm.is_row. intros Hne H.
  apply andb_prop in H as [Ht _]. apply String.eqb_eq in Ht.
  destruct (String.eqb_spec (User.token u) k); [congruence | reflexivity].
Qed.


(** ... and leaves the first row of every other key alone. *)
Lemma upsert_other (us : list User.t) (k k' : string) (ru' : RommUser.t) :
  k <> k' -> find (row_of k) (upsert us (k', ru')) = find (row_of k) us.
Proof.
  intros Hne. unfold Romm.upsert.
  destruct (Romm.update_first (row_of k') (Romm.refreshed ru') us)
    as [us'|] eqn:E.
  - apply (update_first_other (row_of k) (row_of k') (Romm.refreshed ru')
                                us us'); auto.
    intros a Ha. split.
    + now apply (row_of_other k k').
    + rewrite refreshed_row. now apply (row_of_other k k').
  - apply find_app_miss. apply (row_of_other k k'); auto.
    apply new_row_settled.
Qed.

Lemma upsert_loop_other (by_id : list (string * RommUser.t)) (k : string) :
  ~ In k (map fst by_id) ->
  forall us, find (row_of k) (fold_left upsert by_id us) = find (row_of k) us.
Proof.
  induction by_id as [|[k' ru'] by_id IH]; intros Hnotin us; simpl.
  - reflexivity.
  - rewrite IH by (intros H; apply Hnotin; simpl; auto).
    apply upsert_other. intros ->. apply Hnotin. simpl. auto.
Qed.



Lemma row_of_kept (by_id : list (string * RommUser.t)) (k : string)
      (u : User.t) :
  In k (map fst by_id) -> row_of k u = true ->
  Romm.kept self_server_id by_id u = true.
Proof.
  intros Hin H. unfold Romm.is_row in H. apply andb_prop in H as [Ht _].
  apply String.eqb_eq in Ht. unfold Romm.kept. rewrite Ht.
  apply dict_has_in in Hin. rewrite Hin. simpl. now rewrite andb_false_r.
Qed.



(** The dict built from the remote users has distinct keys. *)
Lemma remote_by_id_nodup (remote_users : list RommUser.t) :
  forall acc by_id,
    NoDup (map fst acc) ->
    Romm.remote_by_id_from acc remote_users = Some by_id ->
    NoDup (map fst by_id)
    /\ forall u k, In u remote_users -> Romm.remote_key u = Some k ->
                   In k (map fst by_id).
Proof.
  induction remote_users as [|u rest IH]; intros acc by_id Hnd; simpl.
  - intros H. inversion H; subst. split; [exact Hnd | intros ? ? []].
  - destruct (Romm.remote_key u) as [k|] eqn:Ek; [|discriminate].
    intros H.
    assert (Hkeys : forall k', In k' (map fst (Romm.dict_set k u acc)) ->
                               In k' (map fst by_id)).
    { clear IH. revert H. generalize (Romm.dict_set k u acc).
      induction rest as [|v rest IHr]; intros d H k' Hin; simpl in H.
      - inversion H; subst. exact Hin.
      - destruct (Romm.remote_key v) as [kv|]; [|discriminate].
        apply (IHr _ H). apply dict_set_keys. auto. }
    destruct (IH _ _ (dict_set_nodup k u acc Hnd) H) as [Hnd' Hin'].
    split; [exact Hnd'|].
    intros v kv [<-|Hv] Hkv.
    + rewrite Ek in Hkv. inversion Hkv; subst.
      apply Hkeys. apply dict_set_keys. auto.
    + now apply (Hin' v).
Qed.

End RommSync.

Section RommPaging.

(** The paging loop reads a paged upstream to its end. *)
Lemma fetch_paged (all : list RommUser.t) (take : nat) :
  (0 < take)%nat ->
  forall fuel skip acc,
    (List.length (skipn skip all) < fuel)%nat ->
    Romm.fetch fuel (Romm.paged all) (Z.of_nat skip) (Z.of_nat take) acc
    = Some (Some (acc ++ skipn skip all)).
Proof.
  intros Htake.
  induction fuel as [|fuel IH]; intros skip acc Hlen; [lia|].
  cbn [Romm.fetch]. unfold Romm.paged at 1. rewrite !Nat2Z.id.
  set (rest := skipn skip all) in *.
  destruct (Z.of_nat (List.length (firstn take rest)) <? Z.of_nat take) eqn:E.
  - apply Z.ltb_lt in E. rewrite length_firstn in E.
    rewrite firstn_all2 by lia. reflexivity.
  - apply Z.ltb_ge in E. rewrite length_firstn in E.
    replace (Z.of_nat skip + Z.of_nat take) with (Z.of_nat (take + skip))
      by lia.
    rewrite IH.
    + rewrite <- app_assoc. do 3 f_equal.
      rewrite <- skipn_skipn. fold rest. apply firstn_skipn.
    + rewrite <- skipn_skipn. fold rest. rewrite length_skipn. lia.
Qed.

Lemma fetch_paged_all (all : list RommUser.t) :
  Romm.fetch (S (List.length all)) (Romm.paged all) 0 100 [] = Some (Some all).
Proof.
  apply (fetch_paged all 100 ltac:(lia) (S (List.length all)) 0%nat []).
  simpl. lia.
Qed.

End RommPaging.

Section Reconciliation.
Import Model.

Variable self_server_id : option Z.







End Reconciliation.


(* ===================================================================== *)
(** * The theorems at sample inputs                                       *)
(* ===================================================================== *)

Lemma public_lookup_ignores_case_witness :
  Model.invitation_by_code_ci (Public.db Samples.world0) "abc123"
  = Some Samples.invitation.
Proof.
  apply (public_lookup_ignores_case Samples.env_up Samples.form 0 None
           Samples.world0 Samples.invitation "abc123").
  - intros j [<-|[]] _. reflexivity.
  - simpl. auto.
  - reflexivity.
Defined.

Lemma delete_server_deletes_its_users_witness :
  snd (Servers.delete_server Servers.decimal_id_matches (Some "2")
                             Samples.db_marked) = 204
  /\ Model.users (fst (Servers.delete_server Servers.decimal_id_matches
                         (Some "2") Samples.db_marked))
     = [Samples.bob].
Proof.
  pose proof (delete_server_deletes_its_users Servers.decimal_id_matches
                Samples.db_marked "2" 2 eq_refl)
    as (_ & _ & H204 & _ & Hus & _).
  split; [exact H204 | exact Hus].
Defined.

Lemma create_user_retries_once_on_422_witness :
  fst (Romm.create_user Samples.picky_romm [] "alice" "password123"
                        (Some "alice@example.com"))
  = [Http.PostParams "/api/users"
       (Romm.payload "alice" "password123" (Some "alice@example.com"));
     Http.PostJson "/api/users"
       (Romm.payload "alice" "password123" (Some "alice@example.com")
        ++ [("passwordConfirm", Http.JStr "password123")])].
Proof.
  apply (create_user_retries_once_on_422 Samples.picky_romm [] "alice"
           "password123" (Some "alice@example.com")).
  reflexivity.
Defined.

Lemma join_checks_in_order_witness :
  Romm.join Samples.env_commit_fails (Some 3) Samples.client_world
            "alice" "password123" "password124" "alice@example.com" "ROMM42"
  = (Samples.client_world, (false, "Passwords do not match.")).
Proof.
  apply (join_checks_in_order Samples.env_commit_fails (Some 3)
           Samples.client_world "alice" "password123" "password124"
           "alice@example.com" "ROMM42").
  - vm_compute. reflexivity.
  - unfold length_ok. vm_compute. split; discriminate.
  - unfold confirm_ok. discriminate.
Defined.

Lemma join_rolls_back_after_remote_creation_witness :
  snd (Romm.join Samples.env_commit_fails (Some 3) Samples.client_world
                 "alice" "password123" "password123" "alice@example.com"
                 "ROMM42")
  = (false, "An unexpected error occurred.").
Proof.
  apply (join_rolls_back_after_remote_creation Samples.env_commit_fails
           (Some 3) Samples.client_world "alice" "password123" "password123"
           "alice@example.com" "ROMM42" (Http.JNum 7)).
  - vm_compute. reflexivity.
  - vm_compute. reflexivity.
  - vm_compute. reflexivity.
Defined.


(* ===================================================================== *)
(** * The handlers of the administration at work                          *)
(* ===================================================================== *)

Example legacy_invite_short_code :
  LegacyAdmin.invite LegacySamples.env Public.POST LegacySamples.form_short
                     LegacySamples.table
  = (LegacySamples.table
     ++ [Legacy.Invitations.mk "DKRY5C" false None true],
     LegacyAdmin.InvitePage "https://wizarr.local/j/DKRY5C").
Proof. reflexivity. Qed.

Example legacy_invite_taken :
  LegacyAdmin.invite LegacySamples.env Public.POST
    (LegacyAdmin.mkForm (Some "xyz789") None None) LegacySamples.table
  = (LegacySamples.table, LegacyAdmin.Unauthorized).
Proof. reflexivity. Qed.

Example ping_komga_as_jellyfin :
  ServerAdmin.ping_server
    (ServerAdmin.mkEnv
       (fun c _ _ => match c with
                     | ServerAdmin.check_jellyfin => (true, "")
                     | _ => (false, "wrong check")
                     end)
       (fun _ => None))
    4 AdminSamples.db
  = ServerAdmin.Ping true None.
Proof. reflexivity. Qed.

Example scan_adds_and_renames :
  Model.library_rows
    (fst (ServerAdmin.scan_server_libraries AdminSamples.env 2
                                            AdminSamples.db))
  = [JoinSamples.lib_a; JoinSamples.lib_b;
     Library.mk 5 "f-1" "Films" false (Some 2);
     Library.mk 6 "f-2" "Series" true (Some 2)].
Proof. reflexivity. Qed.

Example romm_libraries_default_name :
  RommCatalog.libraries
    (Some (Http.JArr
             [Http.JObj [("id", Http.JStr "nes");
                         ("name", Http.JStr "Nintendo")];
              Http.JObj [("id", Http.JStr "snes")]]))
  = [(Http.JStr "nes", Http.JStr "Nintendo");
     (Http.JStr "snes", Http.JStr "snes")].
Proof. reflexivity. Qed.

Example komga_libraries_one_bad_item :
  KomgaCatalog.libraries
    (Some (Http.JArr
             [Http.JObj [("id", Http.JStr "a"); ("name", Http.JStr "Comics")];
              Http.JObj [("id", Http.JStr "b")]]))
  = [].
Proof. reflexivity. Qed.

(* ===================================================================== *)
(** * The password prompt: what it refuses, sends and stores              *)
(* ===================================================================== *)

Section PromptRoute.
Import Model Public.

Lemma acceptable_dec (form : Form) :
  (negb (String.eqb (or_empty (form_password form))
                    (or_empty (form_confirm form)))
   || (Py.len (or_empty (form_password form)) <? 8))%bool = false
  <-> acceptable form.
Proof.
  unfold acceptable. rewrite orb_false_iff, negb_false_iff, String.eqb_eq.
  rewrite Z.ltb_ge. tauto.
Qed.

Lemma finish_serve (w : World) : finish (serve w) = w.
Proof. destruct w. reflexivity. Qed.

End PromptRoute.

(** X1.  [password_prompt] acts only on a POST for a known code with an
    acceptable form.  An unknown code gets the invalid-invite page, a
    GET the empty form, and a POST whose two fields differ or whose
    password has fewer than eight characters (a missing field counting
    as empty) the form with its error; in all three cases no client is
    called and the database and the log are as they were. *)
Theorem password_prompt_acts_only_on_an_acceptable_post :
  forall (env : Public.Env) (m : Public.method) (form : Public.Form)
         (code : string) (w : Public.World),
    (Model.invitation_by_code_ci (Public.db w) code = None ->
     Public.password_prompt env m form code w
     = (w, Public.InvalidInvite "Invalid invite"))
    /\ (Model.invitation_by_code_ci (Public.db w) code <> None ->
        Public.password_prompt env Public.GET form code w
        = (w, Public.ChoosePassword code None))
    /\ (Model.invitation_by_code_ci (Public.db w) code <> None ->
        ~ acceptable form ->
        Public.password_prompt env Public.POST form code w
        = (w, Public.ChoosePassword code
                (Some "Passwords do not match or too short (8 chars).")))
    /\ (fst (Public.password_prompt env m form code w) <> w ->
        m = Public.POST /\ acceptable form
        /\ Model.invitation_by_code_ci (Public.db w) code <> None).
Proof.
  intros env m form code w. unfold Public.password_prompt.
  pose proof (acceptable_dec form) as Hacc.
  destruct (Model.invitation_by_code_ci (Public.db w) code) as [i|].
  - split; [discriminate|].
    split; [reflexivity|].
    split.
    + intros _ Hno.
      destruct (negb _ || _)%bool; [reflexivity|].
      exfalso. apply Hno, Hacc. reflexivity.
    + destruct m; [simpl; congruence|].
      destruct (negb _ || _)%bool; [simpl; congruence|].
      intros _. split; [reflexivity|]. split; [|discriminate].
      apply Hacc. reflexivity.
  - split; [reflexivity|].
    split; [congruence|]. split; [congruence|]. simpl. congruence.
Qed.

Lemma password_prompt_acts_only_on_an_acceptable_post_witness :
  Public.password_prompt Samples.env_up Public.POST MoreSamples.form_short
                         "ABC123" Samples.world0
  = (Samples.world0,
     Public.ChoosePassword "ABC123"
       (Some "Passwords do not match or too short (8 chars).")).
Proof.
  apply (password_prompt_acts_only_on_an_acceptable_post
           Samples.env_up Public.POST MoreSamples.form_short "ABC123"
           Samples.world0).
  - discriminate.
  - intros [_ H]. vm_compute in H. apply H. reflexivity.
Defined.


(** X2.  What the calls of an accepted POST carry.  The calls appended
    by [password_prompt] all carry one password: the generated one when
    the generate box is ticked or the typed password is blank once
    stripped (eight spaces pass the length test and are then replaced),
    the typed one otherwise.  The e-mail argument is absent for jellyfin
    and emby and is the derived e-mail for audiobookshelf and romm. *)
Theorem prompt_calls_carry_password_and_email :
  forall (env : Public.Env) (form : Public.Form) (code : string)
         (w : Public.World) (inv : Invitation.t),
    Model.invitation_by_code_ci (Public.db w) code = Some inv ->
    acceptable form ->
    let typed := Public.or_empty (Public.form_password form) in
    let plex_user := Public.find_plex_user (Public.db w) inv code in
    exists new,
      Public.calls (fst (Public.password_prompt env Public.POST form code w))
      = Public.calls w ++ new
      /\ forall c, In c new ->
           (Py.truthy (Public.or_empty (Public.form_generate form)) = true
            \/ Py.strip typed = "" ->
            Public.call_password c = Public.generated_password env)
           /\ (Py.truthy (Public.or_empty (Public.form_generate form)) = false ->
               Py.strip typed <> "" ->
               Public.call_password c = typed)
           /\ (MediaServer.server_type (Public.call_server c) = "jellyfin"
               \/ MediaServer.server_type (Public.call_server c) = "emby" ->
               Public.call_email c = Public.NoEmail)
           /\ (MediaServer.server_type (Public.call_server c)
               = "audiobookshelf"
               \/ MediaServer.server_type (Public.call_server c) = "romm" ->
               Public.call_email c
               = Public.Email (Public.derived_email plex_user)).
Proof.
  intros env form code w inv Hfound Hacc typed plex_user.
  rewrite (password_prompt_post env form code w inv Hfound Hacc).
  cbn [fst]. unfold Public.finish. cbn [Public.calls].
  rewrite loop_sent_exact. eexists. split; [reflexivity|].
  intros c Hin. apply in_filter_map in Hin as (srv & _ & Hcall).
  apply call_for_some in Hcall as (Hsrv & _ & Hpw & _ & Hmail).
  rewrite Hsrv, Hpw. unfold chosen_password. fold typed.
  split; [|split; [|split]].
  - intros [Hgen | Hblank].
    + now rewrite Hgen.
    + rewrite Hblank, String.eqb_refl, orb_true_r. reflexivity.
  - intros Hgen Hnon. rewrite Hgen. simpl.
    destruct (String.eqb_spec (Py.strip typed) ""); [contradiction|reflexivity].
  - intros Hty. destruct Hmail as [[Hm _] | [_ Hother]]; [exact Hm|].
    exfalso.
    destruct Hty as [Hty|Hty], Hother as [Ho|Ho];
      rewrite Hty in Ho; discriminate.
  - intros Hty. destruct Hmail as [[_ Hother] | [Hm _]]; [|exact Hm].
    exfalso.
    destruct Hty as [Hty|Hty], Hother as [Ho|Ho];
      rewrite Hty in Ho; discriminate.
Qed.

Lemma prompt_calls_carry_password_and_email_witness :
  exists new,
    Public.calls (fst (Public.password_prompt Samples.env_up Public.POST
                         MoreSamples.form_generate "ABC123" Samples.world0))
    = Public.calls Samples.world0 ++ new
    /\ forall c, In c new ->
         (Py.truthy (Public.or_empty
                       (Public.form_generate MoreSamples.form_generate)) = true
          \/ Py.strip (Public.or_empty
                         (Public.form_password MoreSamples.form_generate)) = ""
          -> Public.call_password c
             = Public.generated_password Samples.env_up)
         /\ (Py.truthy (Public.or_empty
                          (Public.form_generate MoreSamples.form_generate))
             = false ->
             Py.strip (Public.or_empty
                         (Public.form_password MoreSamples.form_generate))
             <> "" ->
             Public.call_password c
             = Public.or_empty
                 (Public.form_password MoreSamples.form_generate))
         /\ (MediaServer.server_type (Public.call_server c) = "jellyfin"
             \/ MediaServer.server_type (Public.call_server c) = "emby" ->
             Public.call_email c = Public.NoEmail)
         /\ (MediaServer.server_type (Public.call_server c)
             = "audiobookshelf"
             \/ MediaServer.server_type (Public.call_server c) = "romm" ->
             Public.call_email c
             = Public.Email
                 (Public.derived_email
                    (Public.find_plex_user (Public.db Samples.world0)
                                           Samples.invitation "ABC123"))).
Proof.
  apply (prompt_calls_carry_password_and_email
           Samples.env_up MoreSamples.form_generate "ABC123" Samples.world0
           Samples.invitation).
  - reflexivity.
  - split; [reflexivity | vm_compute; discriminate].
Defined.

(** X3.  The rows an accepted POST stores.  [password_prompt] only
    appends User rows, at most one per attached server of a provisioned
    type; each new row carries the code as it came with the request, the
    derived username and e-mail, the id of one of those servers, and
    neither a password nor an expiry, whatever the invitation's
    duration. *)
Theorem prompt_rows_have_no_password_and_no_expiry :
  forall (env : Public.Env) (form : Public.Form) (code : string)
         (w : Public.World) (inv : Invitation.t),
    Model.invitation_by_code_ci (Public.db w) code = Some inv ->
    acceptable form ->
    let plex_user := Public.find_plex_user (Public.db w) inv code in
    let attached := Model.servers (Public.db w) inv in
    exists added,
      Model.users
        (Public.db (fst (Public.password_prompt env Public.POST form code w)))
      = Model.users (Public.db w) ++ added
      /\ (List.length added
          <= List.length (filter provisioned_type attached))%nat
      /\ Forall
           (fun u =>
              User.code u = code
              /\ User.username u = Public.derived_username plex_user
              /\ User.email u = Public.derived_email plex_user
              /\ User.expires u = None /\ User.password u = None
              /\ exists srv, In srv attached /\ provisioned_type srv = true
                             /\ User.server_id u
                                = Some (MediaServer.id srv))
           added.
Proof.
  intros env form code w inv Hfound Hacc plex_user attached.
  rewrite (password_prompt_post env form code w inv Hfound Hacc).
  cbn [fst]. unfold Public.finish. cbn [Public.db].
  destruct (loop_rows env inv code (chosen_password env form) plex_user
                      attached (Public.serve w) (serve_clean w))
    as (_ & added & Hu & Hlen & Hall).
  exists added. split; [exact Hu|]. split; [exact Hlen | exact Hall].
Qed.

Lemma prompt_rows_have_no_password_and_no_expiry_witness :
  exists added,
    Model.users
      (Public.db (fst (Public.password_prompt Samples.env_up Public.POST
                         Samples.form "abc123" Samples.world0)))
    = Model.users (Public.db Samples.world0) ++ added
    /\ (List.length added
        <= List.length
             (filter provisioned_type
                (Model.servers (Public.db Samples.world0)
                               Samples.invitation)))%nat
    /\ Forall
         (fun u =>
            User.code u = "abc123"
            /\ User.username u
               = Public.derived_username
                   (Public.find_plex_user (Public.db Samples.world0)
                                          Samples.invitation "abc123")
            /\ User.email u
               = Public.derived_email
                   (Public.find_plex_user (Public.db Samples.world0)
                                          Samples.invitation "abc123")
            /\ User.expires u = None /\ User.password u = None
            /\ exists srv,
                In srv (Model.servers (Public.db Samples.world0)
                                      Samples.invitation)
                /\ provisioned_type srv = true
                /\ User.server_id u = Some (MediaServer.id srv))
         added.
Proof.
  apply (prompt_rows_have_no_password_and_no_expiry
           Samples.env_up Samples.form "abc123" Samples.world0
           Samples.invitation).
  - reflexivity.
  - split; [reflexivity | vm_compute; discriminate].
Defined.

(** X4.  A ledger helper that raises does not undo the row.  When every
    client returns an id and every commit goes through but
    [mark_server_used] raises each time, an accepted POST still stores
    one row per attached server of a provisioned type, in attachment
    order, logs one error per such server, leaves the Invitation table as
    it was, and answers with the redirect to the wizard. *)
Theorem prompt_rows_survive_a_raising_ledger_helper :
  forall (env : Public.Env) (form : Public.Form) (code : string)
         (w : Public.World) (inv : Invitation.t),
    Model.invitation_by_code_ci (Public.db w) code = Some inv ->
    acceptable form ->
    (forall h c, Public.create_user env h c <> None) ->
    (forall us u, Public.commit_ok env us u = true) ->
    (forall i s t, Public.mark_server_used env i s t = None) ->
    let tried := filter provisioned_type (Model.servers (Public.db w) inv) in
    let out := Public.password_prompt env Public.POST form code w in
    snd out = Public.RedirectWizard code
    /\ Public.errors (fst out)
       = Public.errors w ++ map MediaServer.name tried
    /\ Model.invitations (Public.db (fst out))
       = Model.invitations (Public.db w)
    /\ exists added,
        Model.users (Public.db (fst out))
        = Model.users (Public.db w) ++ added
        /\ map User.server_id added
           = map (fun s => Some (MediaServer.id s)) tried.
Proof.
  intros env form code w inv Hfound Hacc Hcreate Hcommit Hmark tried out.
  subst out tried.
  rewrite (password_prompt_post env form code w inv Hfound Hacc).
  cbn [fst snd]. unfold Public.finish. cbn [Public.db Public.errors].
  destruct (loop_helper_raises env inv code (chosen_password env form)
              (Public.find_plex_user (Public.db w) inv code)
              (Model.servers (Public.db w) inv) Hcreate Hcommit Hmark
              (Public.serve w) (serve_clean w))
    as (_ & Hlog & Hinv & added & Hu & Hm).
  split; [reflexivity|]. split; [exact Hlog|]. split; [exact Hinv|].
  exists added. split; [exact Hu | exact Hm].
Qed.

Lemma prompt_rows_survive_a_raising_ledger_helper_witness :
  let out := Public.password_prompt MoreSamples.env_helper_raises Public.POST
               Samples.form "ABC123" Samples.world0 in
  snd out = Public.RedirectWizard "ABC123"
  /\ Public.errors (fst out)
     = Public.errors Samples.world0
       ++ map MediaServer.name
            (filter provisioned_type
               (Model.servers (Public.db Samples.world0) Samples.invitation))
  /\ Model.invitations (Public.db (fst out))
     = Model.invitations (Public.db Samples.world0)
  /\ exists added,
      Model.users (Public.db (fst out))
      = Model.users (Public.db Samples.world0) ++ added
      /\ map User.server_id added
         = map (fun s => Some (MediaServer.id s))
               (filter provisioned_type
                  (Model.servers (Public.db Samples.world0)
                                 Samples.invitation)).
Proof.
  apply (prompt_rows_survive_a_raising_ledger_helper
           MoreSamples.env_helper_raises Samples.form "ABC123"
           Samples.world0 Samples.invitation).
  - reflexivity.
  - split; [reflexivity | vm_compute; discriminate].
  - intros h c. simpl. discriminate.
  - intros us u. reflexivity.
  - intros i s t. reflexivity.
Defined.

(** X5.  An invitation with nothing to provision.  When no attached
    server has a provisioned type (only Plex, Komga or unknown types),
    an accepted POST calls no client, stores nothing, logs nothing, and
    still redirects to the wizard. *)
Theorem prompt_with_nothing_to_provision :
  forall (env : Public.Env) (form : Public.Form) (code : string)
         (w : Public.World) (inv : Invitation.t),
    Model.invitation_by_code_ci (Public.db w) code = Some inv ->
    acceptable form ->
    (forall srv, In srv (Model.servers (Public.db w) inv) ->
                 provisioned_type srv = false) ->
    Public.password_prompt env Public.POST form code w
    = (w, Public.RedirectWizard code).
Proof.
  intros env form code w inv Hfound Hacc Hnone.
  rewrite (password_prompt_post env form code w inv Hfound Hacc).
  rewrite loop_nothing_to_do by exact Hnone.
  now rewrite finish_serve.
Qed.

Lemma prompt_with_nothing_to_provision_witness :
  Public.password_prompt Samples.env_up Public.POST Samples.form "KOMGA1"
                         MoreSamples.world_komga
  = (MoreSamples.world_komga, Public.RedirectWizard "KOMGA1").
Proof.
  apply (prompt_with_nothing_to_provision
           Samples.env_up Samples.form "KOMGA1" MoreSamples.world_komga
           MoreSamples.plex_komga_invitation).
  - reflexivity.
  - split; [reflexivity | vm_compute; discriminate].
  - intros srv Hin. vm_compute in Hin.
    destruct Hin as [<- | [<- | []]]; reflexivity.
Defined.


(* ===================================================================== *)
(** * The invite page and the join submission                             *)
(* ===================================================================== *)

(** X6.  [join] touches the database only through the Plex OAuth
    handler, and runs it only for a code that is valid and whose landing
    server, the invitation's own or else the first server, is of type
    plex.  It then redirects to the password prompt exactly when, after
    the handler, a server that is not Plex is attached to the
    invitation, and to the wizard otherwise. *)
Theorem join_runs_oauth_only_for_a_plex_landing :
  forall (env : Public.Env) (now : Z) (d : Model.DB) (code : string)
         (token : option string),
    let out := Public.join env now d code token in
    (fst out <> d \/ snd out = Public.RedirectPasswordPrompt code token
     \/ snd out = Public.RedirectWizard code ->
     fst (Invites.is_invite_valid now d code) = true
     /\ exists inv srv,
         Model.invitation_by_code_ci d code = Some inv
         /\ Public.landing_server d inv = Some srv
         /\ MediaServer.server_type srv = "plex"
         /\ fst out = Public.handle_oauth_token env token code d
         /\ (snd out = Public.RedirectPasswordPrompt code token
             <-> exists s, In s (Model.servers (fst out) inv)
                           /\ MediaServer.server_type s <> "plex")
         /\ (snd out = Public.RedirectWizard code
             <-> forall s, In s (Model.servers (fst out) inv) ->
                           MediaServer.server_type s = "plex")).
Proof.
  intros env now d code token out. subst out. unfold Public.join.
  destruct (Invites.is_invite_valid now d code) as [valid msg].
  destruct valid; simpl;
    [|intros [H|[H|H]]; [congruence | discriminate | discriminate]].
  destruct (Model.invitation_by_code_ci d code) as [inv|]; simpl;
    [|intros [H|[H|H]]; [congruence | discriminate | discriminate]].
  destruct (Public.landing_server d inv) as [srv|] eqn:Eland; simpl;
    [|intros [H|[H|H]]; [congruence | discriminate | discriminate]].
  destruct (String.eqb_spec (MediaServer.server_type srv) "plex") as [Hplex|_].
  - intros _. split; [reflexivity|]. exists inv, srv.
    split; [reflexivity|]. split; [exact Eland|]. split; [exact Hplex|].
    set (d' := Public.handle_oauth_token env token code d).
    assert (Hextra : forall s,
      In s (filter (fun s => negb (String.eqb (MediaServer.server_type s)
                                              "plex"))
                   (Model.servers d' inv))
      <-> In s (Model.servers d' inv) /\ MediaServer.server_type s <> "plex").
    { intros s. rewrite filter_In, negb_true_iff.
      destruct (String.eqb_spec (MediaServer.server_type s) "plex");
        intuition congruence. }
    destruct (filter _ (Model.servers d' inv)) as [|s extra]; simpl.
    + split; [reflexivity|]. split; split.
      * discriminate.
      * intros [s Hs]. apply Hextra in Hs. destruct Hs.
      * intros _ s Hin.
        destruct (String.eqb_spec (MediaServer.server_type s) "plex")
          as [E|E]; [exact E|].
        exfalso. exact (proj2 (Hextra s) (conj Hin E)).
      * reflexivity.
    + split; [reflexivity|]. split; split.
      * intros _. exists s. apply Hextra. simpl. auto.
      * reflexivity.
      * discriminate.
      * intros Hall. exfalso.
        destruct (proj1 (Hextra s) (or_introl eq_refl)) as [Hin Hne].
        exact (Hne (Hall s Hin)).
  - destruct (Public.is_password_signup (MediaServer.server_type srv)); simpl;
      intros [H|[H|H]]; congruence || discriminate.
Qed.

Lemma join_runs_oauth_only_for_a_plex_landing_witness :
  let out := Public.join Samples.env_up 0 Samples.db0 "abc123"
                         (Some "token") in
  snd out = Public.RedirectPasswordPrompt "abc123" (Some "token")
  /\ fst (Invites.is_invite_valid 0 Samples.db0 "abc123") = true
  /\ fst out
     = Public.handle_oauth_token Samples.env_up (Some "token") "abc123"
                                 Samples.db0.
Proof.
  destruct (join_runs_oauth_only_for_a_plex_landing
              Samples.env_up 0 Samples.db0 "abc123" (Some "token")
              (or_intror (or_introl eq_refl)))
    as (Hvalid & inv & srv & _ & _ & _ & Hdb & _).
  split; [reflexivity|]. split; [exact Hvalid | exact Hdb].
Defined.

(** X7.  The invite page and the join submission disagree on a landing
    server that is neither Plex nor a password sign-up type.  For a
    valid code whose landing server is of type jellyfin, emby,
    audiobookshelf or romm both answer with the sign-up form of that
    type; when the landing server is of another type that is not plex
    (komga, say), or there is no server at all, the invite page shows the
    Plex login while the join submission answers "Configuration error.".
    The join submission leaves the database as it was in both cases. *)
Theorem invite_and_join_by_landing_type :
  forall (env : Public.Env) (now : Z) (d : Model.DB) (code : string)
         (token : option string) (inv : Invitation.t),
    fst (Invites.is_invite_valid now d code) = true ->
    Model.invitation_by_code_ci d code = Some inv ->
    let landing := option_map MediaServer.server_type
                              (Public.landing_server d inv) in
    (forall st, landing = Some st -> Public.is_password_signup st = true ->
       Public.invite now d code = Public.WelcomeJellyfin code (Some st)
       /\ Public.join env now d code token
          = (d, Public.WelcomeJellyfin code (Some st)))
    /\ (landing = None
        \/ (exists st, landing = Some st /\ st <> "plex"
                       /\ Public.is_password_signup st = false) ->
        Public.invite now d code = Public.PlexLogin code None
        /\ Public.join env now d code token
           = (d, Public.InvalidInvite "Configuration error.")).
Proof.
  intros env now d code token inv Hvalid Hfound landing. subst landing.
  unfold Public.invite, Public.join. rewrite Hfound.
  destruct (Invites.is_invite_valid now d code) as [valid msg].
  simpl in Hvalid. subst valid. simpl.
  destruct (Public.landing_server d inv) as [srv|]; simpl.
  - split.
    + intros st [= <-] Hsign. rewrite Hsign.
      destruct (String.eqb_spec (MediaServer.server_type srv) "plex") as [E|_];
        [rewrite E in Hsign; discriminate | auto].
    + intros [H | (st & [= <-] & Hne & Hsign)]; [discriminate|].
      rewrite Hsign.
      destruct (String.eqb_spec (MediaServer.server_type srv) "plex");
        [contradiction | auto].
  - split; [discriminate | auto].
Qed.

Lemma invite_and_join_by_landing_type_witness :
  Public.invite 0 MoreSamples.db_komga "komga2"
  = Public.PlexLogin "komga2" None
  /\ Public.join Samples.env_up 0 MoreSamples.db_komga "komga2" None
     = (MoreSamples.db_komga, Public.InvalidInvite "Configuration error.").
Proof.
  apply (invite_and_join_by_landing_type
           Samples.env_up 0 MoreSamples.db_komga "komga2" None
           MoreSamples.komga_invitation).
  - reflexivity.
  - reflexivity.
  - right. exists "komga".
    split; [reflexivity|]. split; [discriminate | reflexivity].
Defined.

(* ===================================================================== *)
(** * Deleting a server and the invitations that named it                 *)
(* ===================================================================== *)

Section DeletedServer.
Import Model.

Lemma find_filter_out {A : Type} (p q : A -> bool) (l : list A) :
  (forall a, p a = true -> q a = false) ->
  find p (filter q l) = None.
Proof.
  intros Hpq. induction l as [|a l IH]; simpl; [reflexivity|].
  destruct (q a) eqn:Eq; simpl; [|exact IH].
  destruct (p a) eqn:Ep; [|exact IH].
  rewrite (Hpq a Ep) in Eq. discriminate.
Qed.

Lemma filter_filter_map {A B : Type} (f g : A -> option B) (q : B -> bool)
      (l : list A) :
  (forall a, g a = match f a with
                   | Some b => if q b then Some b else None
                   | None => None
                   end) ->
  filter_map g l = filter q (filter_map f l).
Proof.
  intros Hg. induction l as [|a l IH]; simpl; [reflexivity|].
  rewrite Hg. destruct (f a) as [b|]; simpl; [|exact IH].
  destruct (q b); simpl; now rewrite IH.
Qed.

Lemma find_some_pred {A : Type} (p : A -> bool) (l : list A) (a : A) :
  find p l = Some a -> p a = true.
Proof. intros H. now apply find_some in H. Qed.

End DeletedServer.

(** X8.  What [delete_server] leaves behind.  When the argument is the
    id of a server, written so that the database matches it against that
    id alone, the Library rows are all kept, those of the deleted server
    included, and so are the Invitation rows; an invitation that named
    the server keeps naming it, and from then on lands on the first
    remaining server; the deleted server drops out of the servers
    attached to any invitation, the others stay attached in order. *)
Theorem delete_server_orphans_libraries_and_invitations :
  forall (id_matches : Z -> string -> bool) (d : Model.DB) (s : string)
         (n : Z),
    Py.int s = Some n ->
    (forall m, In m (Model.media_servers d) ->
               id_matches (MediaServer.id m) s = (MediaServer.id m =? n)) ->
    let d' := fst (Servers.delete_server id_matches (Some s) d) in
    Model.library_rows d' = Model.library_rows d
    /\ Model.invitations d' = Model.invitations d
    /\ Model.media_servers d'
       = filter (fun m => negb (MediaServer.id m =? n)) (Model.media_servers d)
    /\ (forall inv, Invitation.server_id inv = Some n ->
          Public.landing_server d' inv = hd_error (Model.media_servers d'))
    /\ (forall inv,
          Model.servers d' inv
          = filter (fun m => negb (MediaServer.id m =? n))
                   (Model.servers d inv)).
Proof.
  intros id_matches d s n Hint Hmatch d'. subst d'.
  rewrite (delete_server_with_id id_matches s n d Hint). cbn [fst].
  assert (Hms : filter (fun m => negb (id_matches (MediaServer.id m) s))
                       (Model.media_servers d)
                = filter (fun m => negb (MediaServer.id m =? n))
                         (Model.media_servers d)).
  { apply filter_ext_in. intros m Hin. now rewrite Hmatch. }
  cbn [Model.library_rows Model.media_servers Model.invitations]. rewrite Hms.
  split; [reflexivity|]. split; [reflexivity|]. split; [reflexivity|]. split.
  - intros inv Hsid. unfold Public.landing_server, Model.server,
      Model.server_by_id. rewrite Hsid. cbn [Model.media_servers].
    rewrite find_filter_out; [reflexivity|].
    intros m Hm. now rewrite Hm.
  - intros inv. unfold Model.servers.
    apply filter_filter_map. intros sid.
    unfold Model.server_by_id. cbn [Model.media_servers].
    destruct (Z.eqb_spec sid n) as [->|Hne].
    + rewrite find_filter_out by (intros m Hm; now rewrite Hm).
      destruct (find _ (Model.media_servers d)) as [m|] eqn:Ef;
        [|reflexivity].
      apply find_some_pred in Ef. now rewrite Ef.
    + rewrite find_filter_agree.
      * destruct (find _ (Model.media_servers d)) as [m|] eqn:Ef;
          [|reflexivity].
        apply find_some_pred in Ef. apply Z.eqb_eq in Ef.
        destruct (Z.eqb_spec (MediaServer.id m) n); [lia | reflexivity].
      * intros m Hm. apply Z.eqb_eq in Hm.
        destruct (Z.eqb_spec (MediaServer.id m) n); [lia | reflexivity].
Qed.

Lemma delete_server_orphans_libraries_and_invitations_witness :
  let d' := fst (Servers.delete_server Servers.decimal_id_matches
                   (Some "1") Samples.db0) in
  Model.library_rows d' = Model.library_rows Samples.db0
  /\ Model.invitations d' = Model.invitations Samples.db0
  /\ Model.media_servers d'
     = filter (fun m => negb (MediaServer.id m =? 1))
              (Model.media_servers Samples.db0)
  /\ (forall inv, Invitation.server_id inv = Some 1 ->
        Public.landing_server d' inv = hd_error (Model.media_servers d'))
  /\ (forall inv,
        Model.servers d' inv
        = filter (fun m => negb (MediaServer.id m =? 1))
                 (Model.servers Samples.db0 inv)).
Proof.
  apply (delete_server_orphans_libraries_and_invitations
           Servers.decimal_id_matches Samples.db0 "1" 1).
  - reflexivity.
  - intros m Hin. vm_compute in Hin.
    destruct Hin as [<- | [<- | [<- | []]]]; reflexivity.
Defined.


(* ===================================================================== *)
(** * RomM's paging loop when the upstream misbehaves                     *)
(* ===================================================================== *)

Section BrokenPaging.
Import Model.

Lemma fetch_full_pages (get : Z -> Z -> Romm.page) (take : Z)
      (pages : list (list RommUser.t)) :
  forall fuel skip acc,
    full_pages get skip take pages ->
    Romm.fetch (List.length pages + fuel) get skip take acc
    = Romm.fetch fuel get (skip + take * Z.of_nat (List.length pages)) take
                 (acc ++ List.concat pages).
Proof.
  induction pages as [|batch rest IH]; intros fuel skip acc Hfull.
  - simpl. rewrite app_nil_r. f_equal. lia.
  - destruct Hfull as (Hget & Hlen & Hrest).
    cbn [List.length Nat.add Romm.fetch]. rewrite Hget.
    destruct (Z.of_nat (List.length batch) <? take) eqn:E;
      [apply Z.ltb_lt in E; lia|].
    rewrite (IH fuel _ _ Hrest). cbn [List.concat].
    rewrite <- app_assoc. f_equal.
    rewrite Nat2Z.inj_succ. lia.
Qed.

Lemma fetch_after_full_pages (get : Z -> Z -> Romm.page)
      (pages : list (list RommUser.t)) (fuel : nat) :
  full_pages get 0 100 pages ->
  (List.length pages < fuel)%nat ->
  Romm.fetch fuel get 0 100 []
  = match get (100 * Z.of_nat (List.length pages)) 100 with
    | Romm.PageFailed => Some None
    | Romm.PageUnexpected => Some (Some (List.concat pages))
    | Romm.PageUsers batch =>
        if Z.of_nat (List.length batch) <? 100
        then Some (Some (List.concat pages ++ batch))
        else Romm.fetch (fuel - S (List.length pages)) get
                        (100 * Z.of_nat (List.length pages) + 100) 100
                        (List.concat pages ++ batch)
    end.
Proof.
  intros Hfull Hfuel.
  replace fuel with (List.length pages + S (fuel - S (List.length pages)))%nat
    at 1 by lia.
  rewrite (fetch_full_pages get 100 pages _ 0 [] Hfull).
  cbn [Romm.fetch app Z.add]. reflexivity.
Qed.

Lemma fetch_never_ends (get : Z -> Z -> Romm.page) (take : Z) :
  (forall skip, exists batch,
      get skip take = Romm.PageUsers batch
      /\ take <= Z.of_nat (List.length batch)) ->
  forall fuel skip acc, Romm.fetch fuel get skip take acc = None.
Proof.
  intros Hfull. induction fuel as [|fuel IH]; intros skip acc; [reflexivity|].
  cbn [Romm.fetch]. destruct (Hfull skip) as (batch & -> & Hlen).
  destruct (Z.of_nat (List.length batch) <? take) eqn:E;
    [apply Z.ltb_lt in E; lia | apply IH].
Qed.



End BrokenPaging.

(** X9.  A failing page discards what the earlier pages brought.  When
    RomM's upstream serves any number of full pages and then a request
    or its decoding raises, [list_users] returns the empty list and
    leaves the database as it was: no row is added, refreshed or
    removed. *)
Theorem romm_list_users_gives_up_on_a_failing_page :
  forall (get : Z -> Z -> Romm.page) (pages : list (list RommUser.t))
         (fuel : nat) (self_server_id : option Z) (d : Model.DB),
    full_pages get 0 100 pages ->
    get (100 * Z.of_nat (List.length pages)) 100 = Romm.PageFailed ->
    (List.length pages < fuel)%nat ->
    Romm.list_users fuel get self_server_id d = Some (Http.Ok (d, [])).
Proof.
  intros get pages fuel sid d Hfull Hfail Hfuel. unfold Romm.list_users.
  rewrite (fetch_after_full_pages get pages fuel Hfull Hfuel), Hfail.
  reflexivity.
Qed.

Lemma romm_list_users_gives_up_on_a_failing_page_witness :
  Romm.list_users 2 PagingSamples.second_page_fails (Some 3) Samples.db0
  = Some (Http.Ok (Samples.db0, [])).
Proof.
  apply (romm_list_users_gives_up_on_a_failing_page
           PagingSamples.second_page_fails [PagingSamples.hundred]).
  - split; [reflexivity|]. split; [vm_compute; discriminate | exact I].
  - reflexivity.
  - simpl. lia.
Defined.



(** X11.  The paging loop has no bound of its own.  Against an upstream
    that answers every request with at least a hundred users (one that
    ignores skip and take, say), the loop of RomM's [list_users] never
    reaches its exit: no number of iterations yields a result. *)
Theorem romm_list_users_never_ends_on_full_pages :
  forall (get : Z -> Z -> Romm.page) (self_server_id : option Z)
         (d : Model.DB),
    (forall skip, exists batch,
        get skip 100 = Romm.PageUsers batch
        /\ 100 <= Z.of_nat (List.length batch)) ->
    forall fuel, Romm.list_users fuel get self_server_id d = None.
Proof.
  intros get sid d Hfull fuel. unfold Romm.list_users.
  now rewrite (fetch_never_ends get 100 Hfull).
Qed.

Lemma romm_list_users_never_ends_on_full_pages_witness :
  Romm.list_users 1000 PagingSamples.same_page_forever (Some 3) Samples.db0
  = None.
Proof.
  apply (romm_list_users_never_ends_on_full_pages
           PagingSamples.same_page_forever (Some 3) Samples.db0).
  intros skip. exists PagingSamples.hundred.
  split; [reflexivity | vm_compute; discriminate].
Defined.


(* ===================================================================== *)
(** * What RomM's upsert loop writes                                      *)
(* ===================================================================== *)

Section RommRefresh.
Import Model.

Variable self_server_id : option Z.

Local Abbreviation row_of k := (Romm.is_row k self_server_id).
Local Abbreviation upsert := (Romm.upsert self_server_id).

Lemma dict_set_in_self {V : Type} (k : string) (v : V)
      (d : list (string * V)) :
  In (k, v) (Romm.dict_set k v d).
Proof.
  induction d as [|[k0 v0] d IH]; simpl; [auto|].
  destruct (String.eqb_spec k0 k) as [->|_]; simpl; auto.
Qed.

Lemma dict_set_in_other {V : Type} (k k' : string) (v v' : V)
      (d : list (string * V)) :
  k' <> k -> In (k, v) d -> In (k, v) (Romm.dict_set k' v' d).
Proof.
  intros Hne. induction d as [|[k0 v0] d IH]; simpl; [intros []|].
  destruct (String.eqb_spec k0 k') as [->|_]; simpl.
  - intros [[= -> ->]|Hin]; [congruence | auto].
  - intros [Heq|Hin]; auto.
Qed.

(** An entry of the dict survives the users that come after it under
    other keys. *)
Lemma remote_by_id_keeps (k : string) (ru : RommUser.t)
      (rest : list RommUser.t) :
  (forall r, In r rest -> Romm.remote_key r <> Some k) ->
  forall acc by_id,
    In (k, ru) acc ->
    Romm.remote_by_id_from acc rest = Some by_id ->
    In (k, ru) by_id.
Proof.
  induction rest as [|r rest IH]; intros Hother acc by_id Hin Hdict.
  - simpl in Hdict. now inversion Hdict; subst.
  - simpl in Hdict. destruct (Romm.remote_key r) as [k'|] eqn:Ek;
      [|discriminate].
    apply (IH (fun x Hx => Hother x (or_intror Hx)) _ _) in Hdict;
      [exact Hdict|].
    apply dict_set_in_other; [|exact Hin].
    intros ->. apply (Hother r); [simpl; auto | exact Ek].
Qed.

(** The dict holds, under each key, the last user of that key. *)
Lemma remote_by_id_last (k : string) (ru : RommUser.t)
      (before after : list RommUser.t) :
  Romm.remote_key ru = Some k ->
  (forall r, In r after -> Romm.remote_key r <> Some k) ->
  forall acc by_id,
    Romm.remote_by_id_from acc (before ++ ru :: after) = Some by_id ->
    In (k, ru) by_id.
Proof.
  intros Hkey Hother. induction before as [|r before IH];
    intros acc by_id Hdict; simpl in Hdict.
  - rewrite Hkey in Hdict.
    apply (remote_by_id_keeps k ru after Hother _ _ (dict_set_in_self k ru acc)
                              Hdict).
  - destruct (Romm.remote_key r); [|discriminate]. exact (IH _ _ Hdict).
Qed.

(** A row known under a key stays the first row of that key and is
    refreshed once. *)
Lemma upsert_loop_first (by_id : list (string * RommUser.t)) :
  NoDup (map fst by_id) ->
  forall us k ru u0,
    In (k, ru) by_id ->
    find (row_of k) us = Some u0 ->
    find (row_of k) (fold_left upsert by_id us) = Some (Romm.refreshed ru u0).
Proof.
  induction by_id as [|[k0 ru0] by_id IH]; intros Hnd us k ru u0 Hin Hf;
    [contradiction|].
  inversion Hnd as [|? ? Hnotin Hnd']; subst. cbn [fold_left].
  destruct Hin as [[= -> ->]|Hin].
  - rewrite (upsert_loop_other self_server_id by_id k Hnotin).
    unfold Romm.upsert.
    destruct (Romm.update_first (row_of k) (Romm.refreshed ru) us)
      as [us'|] eqn:E.
    + apply update_first_find in E as [a [Ha Hf']]; [|intros; assumption].
      congruence.
    + apply update_first_none in E. congruence.
  - apply (IH Hnd' _ k ru u0 Hin).
    rewrite (upsert_other self_server_id us k k0 ru0); [exact Hf|].
    intros ->. apply Hnotin. apply in_map_iff. exists (k0, ru). auto.
Qed.

(** A key unknown on this server gets a fresh placeholder row. *)
Lemma upsert_loop_fresh (by_id : list (string * RommUser.t)) :
  NoDup (map fst by_id) ->
  forall us k ru,
    In (k, ru) by_id ->
    find (row_of k) us = None ->
    exists us1,
      find (row_of k) (fold_left upsert by_id us)
      = Some (Romm.new_row us1 k ru self_server_id).
Proof.
  induction by_id as [|[k0 ru0] by_id IH]; intros Hnd us k ru Hin Hf;
    [contradiction|].
  inversion Hnd as [|? ? Hnotin Hnd']; subst. cbn [fold_left].
  destruct Hin as [[= -> ->]|Hin].
  - exists us. rewrite (upsert_loop_other self_server_id by_id k Hnotin).
    unfold Romm.upsert.
    destruct (Romm.update_first (row_of k) (Romm.refreshed ru) us)
      as [us'|] eqn:E.
    + apply update_first_find in E as [a [Ha _]]; [|intros; assumption].
      congruence.
    + apply find_app_hit; [exact Hf|].
      apply (new_row_settled self_server_id).
  - apply (IH Hnd' _ k ru Hin).
    rewrite (upsert_other self_server_id us k k0 ru0); [exact Hf|].
    intros ->. apply Hnotin. apply in_map_iff. exists (k0, ru). auto.
Qed.

Lemma find_row_in_server (k : string) (d : DB) (u : User.t) :
  find (row_of k) (users d) = Some u ->
  In u (Romm.users_of_server self_server_id d).
Proof.
  intros Hf. apply find_some in Hf as [Hin Hrow].
  unfold Romm.users_of_server. apply filter_In. split; [exact Hin|].
  unfold Romm.is_row in Hrow. now apply andb_prop in Hrow as [_ Hs].
Qed.

End RommRefresh.

(** X12.  What RomM's [list_users] writes for an upstream user.  Take
    the last upstream user of a key (its id, or its username when the id
    is missing or zero).  After the call the first row of that key on this
    server is among the rows returned.  If such a row existed before, it
    is that row with the upstream username and e-mail written over its
    own where upstream gives them, its id, code, expiry and password
    kept.  If none existed, it is a new row with the placeholder code and
    password "romm", the username "romm-user" and the e-mail "" standing
    in for what upstream does not give. *)
Theorem romm_list_users_refreshes_or_inserts :
  forall (self_server_id : option Z) (d : Model.DB)
         (before after : list RommUser.t) (ru : RommUser.t) (k : string)
         (by_id : list (string * RommUser.t)),
    let remote := before ++ ru :: after in
    Romm.remote_by_id remote = Some by_id ->
    Romm.remote_key ru = Some k ->
    (forall r, In r after -> Romm.remote_key r <> Some k) ->
    exists d' rows u,
      Romm.list_users (S (List.length remote)) (Romm.paged remote)
                      self_server_id d
      = Some (Http.Ok (d', rows))
      /\ find (Romm.is_row k self_server_id) (Model.users d') = Some u
      /\ In u rows
      /\ (forall u0,
            find (Romm.is_row k self_server_id) (Model.users d) = Some u0 ->
            User.id u = User.id u0 /\ User.code u = User.code u0
            /\ User.expires u = User.expires u0
            /\ User.password u = User.password u0
            /\ User.username u
               = match RommUser.username ru with
                 | Some n => n
                 | None => User.username u0
                 end
            /\ User.email u
               = match RommUser.email ru with
                 | Some e => e
                 | None => User.email u0
                 end)
      /\ (find (Romm.is_row k self_server_id) (Model.users d) = None ->
          User.code u = "romm" /\ User.password u = Some "romm"
          /\ User.expires u = None
          /\ User.username u
             = match RommUser.username ru with
               | Some n => n
               | None => "romm-user"
               end
          /\ User.email u
             = match RommUser.email ru with
               | Some e => e
               | None => Some ""
               end).
Proof.
  intros sid d before after ru k by_id remote Hdict Hkey Hother.
  unfold Romm.list_users. rewrite fetch_paged_all, Hdict.
  destruct (remote_by_id_nodup remote [] by_id (NoDup_nil _) Hdict)
    as [Hnd _].
  pose proof (remote_by_id_last k ru before after Hkey Hother [] by_id Hdict)
    as Hin.
  assert (Hk : In k (map fst by_id)).
  { apply in_map_iff. exists (k, ru). auto. }
  assert (Hfilter : forall us,
    find (Romm.is_row k sid) (filter (Romm.kept sid by_id) us)
    = find (Romm.is_row k sid) us).
  { intros us. apply find_filter_agree. intros a.
    now apply (row_of_kept sid by_id k). }
  destruct (find (Romm.is_row k sid) (Model.users d)) as [u0|] eqn:Ef.
  - pose proof (upsert_loop_first sid by_id Hnd _ k ru u0 Hin Ef) as Hfirst.
    eexists. eexists. exists (Romm.refreshed ru u0).
    split; [reflexivity|].
    assert (Hfound : find (Romm.is_row k sid)
                       (Model.users
                          (Model.with_users d
                             (Romm.sync sid by_id (Model.users d))))
                     = Some (Romm.refreshed ru u0)).
    { cbn [Model.with_users Model.users]. unfold Romm.sync.
      now rewrite Hfilter. }
    split; [exact Hfound|].
    split; [exact (find_row_in_server sid k _ _ Hfound)|].
    split; [|discriminate].
    intros u1 [= <-]. simpl. repeat split; reflexivity.
  - destruct (upsert_loop_fresh sid by_id Hnd _ k ru Hin Ef) as [us1 Hnew].
    eexists. eexists. exists (Romm.new_row us1 k ru sid).
    split; [reflexivity|].
    assert (Hfound : find (Romm.is_row k sid)
                       (Model.users
                          (Model.with_users d
                             (Romm.sync sid by_id (Model.users d))))
                     = Some (Romm.new_row us1 k ru sid)).
    { cbn [Model.with_users Model.users]. unfold Romm.sync.
      now rewrite Hfilter. }
    split; [exact Hfound|].
    split; [exact (find_row_in_server sid k _ _ Hfound)|].
    split; [discriminate|].
    intros _. simpl. repeat split; reflexivity.
Qed.


Lemma romm_list_users_refreshes_or_inserts_witness :
  exists d' rows u,
    Romm.list_users 3 (Romm.paged [RommSamples.david; Samples.dave])
                    (Some 3) RommSamples.db_dave
    = Some (Http.Ok (d', rows))
    /\ find (Romm.is_row "5" (Some 3)) (Model.users d') = Some u
    /\ In u rows
    /\ (forall u0,
          find (Romm.is_row "5" (Some 3)) (Model.users RommSamples.db_dave)
          = Some u0 ->
          User.id u = User.id u0 /\ User.code u = User.code u0
          /\ User.expires u = User.expires u0
          /\ User.password u = User.password u0
          /\ User.username u
             = match RommUser.username Samples.dave with
               | Some n => n
               | None => User.username u0
               end
          /\ User.email u
             = match RommUser.email Samples.dave with
               | Some e => e
               | None => User.email u0
               end)
    /\ (find (Romm.is_row "5" (Some 3)) (Model.users RommSamples.db_dave)
        = None ->
        User.code u = "romm" /\ User.password u = Some "romm"
        /\ User.expires u = None
        /\ User.username u
           = match RommUser.username Samples.dave with
             | Some n => n
             | None => "romm-user"
             end
        /\ User.email u
           = match RommUser.email Samples.dave with
             | Some e => e
             | None => Some ""
             end).
Proof.
  apply (romm_list_users_refreshes_or_inserts
           (Some 3) RommSamples.db_dave [RommSamples.david] []
           Samples.dave "5" [("5", Samples.dave)]).
  - reflexivity.
  - reflexivity.
  - intros r [].
Defined.


(* ===================================================================== *)
(** * A join that succeeds                                                *)
(* ===================================================================== *)

Section JoinSuccess.
Import Model Http Client.

Lemma guarded_true (label : string) (r : World * bool) :
  snd (guarded label r) = (true, "") ->
  snd r = true /\ fst (guarded label r) = fst r.
Proof.
  destruct r as [w [|]]; simpl; [auto | discriminate].
Qed.

Lemma mark_used_done (env : Env) (s s' : Session) (inv : Invitation.t)
      (new_user : User.t) :
  mark_used env s inv new_user = (s', true) ->
  working s' = committed s'
  /\ users (committed s') = users (working s)
  /\ exists inv' sid tbl,
      mark_server_used env inv' sid tbl = Some (invitations (committed s'))
      /\ Invitation.used_by inv' = Some (User.id new_user)
      /\ Invitation.code inv' = Invitation.code inv.
Proof.
  unfold mark_used.
  destruct (mark_server_used env _ _ _) as [tbl|] eqn:E;
    intros H; inversion H; subst; clear H.
  split; [reflexivity|]. split; [reflexivity|].
  do 3 eexists. split; [exact E|]. split; reflexivity.
Qed.

Lemma add_and_commit_row (env : Env) (s s' : Session) (token : json)
      (row : Z -> string -> User.t) (new_user : User.t) :
  add_and_commit env s token row = (s', Some new_user) ->
  exists tok, db_text token = Some tok
              /\ new_user = row (next_user_id (users (working s))) tok.
Proof.
  unfold add_and_commit. destruct (db_text token) as [tok|].
  - destruct (commit_ok env _ _); intros H; inversion H; subst.
    exists tok. auto.
  - intros H. inversion H.
Qed.

End JoinSuccess.

(** X13.  What a successful RomM [join] has done.  Whenever
    [RommClient.join] answers [(True, "")], the checks passed and the
    remote creation returned an id; exactly one User row was added and
    committed, with the username, e-mail and code of the request, the
    password as it was typed, the id as token, and the server and the
    expiry of the invitation found under exactly that code, not the
    server of the client; one notification was fired, no error logged,
    and nothing is left pending.  When no invitation carries exactly
    that code (the code differs in case from the stored one), the row has
    neither server nor expiry and the Invitation table is as it was. *)
Theorem romm_join_success_stores_one_row :
  forall (env : Client.Env) (self_server_id : option Z) (w : Client.World)
         (username password confirm email code : string),
    let out := Romm.join env self_server_id w username password confirm
                         email code in
    let d := Model.working (Client.session w) in
    let w' := fst out in
    snd out = (true, "") ->
    Client.prechecks env d self_server_id username password confirm email
                     code = None
    /\ (exists new_user token,
          Model.users (Model.committed (Client.session w'))
          = Model.users d ++ [new_user]
          /\ snd (Romm.create_user (Client.http env) (Client.requests w)
                                   username password (Some email))
             = Http.Ok token
          /\ Http.db_text token = Some (User.token new_user)
          /\ User.username new_user = username
          /\ User.email new_user = Some email
          /\ User.code new_user = code
          /\ User.password new_user = Some password
          /\ match Model.invitation_by_code d code with
             | Some inv =>
                 User.server_id new_user = Client.server_id_of d inv
                 /\ Client.expiry env (Invitation.duration inv)
                    = Http.Ok (User.expires new_user)
             | None =>
                 User.server_id new_user = None
                 /\ User.expires new_user = None
                 /\ Model.invitations (Model.committed (Client.session w'))
                    = Model.invitations d
             end)
    /\ Client.requests w'
       = fst (Romm.create_user (Client.http env) (Client.requests w)
                               username password (Some email))
    /\ Client.notifications w'
       = Client.notifications w
         ++ [String.append "User "
               (String.append username " has joined your server! 🎉")]
    /\ Client.errors w' = Client.errors w
    /\ clean (Client.session w').
Proof.
  intros env sid w username password confirm email code out d w'.
  subst out d w'. unfold Romm.join.
  destruct (Client.prechecks env _ sid username password confirm email code)
    as [msg|]; [simpl; discriminate|].
  intros Hok. apply guarded_true in Hok as [Hret Hfst]. rewrite Hfst.
  clear Hfst. split; [reflexivity|].
  revert Hret. unfold Romm.join_body.
  destruct (Romm.create_user _ _ _ _ _) as [sent [user_id|]];
    [|simpl; discriminate].
  cbn [fst snd Client.with_requests Client.session].
  destruct (Model.invitation_by_code _ code) as [inv|] eqn:Einv.
  - destruct (Client.expiry env (Invitation.duration inv)) as [expires|];
      [|simpl; discriminate].
    destruct (Client.add_and_commit env _ _ _) as [s [new_user|]] eqn:Eadd;
      [|simpl; discriminate].
    pose proof (add_and_commit_row _ _ _ _ _ _ Eadd) as (tok & Htok & Hrow).
    apply add_and_commit_done in Eadd as [_ ->].
    destruct (Client.mark_used env _ inv new_user) as [s' [|]] eqn:Emark;
      [|simpl; discriminate].
    apply mark_used_done in Emark as (Hclean & Hus & _).
    intros _. cbn [fst Client.notify Client.with_session Client.session
                   Client.requests Client.notifications Client.errors].
    split; [|repeat split; auto].
    exists new_user, user_id. rewrite Hus. subst new_user. simpl.
    rewrite Htok. repeat split; reflexivity.
  - cbn [Client.expiry].
    destruct (Client.add_and_commit env _ _ _) as [s [new_user|]] eqn:Eadd;
      [|simpl; discriminate].
    pose proof (add_and_commit_row _ _ _ _ _ _ Eadd) as (tok & Htok & Hrow).
    apply add_and_commit_done in Eadd as [_ ->].
    intros _. cbn [fst Client.notify Client.with_session Client.session
                   Client.requests Client.notifications Client.errors].
    split; [|repeat split; auto].
    exists new_user, user_id. subst new_user. simpl.
    rewrite Htok. repeat split; reflexivity.
Qed.


Lemma romm_join_success_stores_one_row_witness :
  let out := Romm.join JoinSamples.env_romm (Some 3) Samples.client_world
                       "dave" "password1" "password1" "dave@example.com"
                       "ROMM42" in
  snd out = (true, "")
  /\ Model.users (Model.committed (Client.session (fst out)))
     = [User.mk 1 "7" "dave" (Some "dave@example.com") "ROMM42" None
                (Some "password1") (Some 3)]
  /\ clean (Client.session (fst out)).
Proof.
  destruct (romm_join_success_stores_one_row
              JoinSamples.env_romm (Some 3) Samples.client_world
              "dave" "password1" "password1" "dave@example.com" "ROMM42"
              eq_refl)
    as (_ & _ & _ & _ & _ & Hclean).
  split; [reflexivity|]. split; [reflexivity | exact Hclean].
Defined.


(* ===================================================================== *)
(** * Komga's library grants                                              *)
(* ===================================================================== *)

Section Grants.
Import Model Http Client.

Variable v : vendor.
Variable user_id : json.

Local Abbreviation put := (PutSharedLibrary user_id).

Lemma grants_prefix (library_ids : list string) :
  forall sent, exists n,
    (n <= List.length library_ids)%nat
    /\ Komga._set_library_access v sent user_id library_ids
       = sent ++ map put (firstn n library_ids).
Proof.
  induction library_ids as [|l ls IH]; intros sent.
  - exists 0%nat. simpl. now rewrite app_nil_r.
  - cbn [Komga._set_library_access].
    destruct (v sent (put l)).
    + destruct (IH (sent ++ [put l])) as (n & Hn & ->).
      exists (S n). simpl. rewrite <- app_assoc. split; [lia | reflexivity].
    + exists 1%nat. simpl. split; [lia | reflexivity].
    + exists 1%nat. simpl. split; [lia | reflexivity].
Qed.

Lemma grants_all (library_ids : list string) :
  grants_accepted v ->
  forall sent,
    Komga._set_library_access v sent user_id library_ids
    = sent ++ map put library_ids.
Proof.
  intros Hacc. induction library_ids as [|l ls IH]; intros sent.
  - simpl. now rewrite app_nil_r.
  - cbn [Komga._set_library_access]. pose proof (Hacc sent user_id l) as H.
    destruct (v sent (put l)); [|contradiction|contradiction].
    rewrite IH. simpl. now rewrite <- app_assoc.
Qed.

Lemma grants_stop (before after : list string) (library_id : string) :
  always_refused v (put library_id) ->
  forall sent, exists n,
    (n <= S (List.length before))%nat
    /\ Komga._set_library_access v sent user_id
                                 (before ++ library_id :: after)
       = sent ++ map put (firstn n (before ++ library_id :: after)).
Proof.
  intros Hrefused. induction before as [|b before IH]; intros sent.
  - exists 1%nat. cbn [app Komga._set_library_access].
    pose proof (Hrefused sent) as H.
    destruct (v sent (put library_id)); [contradiction| |];
      (split; [simpl; lia | reflexivity]).
  - cbn [app Komga._set_library_access].
    destruct (v sent (put b)).
    + destruct (IH (sent ++ [put b])) as (n & Hn & ->).
      exists (S n). simpl. rewrite <- app_assoc.
      split; [lia | reflexivity].
    + exists 1%nat. simpl. split; [lia | reflexivity].
    + exists 1%nat. simpl. split; [lia | reflexivity].
Qed.

End Grants.

(** X14.  Komga's library grants stop at the first refusal.
    [_set_library_access] sends PUT requests only, for the library ids
    in their order and without skipping any: what it sends is the grants
    of a prefix of the list.  When the vendor accepts every grant the
    prefix is the whole list.  When the vendor refuses the grant of one
    library, no library after it in the list is asked for, even one the
    vendor would have granted. *)
Theorem komga_grants_stop_at_the_first_refusal :
  forall (v : Http.vendor) (sent : list Http.Request) (user_id : Http.json)
         (library_ids : list string),
    (exists n,
        (n <= List.length library_ids)%nat
        /\ Komga._set_library_access v sent user_id library_ids
           = sent ++ map (Http.PutSharedLibrary user_id)
                         (firstn n library_ids))
    /\ (grants_accepted v ->
        Komga._set_library_access v sent user_id library_ids
        = sent ++ map (Http.PutSharedLibrary user_id) library_ids)
    /\ (forall before library_id after,
          library_ids = before ++ library_id :: after ->
          always_refused v (Http.PutSharedLibrary user_id library_id) ->
          exists n,
            (n <= S (List.length before))%nat
            /\ Komga._set_library_access v sent user_id library_ids
               = sent ++ map (Http.PutSharedLibrary user_id)
                             (firstn n library_ids)).
Proof.
  intros v sent user_id library_ids. split; [apply grants_prefix|].
  split; [intros Hacc; now apply grants_all|].
  intros before library_id after -> Hrefused. now apply grants_stop.
Qed.

(** X15.  The libraries a Komga invitation grants.  Every granted id is
    the external id of a Library row of the invitation's own server.
    When the invitation names libraries, the grants are the named ones on
    that server, enabled or not, and nothing else: if all the named ones
    belong to other servers nothing is granted.  When it names none, the
    grants are the enabled libraries of that server. *)
Theorem komga_grants_stay_on_the_invitation_server :
  forall (d : Model.DB) (inv : Invitation.t),
    let sid := Client.server_id_of d inv in
    let on_server lib := Model.opt_Z_eqb (Library.server_id lib) sid = true in
    (forall x, In x (Komga.granted_libraries d inv) ->
       exists lib, In lib (Model.library_rows d)
                   /\ Library.external_id lib = x /\ on_server lib)
    /\ (Model.libraries d inv <> [] ->
        forall x, In x (Komga.granted_libraries d inv) <->
          exists lib, In lib (Model.libraries d inv)
                      /\ Library.external_id lib = x /\ on_server lib)
    /\ (Model.libraries d inv = [] ->
        forall x, In x (Komga.granted_libraries d inv) <->
          exists lib, In lib (Model.library_rows d)
                      /\ Library.external_id lib = x
                      /\ Library.enabled lib = true /\ on_server lib).
Proof.
  intros d inv sid on_server. subst sid on_server. cbv beta.
  assert (Hnamed : forall lib, In lib (Model.libraries d inv) ->
                               In lib (Model.library_rows d)).
  { intros lib Hin. unfold Model.libraries in Hin.
    apply in_filter_map in Hin as (lid & _ & Hf).
    now apply find_some in Hf. }
  assert (Hcase1 : forall libs x,
    In x (map Library.external_id
            (filter (fun lib => Model.opt_Z_eqb (Library.server_id lib)
                                  (Client.server_id_of d inv)) libs))
    <-> exists lib, In lib libs /\ Library.external_id lib = x
                    /\ Model.opt_Z_eqb (Library.server_id lib)
                         (Client.server_id_of d inv) = true).
  { intros libs x. rewrite in_map_iff. split.
    - intros (lib & Hx & Hin). apply filter_In in Hin as [Hin Hs].
      exists lib. auto.
    - intros (lib & Hin & Hx & Hs). exists lib. split; [exact Hx|].
      apply filter_In. auto. }
  assert (Hcase2 : forall x,
    In x (map Library.external_id
            (filter (fun lib => Library.enabled lib
                                && Model.opt_Z_eqb (Library.server_id lib)
                                     (Client.server_id_of d inv))
                    (Model.library_rows d)))
    <-> exists lib, In lib (Model.library_rows d)
                    /\ Library.external_id lib = x
                    /\ Library.enabled lib = true
                    /\ Model.opt_Z_eqb (Library.server_id lib)
                         (Client.server_id_of d inv) = true).
  { intros x. rewrite in_map_iff. split.
    - intros (lib & Hx & Hin). apply filter_In in Hin as [Hin Hs].
      apply andb_prop in Hs as [He Hs]. exists lib. auto.
    - intros (lib & Hin & Hx & He & Hs). exists lib. split; [exact Hx|].
      apply filter_In. rewrite He, Hs. auto. }
  unfold Komga.granted_libraries.
  destruct (Model.libraries d inv) as [|l ls] eqn:Elibs.
  - split; [|split; [congruence|]].
    + intros x Hin. apply Hcase2 in Hin as (lib & H1 & H2 & _ & H4).
      exists lib. auto.
    + intros _ x. apply Hcase2.
  - split; [|split; [|discriminate]].
    + intros x Hin. apply Hcase1 in Hin as (lib & H1 & H2 & H3).
      exists lib. split; [now apply Hnamed|]. auto.
    + intros _ x. apply Hcase1.
Qed.

(* ===================================================================== *)
(** * A Komga join                                                        *)
(* ===================================================================== *)

(** X16.  What a successful Komga [join] has done.  Whenever
    [KomgaClient.join] answers [(True, "")], the checks passed, an
    invitation carries exactly the code of the request and the remote
    creation returned an id; the requests sent are the creation, which
    carries the e-mail and the password but not the username, followed
    by the grants of a prefix of the invitation's libraries, so that a
    refused grant does not fail the join; exactly one User row was added
    and committed, with the username, e-mail and code of the request, no
    password, and the server and expiry of the invitation; one
    notification was fired, no error logged, nothing is left pending. *)
Theorem komga_join_success_stores_one_row :
  forall (env : Client.Env) (self_server_id : option Z) (w : Client.World)
         (username password confirm email code : string),
    let out := Komga.join env self_server_id w username password confirm
                          email code in
    let d := Model.working (Client.session w) in
    let w' := fst out in
    snd out = (true, "") ->
    Client.prechecks env d self_server_id username password confirm email
                     code = None
    /\ (exists inv new_user token n,
          Model.invitation_by_code d code = Some inv
          /\ Model.users (Model.committed (Client.session w'))
             = Model.users d ++ [new_user]
          /\ Client.requests w'
             = (Client.requests w
                ++ [Http.PostJson "/api/v1/users"
                      [("email", Http.JStr email);
                       ("password", Http.JStr password);
                       ("roles", Http.JArr [Http.JStr "USER"])]])
               ++ map (Http.PutSharedLibrary token)
                      (firstn n (Komga.granted_libraries d inv))
          /\ Http.db_text token = Some (User.token new_user)
          /\ User.username new_user = username
          /\ User.email new_user = Some email
          /\ User.code new_user = code
          /\ User.password new_user = None
          /\ User.server_id new_user = Client.server_id_of d inv
          /\ Client.expiry env (Invitation.duration inv)
             = Http.Ok (User.expires new_user))
    /\ Client.notifications w'
       = Client.notifications w
         ++ [String.append "User "
               (String.append username " has joined your server! 🎉")]
    /\ Client.errors w' = Client.errors w
    /\ clean (Client.session w').
Proof.
  intros env sid w username password confirm email code out d w'.
  subst out d w'. unfold Komga.join.
  destruct (Client.prechecks env _ sid username password confirm email code)
    as [msg|]; [simpl; discriminate|].
  intros Hok. apply guarded_true in Hok as [Hret Hfst]. rewrite Hfst.
  clear Hfst. split; [reflexivity|].
  revert Hret. unfold Komga.join_body, Komga.create_user.
  cbn [fst snd Client.with_requests Client.session Client.requests].
  destruct (match Client.http env (Client.requests w) _ with
            | Http.Returned r => Komga.id_of r
            | _ => Http.Raised
            end) as [user_id|]; [|simpl; discriminate].
  destruct (Model.invitation_by_code _ code) as [inv|] eqn:Einv;
    [|simpl; discriminate].
  destruct (grants_prefix (Client.http env) user_id
              (Komga.granted_libraries (Model.working (Client.session w)) inv)
              (Client.requests w
               ++ [Http.PostJson "/api/v1/users"
                     (Komga.payload email password)]))
    as (n & _ & Hputs).
  destruct (Client.expiry env (Invitation.duration inv)) as [expires|]
    eqn:Eexp; [|simpl; discriminate].
  destruct (Client.add_and_commit env _ _ _) as [s [new_user|]] eqn:Eadd;
    [|simpl; discriminate].
  simpl in Eadd.
  pose proof (add_and_commit_row _ _ _ _ _ _ Eadd) as (tok & Htok & Hrow).
  apply add_and_commit_done in Eadd as [_ ->].
  destruct (Client.mark_used env _ inv new_user) as [s' [|]] eqn:Emark;
    [|simpl; discriminate].
  apply mark_used_done in Emark as (Hclean & Hus & _).
  intros _. cbn [fst Client.notify Client.with_session Client.session
                 Client.requests Client.notifications Client.errors].
  split; [|repeat split; auto].
  exists inv, new_user, user_id, n. rewrite Hus, Hputs. subst new_user.
  simpl. rewrite Htok. repeat split; try reflexivity. exact Eexp.
Qed.

Lemma komga_join_success_stores_one_row_witness :
  let out := Komga.join JoinSamples.env_komga (Some 4)
                        JoinSamples.komga_world
                        "erin" "password1" "password1" "erin@example.com"
                        "KOMGA5" in
  snd out = (true, "")
  /\ Model.users (Model.committed (Client.session (fst out)))
     = [User.mk 1 "k-9" "erin" (Some "erin@example.com") "KOMGA5"
                (Some 2592000) None (Some 4)]
  /\ clean (Client.session (fst out)).
Proof.
  destruct (komga_join_success_stores_one_row
              JoinSamples.env_komga (Some 4) JoinSamples.komga_world
              "erin" "password1" "password1" "erin@example.com" "KOMGA5"
              eq_refl)
    as (_ & _ & _ & _ & Hclean).
  split; [reflexivity|]. split; [reflexivity | exact Hclean].
Defined.

(** X17.  A code that differs in case from the stored one passes the
    checks and then fails the Komga join.  The validity check looks the
    code up without regard to case, the body looks it up exactly: when
    the checks pass and no invitation carries exactly the code of the
    request, [KomgaClient.join] has already sent the creation request to
    Komga when it fails; it then logs, rolls back, commits nothing and
    answers [(False, "An unexpected error occurred.")]. *)
Theorem komga_join_fails_on_a_case_mismatch :
  forall (env : Client.Env) (self_server_id : option Z) (w : Client.World)
         (username password confirm email code : string),
    let d := Model.working (Client.session w) in
    let out := Komga.join env self_server_id w username password confirm
                          email code in
    Client.prechecks env d self_server_id username password confirm email
                     code = None ->
    Model.invitation_by_code d code = None ->
    snd out = (false, "An unexpected error occurred.")
    /\ Client.requests (fst out)
       = Client.requests w
         ++ [Http.PostJson "/api/v1/users" (Komga.payload email password)]
    /\ Model.committed (Client.session (fst out))
       = Model.committed (Client.session w)
    /\ clean (Client.session (fst out))
    /\ Client.errors (fst out) = Client.errors w ++ ["Komga join error"]
    /\ Client.notifications (fst out) = Client.notifications w.
Proof.
  intros env sid w username password confirm email code d out Hchecks Hnone.
  subst out d. unfold Komga.join. rewrite Hchecks.
  unfold Komga.join_body, Komga.create_user.
  cbn [fst snd Client.with_requests Client.session Client.requests].
  destruct (match Client.http env (Client.requests w) _ with
            | Http.Returned r => Komga.id_of r
            | _ => Http.Raised
            end) as [user_id|].
  - rewrite Hnone. simpl. repeat split; reflexivity.
  - simpl. repeat split; reflexivity.
Qed.

Lemma komga_join_fails_on_a_case_mismatch_witness :
  let out := Komga.join JoinSamples.env_komga (Some 4)
                        JoinSamples.komga_world
                        "erin" "password1" "password1" "erin@example.com"
                        "komga5" in
  snd out = (false, "An unexpected error occurred.")
  /\ Client.requests (fst out)
     = Client.requests JoinSamples.komga_world
       ++ [Http.PostJson "/api/v1/users"
             (Komga.payload "erin@example.com" "password1")]
  /\ Model.committed (Client.session (fst out))
     = Model.committed (Client.session JoinSamples.komga_world)
  /\ clean (Client.session (fst out))
  /\ Client.errors (fst out)
     = Client.errors JoinSamples.komga_world ++ ["Komga join error"]
  /\ Client.notifications (fst out)
     = Client.notifications JoinSamples.komga_world.
Proof.
  apply (komga_join_fails_on_a_case_mismatch
           JoinSamples.env_komga (Some 4) JoinSamples.komga_world
           "erin" "password1" "password1" "erin@example.com" "komga5").
  - reflexivity.
  - reflexivity.
Defined.


(* ===================================================================== *)
(** * The legacy invitation table                                         *)
(* ===================================================================== *)

Section LegacyCodes.
Import Legacy LegacyAdmin.

Lemma upper_char_not_lower (c : ascii) :
  Py.is_lower (Str.upper_char c) = false.
Proof.
  destruct c as [[] [] [] [] [] [] [] []]; reflexivity.
Qed.

Lemma upper_has_no_lower (s : string) : has_lower (Str.upper s) = false.
Proof.
  induction s as [|c s IH]; [reflexivity|]. simpl.
  now rewrite upper_char_not_lower, IH.
Qed.

Lemma choice_not_lower (draw : nat) :
  Py.is_lower (Str.choice Str.uppercase_and_digits draw) = false.
Proof.
  unfold Str.choice.
  assert (Hlt : (draw mod String.length Str.uppercase_and_digits < 36)%nat).
  { apply Nat.mod_upper_bound. discriminate. }
  revert Hlt.
  generalize (draw mod String.length Str.uppercase_and_digits)%nat as i.
  intros i Hlt.
  do 36 (destruct i as [|i]; [reflexivity|]). lia.
Qed.

Lemma token_length (seq : string) (draws : nat -> nat) (n : nat) :
  forall from, String.length (Str.token seq draws from n) = n.
Proof.
  induction n as [|n IH]; intros from; [reflexivity|]. simpl. now rewrite IH.
Qed.

Lemma token_has_no_lower (draws : nat -> nat) (n : nat) :
  forall from,
    has_lower (Str.token Str.uppercase_and_digits draws from n) = false.
Proof.
  induction n as [|n IH]; intros from; [reflexivity|]. simpl.
  now rewrite choice_not_lower, IH.
Qed.

Lemma chosen_code_shape (env : Env) (form : Form) :
  String.length (chosen_code env form) = 6%nat
  /\ has_lower (chosen_code env form) = false.
Proof.
  unfold chosen_code.
  destruct (form_code form) as [c|].
  - destruct (Py.len (Str.upper c) =? 6) eqn:E; cbn [negb].
    + apply Z.eqb_eq in E. unfold Py.len in E.
      split; [lia | apply upper_has_no_lower].
    + split; [apply token_length | apply token_has_no_lower].
  - split; [apply token_length | apply token_has_no_lower].
Qed.

Lemma code_exists_in (tbl : list Invitations.t) (code : string) :
  code_exists tbl code = true <-> In code (map Invitations.code tbl).
Proof.
  unfold code_exists. rewrite existsb_exists, in_map_iff.
  split; intros (i & H1 & H2); exists i.
  - apply String.eqb_eq in H2. auto.
  - subst. split; [assumption | apply String.eqb_refl].
Qed.

Lemma code_exists_app (tbl tbl' : list Invitations.t) (code : string) :
  code_exists (tbl ++ tbl') code
  = (code_exists tbl code || code_exists tbl' code)%bool.
Proof. apply existsb_app. Qed.

Lemma used_exists_absent (tbl : list Invitations.t) (code : string) :
  code_exists tbl code = false -> used_exists tbl code = false.
Proof.
  unfold code_exists, used_exists. induction tbl as [|i tbl IH]; simpl;
    [reflexivity|].
  intros H. apply orb_false_elim in H as [-> H]. simpl. now apply IH.
Qed.

Lemma expired_exists_absent (t : Z) (tbl : list Invitations.t)
      (code : string) :
  code_exists tbl code = false -> expired_exists t tbl code = false.
Proof.
  unfold code_exists, expired_exists. induction tbl as [|i tbl IH]; simpl;
    [reflexivity|].
  intros H. apply orb_false_elim in H as [-> H]. simpl. now apply IH.
Qed.

Lemma has_lower_differs (a b : string) :
  has_lower a = true -> has_lower b = false -> a <> b.
Proof. intros Ha Hb ->. congruence. Qed.

Lemma code_exists_lower (tbl : list Invitations.t) (code : string) :
  codes_upper tbl -> has_lower code = true -> code_exists tbl code = false.
Proof.
  intros Hup Hlow. unfold code_exists.
  induction Hup as [|i tbl Hi _ IH]; [reflexivity|]. simpl. rewrite IH.
  destruct (String.eqb_spec (Invitations.code i) code) as [E|_];
    [|reflexivity].
  rewrite E in Hi. congruence.
Qed.

Lemma delete_codes (tbl : list Invitations.t) (code c : string) :
  In c (map Invitations.code (delete tbl code))
  <-> c <> code /\ In c (map Invitations.code tbl).
Proof.
  unfold delete. rewrite !in_map_iff. split.
  - intros (i & Hc & Hin). apply filter_In in Hin as [Hin Hne].
    apply negb_true_iff in Hne.
    destruct (String.eqb_spec (Invitations.code i) code); [discriminate|].
    split; [congruence | exists i; auto].
  - intros (Hne & i & Hc & Hin). exists i. split; [exact Hc|].
    apply filter_In. split; [exact Hin|]. apply negb_true_iff.
    destruct (String.eqb_spec (Invitations.code i) code); congruence.
Qed.

Lemma existsb_delete (p : Invitations.t -> bool) (tbl : list Invitations.t)
      (code c : string) :
  c <> code ->
  existsb (fun i => String.eqb (Invitations.code i) c && p i)
          (delete tbl code)
  = existsb (fun i => String.eqb (Invitations.code i) c && p i) tbl.
Proof.
  intros Hne. unfold delete. induction tbl as [|i tbl IH]; [reflexivity|].
  simpl. destruct (String.eqb_spec (Invitations.code i) code) as [E|_]; simpl.
  - rewrite IH.
    destruct (String.eqb_spec (Invitations.code i) c); [congruence|].
    reflexivity.
  - now rewrite IH.
Qed.

Lemma connect_after_delete (t : Z) (tbl : list Invitations.t)
      (code c : string) :
  c <> code -> connect t (delete tbl code) c = connect t tbl c.
Proof.
  intros Hne. unfold connect, code_exists, used_exists, expired_exists.
  pose proof (existsb_delete (fun _ => true) tbl code c Hne) as H1.
  pose proof (existsb_delete
                (fun i => Bool.eqb (Invitations.used i) true
                          && Bool.eqb (Invitations.unlimited i) false)
                tbl code c Hne) as H2.
  pose proof (existsb_delete
                (fun i => match Invitations.expires i with
                          | Some e => e <=? t
                          | None => false
                          end) tbl code c Hne) as H3.
  assert (Hext : forall l,
    existsb (fun i => String.eqb (Invitations.code i) c) l
    = existsb (fun i => String.eqb (Invitations.code i) c && true) l).
  { intros l. induction l as [|i l IH]; [reflexivity|]. simpl.
    now rewrite IH, andb_true_r. }
  assert (Hassoc : forall l,
    existsb (fun i => String.eqb (Invitations.code i) c
                      && Bool.eqb (Invitations.used i) true
                      && Bool.eqb (Invitations.unlimited i) false) l
    = existsb (fun i => String.eqb (Invitations.code i) c
                        && (Bool.eqb (Invitations.used i) true
                            && Bool.eqb (Invitations.unlimited i) false)) l).
  { intros l. induction l as [|i l IH]; [reflexivity|]. simpl.
    now rewrite IH, andb_assoc. }
  rewrite !Hext, !Hassoc, H1, H2, H3. reflexivity.
Qed.

Lemma NoDup_snoc {A : Type} (l : list A) (x : A) :
  NoDup l -> ~ In x l -> NoDup (l ++ [x]).
Proof.
  intros Hnd Hnot. induction Hnd as [|a l Hni Hnd IH]; simpl.
  - constructor; [intros [] | constructor].
  - constructor.
    + rewrite in_app_iff. intros [H|H]; [contradiction|].
      destruct H as [H|[]]. apply Hnot. simpl. auto.
    + apply IH. intros H. apply Hnot. simpl. auto.
Qed.

(** The table after [invite]: as it was, or with one row more whose
    code was free. *)
Lemma invite_table (env : Env) (m : Public.method) (form : Form)
      (tbl : list Invitations.t) :
  fst (invite env m form tbl) = tbl
  \/ (code_exists tbl (chosen_code env form) = false
      /\ fst (invite env m form tbl)
         = tbl ++ [Invitations.mk (chosen_code env form) false
                     (chosen_expiry env form)
                     (Py.truthy (Public.or_empty (form_unlimited form)))]).
Proof.
  unfold invite. destruct m; [now left|].
  destruct (code_exists tbl (chosen_code env form)) eqn:Hex; [now left|].
  right. split; [reflexivity|]. destruct (app_url env); reflexivity.
Qed.

End LegacyCodes.

(** X18.  What the legacy [invite] stores.  A POST either answers 401
    and leaves the table as it was, which happens exactly when the code
    it settled on is already taken, or appends one unused row whose code
    has six characters, none of them a lower-case letter, and was free.
    The code is the upper-cased field when that has six characters;
    when the field is missing or of any other length, the 401 meant for
    it is swallowed and six characters are drawn at random instead.  The
    row is written before the link is built: without APP_URL the answer
    is a 500 and the row is there all the same. *)
Theorem legacy_invite_stores_a_six_character_code :
  forall (env : LegacyAdmin.Env) (form : LegacyAdmin.Form)
         (tbl : list Legacy.Invitations.t),
    let out := LegacyAdmin.invite env Public.POST form tbl in
    let code := LegacyAdmin.chosen_code env form in
    let random := Str.token Str.uppercase_and_digits (LegacyAdmin.draws env)
                            0 6 in
    String.length code = 6%nat
    /\ has_lower code = false
    /\ (forall c, LegacyAdmin.form_code form = Some c ->
                  code = if String.length c =? 6 then Str.upper c
                         else random)%nat
    /\ (LegacyAdmin.form_code form = None -> code = random)
    /\ (Legacy.code_exists tbl code = true ->
        out = (tbl, LegacyAdmin.Unauthorized))
    /\ (Legacy.code_exists tbl code = false ->
        fst out
        = tbl ++ [Legacy.Invitations.mk code false
                    (LegacyAdmin.chosen_expiry env form)
                    (Py.truthy (Public.or_empty
                                  (LegacyAdmin.form_unlimited form)))]
        /\ snd out
           = match LegacyAdmin.app_url env with
             | Some url =>
                 LegacyAdmin.InvitePage
                   (String.append url (String.append "/j/" code))
             | None => LegacyAdmin.ServerError
             end).
Proof.
  intros env form tbl out code random. subst out code random.
  destruct (chosen_code_shape env form) as [Hlen Hlow].
  split; [exact Hlen|]. split; [exact Hlow|].
  split; [|split; [|split]].
  - intros c Hc. unfold LegacyAdmin.chosen_code. rewrite Hc.
    assert (Hup : String.length (Str.upper c) = String.length c).
    { clear. induction c as [|a c IH]; [reflexivity|]. simpl. now rewrite IH. }
    unfold Py.len. rewrite Hup.
    destruct (Nat.eqb_spec (String.length c) 6) as [E|E].
    + rewrite E. reflexivity.
    + destruct (Z.eqb_spec (Z.of_nat (String.length c)) 6); [lia|reflexivity].
  - intros Hc. unfold LegacyAdmin.chosen_code. now rewrite Hc.
  - intros Hex. unfold LegacyAdmin.invite. now rewrite Hex.
  - intros Hex. unfold LegacyAdmin.invite. rewrite Hex.
    destruct (LegacyAdmin.app_url env); split; reflexivity.
Qed.

(** X19.  The legacy table keeps its codes distinct and upper-case.  If
    no two rows carry the same code and no code has a lower-case letter,
    the same holds after [invite], whatever the form, and after
    [delete].  On such a table every code with a lower-case letter is
    unknown to the landing page and to the join handler: a code typed in
    lower case is refused although the form that created it accepted
    it. *)
Theorem legacy_codes_stay_distinct_and_upper_case :
  forall (env : LegacyAdmin.Env) (m : Public.method)
         (form : LegacyAdmin.Form) (tbl : list Legacy.Invitations.t)
         (gone : string),
    codes_distinct tbl ->
    codes_upper tbl ->
    let tbl' := fst (LegacyAdmin.invite env m form tbl) in
    codes_distinct tbl' /\ codes_upper tbl'
    /\ codes_distinct (LegacyAdmin.delete tbl gone)
    /\ codes_upper (LegacyAdmin.delete tbl gone)
    /\ forall (t : Z) (code : string),
         has_lower code = true ->
         Legacy.connect t tbl' code
         = Legacy.LoginPage "That invite code does not exist."
         /\ Legacy.plex tbl' code = 401.
Proof.
  intros env m form tbl gone Hdis Hup tbl'.
  assert (Hinv : codes_distinct tbl' /\ codes_upper tbl').
  { subst tbl'.
    destruct (invite_table env m form tbl) as [-> | [Hex ->]]; [auto|].
    destruct (chosen_code_shape env form) as [_ Hlow]. split.
    - unfold codes_distinct. rewrite map_app. apply NoDup_snoc; [exact Hdis|].
      simpl. intros Hin. apply code_exists_in in Hin. congruence.
    - unfold codes_upper. apply Forall_app. split; [exact Hup|].
      constructor; [exact Hlow | constructor]. }
  destruct Hinv as [Hdis' Hup'].
  split; [exact Hdis'|]. split; [exact Hup'|].
  split; [|split].
  - unfold codes_distinct, LegacyAdmin.delete in *.
    clear - Hdis. induction tbl as [|i tbl IH]; simpl; [constructor|].
    inversion Hdis as [|? ? Hni Hnd]; subst.
    destruct (negb _); simpl; [|now apply IH].
    constructor; [|now apply IH].
    intros Hin. apply Hni. apply in_map_iff in Hin as (j & Hj & Hin).
    apply filter_In in Hin as [Hin _]. apply in_map_iff. exists j. auto.
  - unfold codes_upper, LegacyAdmin.delete in *.
    apply Forall_forall. intros i Hin. apply filter_In in Hin as [Hin _].
    rewrite Forall_forall in Hup. now apply Hup.
  - intros t code Hlow.
    pose proof (code_exists_lower tbl' code Hup' Hlow) as Hex.
    unfold Legacy.connect, Legacy.plex. rewrite Hex. simpl. auto.
Qed.

Lemma legacy_codes_stay_distinct_and_upper_case_witness :
  let tbl' := fst (LegacyAdmin.invite LegacySamples.env Public.POST
                     LegacySamples.form_day LegacySamples.table) in
  codes_distinct tbl' /\ codes_upper tbl'
  /\ codes_distinct (LegacyAdmin.delete LegacySamples.table "XYZ789")
  /\ codes_upper (LegacyAdmin.delete LegacySamples.table "XYZ789")
  /\ forall (t : Z) (code : string),
       has_lower code = true ->
       Legacy.connect t tbl' code
       = Legacy.LoginPage "That invite code does not exist."
       /\ Legacy.plex tbl' code = 401.
Proof.
  apply (legacy_codes_stay_distinct_and_upper_case
           LegacySamples.env Public.POST LegacySamples.form_day
           LegacySamples.table "XYZ789").
  - repeat constructor. intros [].
  - repeat constructor.
Defined.

(** X20.  From the legacy [invite] to the legacy [connect].  After a
    POST with a free six-character code, [connect] lets the upper-cased
    code through until the stored expiry, which is the chosen period
    counted from now and cut to the minute: an invitation for a day is
    accepted at every moment up to a minute before the day is over and
    refused as expired from the end of the day on; one that never expires
    is always accepted.  The code as it was typed is unknown when it has
    a lower-case letter and the table holds no such code. *)
Theorem legacy_invite_then_connect :
  forall (env : LegacyAdmin.Env) (form : LegacyAdmin.Form)
         (tbl : list Legacy.Invitations.t) (c : string),
    LegacyAdmin.form_code form = Some c ->
    String.length c = 6%nat ->
    Legacy.code_exists tbl (Str.upper c) = false ->
    let tbl' := fst (LegacyAdmin.invite env Public.POST form tbl) in
    let start := LegacyAdmin.now env in
    (forall t,
        Legacy.connect t tbl' (Str.upper c)
        = match LegacyAdmin.chosen_expiry env form with
          | Some e => if e <=? t
                      then Legacy.LoginPage "That invite code has expired."
                      else Legacy.OAuthRedirect
          | None => Legacy.OAuthRedirect
          end)
    /\ (LegacyAdmin.form_expires form = Some "day" ->
        (forall t, t <= start + 86400 - 60 ->
                   Legacy.connect t tbl' (Str.upper c) = Legacy.OAuthRedirect)
        /\ (forall t, start + 86400 <= t ->
                      Legacy.connect t tbl' (Str.upper c)
                      = Legacy.LoginPage "That invite code has expired."))
    /\ (LegacyAdmin.form_expires form = None
        \/ LegacyAdmin.form_expires form = Some "never" ->
        forall t, Legacy.connect t tbl' (Str.upper c) = Legacy.OAuthRedirect)
    /\ (has_lower c = true -> Legacy.code_exists tbl c = false ->
        forall t, Legacy.connect t tbl' c
                  = Legacy.LoginPage "That invite code does not exist.").
Proof.
  intros env form tbl c Hc Hlen Hfree tbl' start.
  assert (Hcode : LegacyAdmin.chosen_code env form = Str.upper c).
  { unfold LegacyAdmin.chosen_code. rewrite Hc.
    assert (Hup : String.length (Str.upper c) = String.length c).
    { clear. induction c as [|a c IH]; [reflexivity|]. simpl. now rewrite IH. }
    unfold Py.len. rewrite Hup, Hlen. reflexivity. }
  assert (Htbl : tbl' = tbl ++ [Legacy.Invitations.mk (Str.upper c) false
                                  (LegacyAdmin.chosen_expiry env form)
                                  (Py.truthy
                                     (Public.or_empty
                                        (LegacyAdmin.form_unlimited form)))]).
  { subst tbl'. unfold LegacyAdmin.invite. rewrite Hcode, Hfree.
    destruct (LegacyAdmin.app_url env); reflexivity. }
  assert (Hconnect : forall t,
    Legacy.connect t tbl' (Str.upper c)
    = match LegacyAdmin.chosen_expiry env form with
      | Some e => if e <=? t
                  then Legacy.LoginPage "That invite code has expired."
                  else Legacy.OAuthRedirect
      | None => Legacy.OAuthRedirect
      end).
  { intros t. rewrite Htbl. unfold Legacy.connect.
    rewrite code_exists_app, Hfree. unfold Legacy.code_exists at 1.
    cbn [existsb Legacy.Invitations.code]. rewrite String.eqb_refl.
    cbn [orb negb].
    unfold Legacy.used_exists, Legacy.expired_exists.
    rewrite !existsb_app.
    fold (Legacy.used_exists tbl (Str.upper c)).
    fold (Legacy.expired_exists t tbl (Str.upper c)).
    rewrite (used_exists_absent _ _ Hfree), (expired_exists_absent t _ _ Hfree).
    cbn [existsb Legacy.Invitations.code Legacy.Invitations.used
         Legacy.Invitations.expires Legacy.Invitations.unlimited orb].
    rewrite String.eqb_refl. cbn [andb Bool.eqb orb].
    destruct (LegacyAdmin.chosen_expiry env form) as [e|]; [|reflexivity].
    rewrite orb_false_r. destruct (e <=? t); reflexivity. }
  split; [exact Hconnect|]. split; [|split].
  - intros Hday.
    assert (He : LegacyAdmin.chosen_expiry env form
                 = Some (LegacyAdmin.to_minute (start + 86400))).
    { unfold LegacyAdmin.chosen_expiry. rewrite Hday. reflexivity. }
    assert (Hfloor : start + 86400 - 60
                     < LegacyAdmin.to_minute (start + 86400)
                     <= start + 86400).
    { unfold LegacyAdmin.to_minute.
      pose proof (Z.mul_div_le (start + 86400) 60 ltac:(lia)).
      pose proof (Z.mul_succ_div_gt (start + 86400) 60 ltac:(lia)). lia. }
    split; intros t Ht; rewrite Hconnect, He.
    + destruct (Z.leb_spec (LegacyAdmin.to_minute (start + 86400)) t);
        [lia | reflexivity].
    + destruct (Z.leb_spec (LegacyAdmin.to_minute (start + 86400)) t);
        [reflexivity | lia].
  - intros Hnever t. rewrite Hconnect.
    assert (He : LegacyAdmin.chosen_expiry env form = None).
    { unfold LegacyAdmin.chosen_expiry.
      destruct Hnever as [-> | ->]; reflexivity. }
    now rewrite He.
  - intros Hlow Habsent t. rewrite Htbl. unfold Legacy.connect.
    rewrite code_exists_app, Habsent. unfold Legacy.code_exists.
    cbn [existsb Legacy.Invitations.code orb].
    destruct (String.eqb_spec (Str.upper c) c) as [E|_]; [|reflexivity].
    exfalso. pose proof (upper_has_no_lower c) as Hno.
    rewrite E in Hno. congruence.
Qed.

Lemma legacy_invite_then_connect_witness :
  let tbl' := fst (LegacyAdmin.invite LegacySamples.env Public.POST
                     LegacySamples.form_day LegacySamples.table) in
  Legacy.connect 87340 tbl' "ABC123" = Legacy.OAuthRedirect
  /\ Legacy.connect 87400 tbl' "ABC123"
     = Legacy.LoginPage "That invite code has expired."
  /\ Legacy.connect 0 tbl' "abc123"
     = Legacy.LoginPage "That invite code does not exist.".
Proof.
  destruct (legacy_invite_then_connect
              LegacySamples.env LegacySamples.form_day LegacySamples.table
              "abc123" eq_refl eq_refl eq_refl)
    as (_ & Hday & _ & Hlow).
  destruct (Hday eq_refl) as [Hin Hout].
  split; [apply Hin; simpl; lia|].
  split; [apply Hout; simpl; lia|].
  apply Hlow; reflexivity.
Defined.

(** X21.  The legacy [delete] removes every row of the code and nothing
    else.  Afterwards the landing page answers 401 for that code and the
    join handler says it does not exist, whatever the table held; for
    every other code both answer as before. *)
Theorem legacy_delete_forgets_the_code :
  forall (tbl : list Legacy.Invitations.t) (code : string) (t : Z),
    Legacy.plex (LegacyAdmin.delete tbl code) code = 401
    /\ Legacy.connect t (LegacyAdmin.delete tbl code) code
       = Legacy.LoginPage "That invite code does not exist."
    /\ (forall i, In i (LegacyAdmin.delete tbl code) <->
                  In i tbl /\ Legacy.Invitations.code i <> code)
    /\ (forall c, c <> code ->
          Legacy.plex (LegacyAdmin.delete tbl code) c = Legacy.plex tbl c
          /\ Legacy.connect t (LegacyAdmin.delete tbl code) c
             = Legacy.connect t tbl c).
Proof.
  intros tbl code t.
  assert (Hgone : Legacy.code_exists (LegacyAdmin.delete tbl code) code
                  = false).
  { destruct (Legacy.code_exists (LegacyAdmin.delete tbl code) code) eqn:E;
      [|reflexivity].
    apply code_exists_in, delete_codes in E as [E _]. congruence. }
  split; [unfold Legacy.plex; now rewrite Hgone|].
  split; [unfold Legacy.connect; now rewrite Hgone|].
  split.
  - intros i. unfold LegacyAdmin.delete. rewrite filter_In, negb_true_iff.
    destruct (String.eqb_spec (Legacy.Invitations.code i) code);
      intuition congruence.
  - intros c Hne. split; [|now apply connect_after_delete].
    assert (Hsame : Legacy.code_exists (LegacyAdmin.delete tbl code) c
                    = Legacy.code_exists tbl c).
    { destruct (Legacy.code_exists tbl c) eqn:E.
      - apply code_exists_in. apply delete_codes. split; [exact Hne|].
        now apply code_exists_in.
      - destruct (Legacy.code_exists (LegacyAdmin.delete tbl code) c) eqn:E';
          [|reflexivity].
        apply code_exists_in, delete_codes in E' as [_ E'].
        apply code_exists_in in E'. congruence. }
    unfold Legacy.plex. now rewrite Hsame.
Qed.


(* ===================================================================== *)
(** * Probing and editing a media server                                  *)
(* ===================================================================== *)

Example b64encode_credentials :
  Base64.b64encode "admin:secret" = "YWRtaW46c2VjcmV0"
  /\ Base64.b64encode "ab" = "YWI=" /\ Base64.b64encode "a" = "YQ==".
Proof. repeat split; reflexivity. Qed.

Section Probing.
Import Model Http ServerAdmin.

Lemma item_set_same (k : string) (v : option string) (data : Data) :
  item k (Romm.dict_set k v data) = Some v.
Proof.
  induction data as [|[k' v'] data IH]; simpl.
  - now rewrite String.eqb_refl.
  - destruct (String.eqb_spec k' k) as [->|Hne]; simpl.
    + now rewrite String.eqb_refl.
    + destruct (String.eqb_spec k' k); [contradiction | exact IH].
Qed.

Lemma item_set_other (k k' : string) (v : option string) (data : Data) :
  k' <> k -> item k' (Romm.dict_set k v data) = item k' data.
Proof.
  intros Hne. induction data as [|[k0 v0] data IH]; simpl.
  - destruct (String.eqb_spec k k'); [congruence | reflexivity].
  - destruct (String.eqb_spec k0 k) as [->|Hk]; simpl.
    + destruct (String.eqb_spec k k'); [congruence | reflexivity].
    + now rewrite IH.
Qed.

Lemma stripped_set_other (k k' : string) (v : option string) (data : Data) :
  k' <> k -> stripped k' (Romm.dict_set k v data) = stripped k' data.
Proof. intros Hne. unfold stripped. now rewrite item_set_other. Qed.

(** The check of a dict that holds a type, a url and a key and no
    credentials. *)
Lemma check_connection_plain (env : Env) (stype : string)
      (url key : option string) :
  _check_connection env
    [("server_type", Some stype); ("server_url", url); ("api_key", key)]
  = Ok ([("server_type", Some stype); ("server_url", url); ("api_key", key)],
        probe env (check_for stype) url key).
Proof.
  unfold _check_connection, check_for. cbn [item String.eqb Ascii.eqb].
  simpl.
  destruct (String.eqb stype "plex"); [reflexivity|].
  destruct (String.eqb stype "emby"); [reflexivity|].
  destruct (String.eqb stype "audiobookshelf"); [reflexivity|].
  destruct (String.eqb stype "romm"); reflexivity.
Qed.

(** The check of a RomM dict whose credentials are both given. *)
Lemma check_connection_romm (env : Env) (data : Data) (u p : string)
      (url : option string) :
  item "server_type" data = Some (Some "romm") ->
  item "server_url" data = Some url ->
  stripped "server_username" data = Ok u ->
  stripped "server_password" data = Ok p ->
  u <> "" -> p <> "" ->
  let key := Base64.b64encode (String.append u (String.append ":" p)) in
  with_romm_key data = Ok (Romm.dict_set "api_key" (Some key) data)
  /\ _check_connection env (Romm.dict_set "api_key" (Some key) data)
     = Ok (Romm.dict_set "api_key" (Some key)
             (Romm.dict_set "api_key" (Some key) data),
           probe env check_romm url (Some key)).
Proof.
  intros Hty Hurl Hu Hp Hune Hpne key.
  assert (Htruthy : (Py.truthy u && Py.truthy p)%bool = true).
  { destruct u; [contradiction|]. destruct p; [contradiction|]. reflexivity. }
  assert (Hwith : forall data',
    stripped "server_username" data' = Ok u ->
    stripped "server_password" data' = Ok p ->
    with_romm_key data' = Ok (Romm.dict_set "api_key" (Some key) data')).
  { intros data' Hu' Hp'. unfold with_romm_key.
    now rewrite Hu', Hp', Htruthy. }
  split; [now apply Hwith|].
  unfold _check_connection.
  rewrite item_set_other by discriminate. rewrite Hty.
  cbn [String.eqb Ascii.eqb Bool.eqb]. simpl.
  rewrite Hwith by (rewrite stripped_set_other by discriminate; assumption).
  unfold run_check.
  rewrite !item_set_other by discriminate. rewrite Hurl.
  now rewrite item_set_same.
Qed.

Lemma server_by_id_id (d : DB) (sid : Z) (server : MediaServer.t) :
  server_by_id d sid = Some server -> MediaServer.id server = sid.
Proof.
  intros H. apply find_some in H as [_ H]. now apply Z.eqb_eq in H.
Qed.

Lemma replace_server_ids (s : MediaServer.t) (ms : list MediaServer.t) :
  map MediaServer.id (replace_server s ms) = map MediaServer.id ms.
Proof.
  unfold replace_server. rewrite map_map. apply map_ext. intros m.
  destruct (Z.eqb_spec (MediaServer.id m) (MediaServer.id s)); congruence.
Qed.

Lemma replace_server_others (s m : MediaServer.t) (ms : list MediaServer.t) :
  In m ms -> MediaServer.id m <> MediaServer.id s ->
  In m (replace_server s ms).
Proof.
  intros Hin Hne. unfold replace_server. apply in_map_iff. exists m.
  split; [|exact Hin].
  destruct (Z.eqb_spec (MediaServer.id m) (MediaServer.id s));
    [contradiction | reflexivity].
Qed.

Lemma replace_server_found (s : MediaServer.t) (ms : list MediaServer.t) :
  find (fun m => MediaServer.id m =? MediaServer.id s) ms <> None ->
  find (fun m => MediaServer.id m =? MediaServer.id s) (replace_server s ms)
  = Some s.
Proof.
  unfold replace_server. induction ms as [|m ms IH]; simpl; [congruence|].
  destruct (Z.eqb_spec (MediaServer.id m) (MediaServer.id s)) as [E|E].
  - intros _. now rewrite Z.eqb_refl.
  - destruct (Z.eqb_spec (MediaServer.id m) (MediaServer.id s));
      [contradiction | exact IH].
Qed.

Lemma choose_flagless (sid : Z) (chosen : list string)
      (libs : list Library.t) :
  map (flagless_on sid) (choose sid chosen libs) = map (flagless_on sid) libs.
Proof.
  unfold choose. rewrite map_map. apply map_ext. intros lib.
  unfold flagless_on.
  destruct (opt_Z_eqb (Library.server_id lib) (Some sid)) eqn:E;
    [|now rewrite E].
  simpl. now rewrite E.
Qed.

Lemma choose_enabled (sid : Z) (chosen : list string)
      (libs : list Library.t) (lib : Library.t) :
  In lib (choose sid chosen libs) ->
  Library.server_id lib = Some sid ->
  Library.enabled lib = existsb (String.eqb (Library.external_id lib)) chosen.
Proof.
  unfold choose. intros Hin Hs. apply in_map_iff in Hin as (l & Hl & _).
  destruct (opt_Z_eqb (Library.server_id l) (Some sid)) eqn:E.
  - subst lib. reflexivity.
  - subst l. rewrite Hs in E. simpl in E. now rewrite Z.eqb_refl in E.
Qed.

(** What a POST to [edit_server] comes to. *)
Lemma edit_server_cases (env : Env) (sid : Z) (form : list (string * string))
      (chosen : list string) (d : DB) :
  (exists r, r <> RedirectToList
             /\ edit_server env sid Public.POST form chosen d = (d, r))
  \/ (exists server server',
         server_by_id d sid = Some server
         /\ MediaServer.id server' = sid
         /\ edit_server env sid Public.POST form chosen d
            = (mkDB (users d) (invitations d)
                    (replace_server server' (media_servers d))
                    (match chosen with
                     | [] => library_rows d
                     | _ :: _ => choose sid chosen (library_rows d)
                     end),
               RedirectToList)).
Proof.
  unfold edit_server.
  destruct (server_by_id d sid) as [server|] eqn:Es;
    [|left; exists NotFound; split; [discriminate | reflexivity]].
  pose proof (server_by_id_id d sid server Es) as Hid.
  destruct (match get "server_type" (of_form form) with
            | Some "romm" => with_romm_key (of_form form)
            | _ => Ok (of_form form)
            end) as [data|];
    [|left; exists ServerError; split; [discriminate | reflexivity]].
  destruct (_check_connection env data) as [[data' [ok msg]]|];
    [|left; exists ServerError; split; [discriminate | reflexivity]].
  destruct ok; cbn [negb];
    [|left; exists (Modal msg); split; [discriminate | reflexivity]].
  destruct (item "server_name" data') as [[name|]|];
    try (left; exists ServerError; split; [discriminate | reflexivity]).
  destruct (item "server_type" data') as [[stype|]|];
    try (left; exists ServerError; split; [discriminate | reflexivity]).
  destruct (item "server_url" data') as [[url|]|];
    try (left; exists ServerError; split; [discriminate | reflexivity]).
  right. exists server. eexists. split; [reflexivity|].
  split; [|rewrite Hid; reflexivity]. reflexivity.
Qed.

End Probing.

(** X22.  [ping_server] probes by the type of the stored row.  For an
    unknown id it answers 404.  For a server it never raises and never
    touches the credentials: it runs the check of the server's type on
    the stored url and api key (which may be None), types it does not
    know, komga among them, being probed as Jellyfin, and reports the
    error message only when the check failed. *)
Theorem ping_server_probes_by_type :
  forall (env : ServerAdmin.Env) (server_id : Z) (d : Model.DB),
    (Model.server_by_id d server_id = None ->
     ServerAdmin.ping_server env server_id d = ServerAdmin.NotFound)
    /\ (forall server,
          Model.server_by_id d server_id = Some server ->
          let answer :=
            ServerAdmin.probe env (check_for (MediaServer.server_type server))
                              (Some (MediaServer.url server))
                              (MediaServer.api_key server) in
          ServerAdmin.ping_server env server_id d
          = ServerAdmin.Ping (fst answer)
              (if fst answer then None else Some (snd answer)))
    /\ check_for "komga" = ServerAdmin.check_jellyfin
    /\ check_for "" = ServerAdmin.check_jellyfin.
Proof.
  intros env sid d. unfold ServerAdmin.ping_server.
  split; [intros ->; reflexivity|]. split; [|split; reflexivity].
  intros server ->. cbv zeta. rewrite check_connection_plain.
  destruct (ServerAdmin.probe env _ _ _) as [[|] msg]; reflexivity.
Qed.

(** X23.  What a POST to [edit_server] can change.  Unless it answers
    with the redirect to the list, the database is as it was.  In every
    case the User and Invitation rows are untouched, the servers keep
    their ids and order, every other server is untouched, and the
    Library rows are the same rows in the same order up to the enabled
    flags of the rows of the edited server.  With an empty selection the
    Library rows are untouched, so that the form cannot disable every
    library of a server; with a non-empty one a library of the server is
    enabled exactly when its external id was selected. *)
Theorem edit_server_touches_one_server :
  forall (env : ServerAdmin.Env) (server_id : Z)
         (form : list (string * string)) (chosen : list string)
         (d : Model.DB),
    let out := ServerAdmin.edit_server env server_id Public.POST form
                                       chosen d in
    let d' := fst out in
    (snd out <> ServerAdmin.RedirectToList -> d' = d)
    /\ Model.users d' = Model.users d
    /\ Model.invitations d' = Model.invitations d
    /\ map MediaServer.id (Model.media_servers d')
       = map MediaServer.id (Model.media_servers d)
    /\ (forall m, In m (Model.media_servers d) ->
                  MediaServer.id m <> server_id ->
                  In m (Model.media_servers d'))
    /\ map (flagless_on server_id) (Model.library_rows d')
       = map (flagless_on server_id) (Model.library_rows d)
    /\ (chosen = [] -> Model.library_rows d' = Model.library_rows d)
    /\ (snd out = ServerAdmin.RedirectToList -> chosen <> [] ->
        forall lib,
          In lib (Model.library_rows d') ->
          Library.server_id lib = Some server_id ->
          Library.enabled lib
          = existsb (String.eqb (Library.external_id lib)) chosen).
Proof.
  intros env sid form chosen d out d'. subst out d'.
  destruct (edit_server_cases env sid form chosen d)
    as [(r & Hr & ->) | (server & server' & Hs & Hid & ->)]; cbn [fst snd].
  - repeat split; auto; congruence.
  - cbn [Model.users Model.invitations Model.media_servers
         Model.library_rows].
    split; [congruence|]. split; [reflexivity|]. split; [reflexivity|].
    split; [apply replace_server_ids|].
    split; [intros m Hin Hne; apply replace_server_others; congruence|].
    split; [destruct chosen; [reflexivity | apply choose_flagless]|].
    split; [intros ->; reflexivity|].
    intros _ Hne lib Hin Hsrv. destruct chosen as [|c chosen]; [congruence|].
    now apply (choose_enabled sid (c :: chosen) (Model.library_rows d)).
Qed.

(** X24.  [edit_server] stores the key derived from the RomM
    credentials.  When the form is for a RomM server and gives a
    username and a password that are not blank once stripped, the key
    that is probed and, if the probe succeeds, stored is the Base64 text
    of "username:password", whatever api key the form carried, if any;
    a failed probe leaves the database as it was and shows its
    message. *)
Theorem edit_server_stores_the_derived_romm_key :
  forall (env : ServerAdmin.Env) (server_id : Z)
         (form : list (string * string)) (chosen : list string)
         (d : Model.DB) (server : MediaServer.t) (name url u p : string),
    Model.server_by_id d server_id = Some server ->
    let data := ServerAdmin.of_form form in
    ServerAdmin.item "server_type" data = Some (Some "romm") ->
    ServerAdmin.item "server_name" data = Some (Some name) ->
    ServerAdmin.item "server_url" data = Some (Some url) ->
    ServerAdmin.stripped "server_username" data = Http.Ok u ->
    ServerAdmin.stripped "server_password" data = Http.Ok p ->
    u <> "" -> p <> "" ->
    let key := Base64.b64encode (String.append u (String.append ":" p)) in
    let answer := ServerAdmin.probe env ServerAdmin.check_romm (Some url)
                                    (Some key) in
    let out := ServerAdmin.edit_server env server_id Public.POST form
                                       chosen d in
    (fst answer = false -> out = (d, ServerAdmin.Modal (snd answer)))
    /\ (fst answer = true ->
        snd out = ServerAdmin.RedirectToList
        /\ Model.server_by_id (fst out) server_id
           = Some (MediaServer.mk server_id name "romm" url (Some key))).
Proof.
  intros env sid form chosen d server name url u p Hs data Hty Hname Hurl
         Hu Hp Hune Hpne key answer out.
  destruct (check_connection_romm env data u p (Some url) Hty Hurl Hu Hp
                                  Hune Hpne) as [Hwith Hcheck].
  fold key in Hwith, Hcheck. fold answer in Hcheck.
  pose proof (server_by_id_id d sid server Hs) as Hid.
  assert (Hout : out
    = if negb (fst answer) then (d, ServerAdmin.Modal (snd answer))
      else (Model.mkDB (Model.users d) (Model.invitations d)
              (ServerAdmin.replace_server
                 (MediaServer.mk sid name "romm" url (Some key))
                 (Model.media_servers d))
              (match chosen with
               | [] => Model.library_rows d
               | _ :: _ => ServerAdmin.choose sid chosen (Model.library_rows d)
               end),
            ServerAdmin.RedirectToList)).
  { subst out. unfold ServerAdmin.edit_server. rewrite Hs.
    fold data. unfold ServerAdmin.get at 1. rewrite Hty.
    cbv iota beta. rewrite Hwith, Hcheck.
    destruct answer as [ok msg]. cbn [fst snd]. destruct ok; cbn [negb];
      [|reflexivity].
    rewrite !(item_set_other "api_key" "server_name") by discriminate.
    rewrite !(item_set_other "api_key" "server_type") by discriminate.
    rewrite !(item_set_other "api_key" "server_url") by discriminate.
    rewrite Hname, Hty, Hurl. unfold ServerAdmin.get.
    rewrite item_set_same, Hid. reflexivity. }
  split.
  - intros Hno. rewrite Hout, Hno. reflexivity.
  - intros Hyes. rewrite Hout, Hyes. cbn [negb fst snd]. split; [reflexivity|].
    unfold Model.server_by_id. cbn [Model.media_servers].
    pose proof (replace_server_found
                  (MediaServer.mk sid name "romm" url (Some key))
                  (Model.media_servers d)) as Hfound.
    cbn [MediaServer.id] in Hfound. apply Hfound.
    unfold Model.server_by_id in Hs. congruence.
Qed.


Lemma edit_server_stores_the_derived_romm_key_witness :
  let out := ServerAdmin.edit_server AdminSamples.env 3 Public.POST
               AdminSamples.romm_form [] AdminSamples.db in
  snd out = ServerAdmin.RedirectToList
  /\ Model.server_by_id (fst out) 3
     = Some (MediaServer.mk 3 "RomM" "romm" "http://romm.local"
                            (Some "YWRtaW46c2VjcmV0")).
Proof.
  apply (edit_server_stores_the_derived_romm_key
           AdminSamples.env 3 AdminSamples.romm_form [] AdminSamples.db
           Samples.romm "RomM" "http://romm.local" "admin" "secret");
    try reflexivity; discriminate.
Defined.

Lemma edit_server_touches_one_server_witness :
  let out := ServerAdmin.edit_server AdminSamples.env 2 Public.POST
               AdminSamples.jellyfin_form ["f-1"] AdminSamples.db in
  snd out = ServerAdmin.RedirectToList
  /\ Model.library_rows (fst out)
     = [JoinSamples.lib_a; JoinSamples.lib_b;
        Library.mk 5 "f-1" "Movies" true (Some 2)]
  /\ map (flagless_on 2) (Model.library_rows (fst out))
     = map (flagless_on 2) (Model.library_rows AdminSamples.db).
Proof.
  destruct (edit_server_touches_one_server
              AdminSamples.env 2 AdminSamples.jellyfin_form ["f-1"]
              AdminSamples.db)
    as (_ & _ & _ & _ & _ & Hrows & _).
  split; [reflexivity|]. split; [reflexivity | exact Hrows].
Defined.


(* ===================================================================== *)
(** * Scanning the libraries of a server                                  *)
(* ===================================================================== *)

Section Scanning.
Import Model ServerAdmin.

Variable sid : Z.

Local Abbreviation step := (scan_step sid).
Local Abbreviation lib_of fid := (is_library fid sid).

Lemma update_first_map {A B : Type} (p : A -> bool) (f : A -> A)
      (g : A -> B) (l l' : list A) :
  (forall a, p a = true -> g (f a) = g a) ->
  Romm.update_first p f l = Some l' -> map g l' = map g l.
Proof.
  intros Hg. revert l'. induction l as [|a l IH]; intros l'; simpl;
    [discriminate|].
  destruct (p a) eqn:Ep.
  - intros [= <-]. simpl. now rewrite Hg.
  - destruct (Romm.update_first p f l) as [l1|]; [|discriminate].
    intros [= <-]. simpl. now rewrite (IH l1).
Qed.

Lemma nameless_set_name (fid name : string) (lib : Library.t) :
  lib_of fid lib = true ->
  nameless_on sid (set_name name lib) = nameless_on sid lib.
Proof.
  unfold is_library, nameless_on. intros H. apply andb_prop in H as [_ H].
  simpl. now rewrite H.
Qed.

Lemma nameless_fields (a b : Library.t) :
  nameless_on sid a = nameless_on sid b ->
  Library.server_id a = Library.server_id b
  /\ Library.enabled a = Library.enabled b.
Proof.
  unfold nameless_on.
  destruct (opt_Z_eqb (Library.server_id a) (Some sid)),
           (opt_Z_eqb (Library.server_id b) (Some sid));
    destruct a, b; simpl; intros [= ]; subst; auto.
Qed.

Lemma fold_step_none (pairs : list (string * string)) :
  fold_left step pairs None = None.
Proof. induction pairs as [|pair pairs IH]; [reflexivity | exact IH]. Qed.

(** One iteration renames a row of the server or appends a row to it. *)
Lemma step_cases_scan (cur cur1 : list Library.t) (fid name : string) :
  step (Some cur) (fid, name) = Some cur1 ->
  Romm.update_first (lib_of fid) (set_name name) cur = Some cur1
  \/ (find (lib_of fid) cur = None
      /\ cur1 = cur ++ [Library.mk (next_library_id cur) fid name true
                                   (Some sid)]).
Proof.
  unfold scan_step.
  destruct (Romm.update_first (lib_of fid) (set_name name) cur)
    as [cur'|] eqn:E.
  - intros [= <-]. now left.
  - destruct (existsb _ cur); [discriminate|].
    intros [= <-]. right. split; [|reflexivity].
    now apply update_first_none in E.
Qed.

(** The loop keeps every row, in order, up to the names of the rows of
    the server, and appends enabled rows of the server. *)
Lemma scan_loop_keeps (pairs : list (string * string)) :
  forall cur libs',
    fold_left step pairs (Some cur) = Some libs' ->
    exists kept added,
      libs' = kept ++ added
      /\ map (nameless_on sid) kept = map (nameless_on sid) cur
      /\ Forall (fun l => Library.server_id l = Some sid
                          /\ Library.enabled l = true) added.
Proof.
  induction pairs as [|[fid name] pairs IH]; intros cur libs' Hfold.
  - simpl in Hfold. inversion Hfold; subst. exists libs', [].
    rewrite app_nil_r. auto.
  - cbn [fold_left] in Hfold.
    destruct (step (Some cur) (fid, name)) as [cur1|] eqn:Estep;
      [|rewrite fold_step_none in Hfold; discriminate].
    destruct (IH cur1 libs' Hfold) as (kept & added & -> & Hkept & Hadded).
    apply step_cases_scan in Estep as [Hupd | [_ ->]].
    + exists kept, added. split; [reflexivity|]. split; [|exact Hadded].
      rewrite Hkept.
      apply (update_first_map (lib_of fid) (set_name name)); [|exact Hupd].
      intros a. apply nameless_set_name.
    + rewrite map_app in Hkept.
      apply map_eq_app in Hkept as (kept0 & last & -> & Hkept0 & Hlast).
      destruct last as [|x [|y last]]; try discriminate.
      simpl in Hlast. inversion Hlast as [Hx].
      apply nameless_fields in Hx as [Hs He]. simpl in Hs, He.
      exists kept0, (x :: added). rewrite <- app_assoc.
      split; [reflexivity|]. split; [exact Hkept0|].
      constructor; [auto | exact Hadded].
Qed.

Lemma set_name_same (lib : Library.t) :
  set_name (Library.name lib) lib = lib.
Proof. now destruct lib. Qed.

Lemma lib_of_set_name (fid name : string) (lib : Library.t) :
  lib_of fid (set_name name lib) = lib_of fid lib.
Proof. reflexivity. Qed.

Lemma lib_of_other (fid fid' : string) (lib : Library.t) :
  fid <> fid' -> lib_of fid' lib = true -> lib_of fid lib = false.
Proof.
  unfold is_library. intros Hne H. apply andb_prop in H as [H _].
  apply String.eqb_eq in H.
  destruct (String.eqb_spec (Library.external_id lib) fid);
    [congruence | reflexivity].
Qed.

Lemma lib_of_new (cur : list Library.t) (fid name : string) :
  lib_of fid (Library.mk (next_library_id cur) fid name true (Some sid))
  = true.
Proof.
  unfold is_library. simpl. now rewrite String.eqb_refl, Z.eqb_refl.
Qed.

Lemma step_named (cur cur1 : list Library.t) (fid name : string) :
  step (Some cur) (fid, name) = Some cur1 -> named sid fid name cur1.
Proof.
  intros H. apply step_cases_scan in H as [Hupd | [Hnone ->]].
  - apply update_first_find in Hupd as (a & _ & Hf);
      [|intros a Ha; now rewrite lib_of_set_name].
    exists (set_name name a). auto.
  - eexists. split; [apply find_app_hit; [exact Hnone | apply lib_of_new]|].
    reflexivity.
Qed.

Lemma step_other (cur cur1 : list Library.t) (fid fid' name' : string) :
  fid <> fid' ->
  step (Some cur) (fid', name') = Some cur1 ->
  find (lib_of fid) cur1 = find (lib_of fid) cur.
Proof.
  intros Hne H. apply step_cases_scan in H as [Hupd | [_ ->]].
  - apply (update_first_other (lib_of fid) (lib_of fid') (set_name name')
                              cur cur1); [|exact Hupd].
    intros a Ha. rewrite lib_of_set_name.
    split; now apply (lib_of_other fid fid').
  - apply find_app_miss. apply (lib_of_other fid fid'); [exact Hne|].
    apply lib_of_new.
Qed.

Lemma step_settled (cur : list Library.t) (fid name : string) :
  named sid fid name cur -> step (Some cur) (fid, name) = Some cur.
Proof.
  intros (lib & Hf & Hname). unfold scan_step.
  rewrite (update_first_fixed _ _ _ lib Hf); [reflexivity|].
  rewrite <- Hname. apply set_name_same.
Qed.

Lemma loop_preserves_named (fid name : string)
      (pairs : list (string * string)) :
  (forall name', In (fid, name') pairs -> name' = name) ->
  forall cur libs',
    named sid fid name cur ->
    fold_left step pairs (Some cur) = Some libs' ->
    named sid fid name libs'.
Proof.
  induction pairs as [|[fid' name'] pairs IH]; intros Hone cur libs' Hn Hfold.
  - simpl in Hfold. now inversion Hfold; subst.
  - cbn [fold_left] in Hfold.
    destruct (step (Some cur) (fid', name')) as [cur1|] eqn:Estep;
      [|rewrite fold_step_none in Hfold; discriminate].
    apply (IH (fun n H => Hone n (or_intror H)) cur1 libs'); [|exact Hfold].
    destruct (String.eqb_spec fid fid') as [<-|Hne].
    + rewrite (Hone name' (or_introl eq_refl)) in Estep.
      rewrite (step_settled cur fid name Hn) in Estep.
      now inversion Estep; subst.
    + destruct Hn as (lib & Hf & Hname). exists lib. split; [|exact Hname].
      now rewrite (step_other cur cur1 fid fid' name' Hne Estep).
Qed.

Lemma scan_loop_names (pairs : list (string * string)) :
  one_name_each pairs ->
  forall cur libs',
    fold_left step pairs (Some cur) = Some libs' ->
    forall fid name, In (fid, name) pairs -> named sid fid name libs'.
Proof.
  induction pairs as [|[fid0 name0] pairs IH];
    intros Hone cur libs' Hfold fid name Hin; [contradiction|].
  cbn [fold_left] in Hfold.
  destruct (step (Some cur) (fid0, name0)) as [cur1|] eqn:Estep;
    [|rewrite fold_step_none in Hfold; discriminate].
  destruct Hin as [[= -> ->]|Hin].
  - apply (loop_preserves_named fid name pairs) with (cur := cur1);
      [|exact (step_named cur cur1 fid name Estep) | exact Hfold].
    intros name' Hin. symmetry.
    apply (Hone fid name name'); simpl; auto.
  - apply (IH (fun f n n' H H' => Hone f n n' (or_intror H) (or_intror H'))
              cur1 libs' Hfold fid name Hin).
Qed.

Lemma scan_loop_settled (pairs : list (string * string)) :
  forall cur,
    (forall fid name, In (fid, name) pairs -> named sid fid name cur) ->
    fold_left step pairs (Some cur) = Some cur.
Proof.
  induction pairs as [|[fid name] pairs IH]; intros cur Hall; [reflexivity|].
  cbn [fold_left]. rewrite (step_settled cur fid name);
    [|apply Hall; simpl; auto].
  apply IH. intros f n Hin. apply Hall. simpl. auto.
Qed.

Lemma existsb_external_map (fid : string) (l l' : list Library.t) :
  map Library.external_id l' = map Library.external_id l ->
  existsb (fun x => String.eqb (Library.external_id x) fid) l'
  = existsb (fun x => String.eqb (Library.external_id x) fid) l.
Proof.
  revert l'. induction l as [|a l IH]; intros [|b l'] H; try discriminate;
    [reflexivity|].
  simpl in *. inversion H as [[Hb Hl]]. now rewrite Hb, (IH l' Hl).
Qed.

(** A scanned id that is new to the server and taken elsewhere makes the
    loop fail. *)
Lemma scan_loop_clash (fid name : string) (pairs : list (string * string)) :
  In (fid, name) pairs ->
  forall cur,
    find (lib_of fid) cur = None ->
    existsb (fun x => String.eqb (Library.external_id x) fid) cur = true ->
    fold_left step pairs (Some cur) = None.
Proof.
  induction pairs as [|[fid' name'] pairs IH]; intros Hin cur Hnone Hex;
    [contradiction|].
  cbn [fold_left].
  destruct (String.eqb_spec fid fid') as [<-|Hne].
  - unfold scan_step at 2.
    assert (Hupd : Romm.update_first (lib_of fid) (set_name name') cur = None)
      by now apply update_first_none.
    rewrite Hupd, Hex. apply fold_step_none.
  - destruct Hin as [[= E _]|Hin]; [congruence|].
    destruct (step (Some cur) (fid', name')) as [cur1|] eqn:Estep;
      [|apply fold_step_none].
    apply (IH Hin cur1).
    + now rewrite (step_other cur cur1 fid fid' name' Hne Estep).
    + apply step_cases_scan in Estep as [Hupd | [_ ->]].
      * rewrite (existsb_external_map fid cur cur1); [exact Hex|].
        apply (update_first_map (lib_of fid') (set_name name')); [|exact Hupd].
        reflexivity.
      * rewrite existsb_app, Hex. reflexivity.
Qed.

End Scanning.

(** X25.  [scan_server_libraries] never deletes and never disables.
    Whatever the scan finds, and whether or not the handler succeeds,
    the User, Invitation and MediaServer rows are untouched and every
    Library row is still there, in its place, with its id, external id,
    enabled flag and server: only the names of rows of the scanned
    server may change, so rows of other servers are untouched, and a
    library that has vanished upstream stays.  What comes after them are
    new rows of the scanned server, all enabled.  Unless the answer is
    the checkbox partial the database is as it was. *)
Theorem scan_never_deletes_or_disables :
  forall (env : ServerAdmin.Env) (server_id : Z) (d : Model.DB),
    let out := ServerAdmin.scan_server_libraries env server_id d in
    let d' := fst out in
    Model.users d' = Model.users d
    /\ Model.invitations d' = Model.invitations d
    /\ Model.media_servers d' = Model.media_servers d
    /\ (snd out <> ServerAdmin.Checkboxes -> d' = d)
    /\ exists kept added,
        Model.library_rows d' = kept ++ added
        /\ map (nameless_on server_id) kept
           = map (nameless_on server_id) (Model.library_rows d)
        /\ Forall (fun l => Library.server_id l = Some server_id
                            /\ Library.enabled l = true) added.
Proof.
  intros env sid d out d'. subst out d'.
  assert (Hsame : exists kept added,
    Model.library_rows d = kept ++ added
    /\ map (nameless_on sid) kept = map (nameless_on sid) (Model.library_rows d)
    /\ Forall (fun l => Library.server_id l = Some sid
                        /\ Library.enabled l = true) added).
  { exists (Model.library_rows d), []. rewrite app_nil_r. auto. }
  unfold ServerAdmin.scan_server_libraries.
  destruct (Model.server_by_id d sid) as [server|] eqn:Es;
    [|cbn [fst snd]; repeat split; auto].
  pose proof (server_by_id_id d sid server Es) as Hid.
  destruct (ServerAdmin.scan env server) as [pairs|];
    [|cbn [fst snd]; repeat split; auto].
  destruct (fold_left _ pairs _) as [libs|] eqn:Efold;
    [|cbn [fst snd]; repeat split; auto].
  cbn [fst snd ServerAdmin.with_library_rows Model.users Model.invitations
       Model.media_servers Model.library_rows].
  split; [reflexivity|]. split; [reflexivity|]. split; [reflexivity|].
  split; [congruence|]. rewrite Hid in Efold.
  exact (scan_loop_keeps sid pairs _ _ Efold).
Qed.

(** X26.  A successful scan names the libraries as scanned, and scanning
    again changes nothing.  When the scan gives each external id one
    name (the items of a dict, or a list of names) and the handler
    answers with the checkbox partial, then afterwards, for every pair
    scanned, the first row of the server with that external id carries
    that name, and a second scan with the same result leaves the
    database exactly as the first one left it. *)
Theorem scan_names_the_libraries_and_settles :
  forall (env : ServerAdmin.Env) (server_id : Z) (d : Model.DB)
         (server : MediaServer.t) (pairs : list (string * string)),
    Model.server_by_id d server_id = Some server ->
    ServerAdmin.scan env server = Some pairs ->
    one_name_each pairs ->
    let out := ServerAdmin.scan_server_libraries env server_id d in
    snd out = ServerAdmin.Checkboxes ->
    (forall fid name,
        In (fid, name) pairs ->
        named server_id fid name (Model.library_rows (fst out)))
    /\ ServerAdmin.scan_server_libraries env server_id (fst out) = out.
Proof.
  intros env sid d server pairs Hs Hscan Hone out Hok.
  pose proof (server_by_id_id d sid server Hs) as Hid.
  assert (Hout : exists libs,
    fold_left (ServerAdmin.scan_step sid) pairs (Some (Model.library_rows d))
    = Some libs
    /\ out = (ServerAdmin.with_library_rows d libs, ServerAdmin.Checkboxes)).
  { subst out. revert Hok. unfold ServerAdmin.scan_server_libraries.
    rewrite Hs, Hscan, Hid.
    destruct (fold_left _ pairs _) as [libs|]; [|cbn [snd]; discriminate].
    intros _. exists libs. auto. }
  destruct Hout as (libs & Efold & Hout). rewrite Hout.
  cbn [fst Model.library_rows ServerAdmin.with_library_rows].
  pose proof (scan_loop_names sid pairs Hone _ _ Efold) as Hnames.
  split; [exact Hnames|].
  unfold ServerAdmin.scan_server_libraries, Model.server_by_id.
  unfold ServerAdmin.with_library_rows at 1 2.
  cbn [Model.media_servers Model.library_rows].
  unfold Model.server_by_id in Hs. rewrite Hs, Hscan, Hid.
  rewrite (scan_loop_settled sid pairs libs Hnames). reflexivity.
Qed.

Lemma scan_names_the_libraries_and_settles_witness :
  let out := ServerAdmin.scan_server_libraries AdminSamples.env 2
                                               AdminSamples.db in
  (forall fid name,
      In (fid, name) [("f-1", "Films"); ("f-2", "Series")] ->
      named 2 fid name (Model.library_rows (fst out)))
  /\ ServerAdmin.scan_server_libraries AdminSamples.env 2 (fst out) = out.
Proof.
  apply (scan_names_the_libraries_and_settles
           AdminSamples.env 2 AdminSamples.db Samples.jellyfin
           [("f-1", "Films"); ("f-2", "Series")]).
  - reflexivity.
  - reflexivity.
  - intros fid name name' H H'. simpl in H, H'.
    destruct H as [H|[H|[]]], H' as [H'|[H'|[]]]; congruence.
  - reflexivity.
Defined.

(** X27.  A scanned id that another server already uses fails the whole
    scan.  [Library.external_id] is UNIQUE over the table, not per
    server: when the scan finds an id for which the scanned server has no
    row while a row of another server carries it, the insert is refused,
    the handler ends in a 500 and nothing of the scan is stored, the
    renames of the other scanned libraries included. *)
Theorem scan_fails_on_an_id_taken_elsewhere :
  forall (env : ServerAdmin.Env) (server_id : Z) (d : Model.DB)
         (server : MediaServer.t) (pairs : list (string * string))
         (fid name : string) (other : Library.t),
    Model.server_by_id d server_id = Some server ->
    ServerAdmin.scan env server = Some pairs ->
    In (fid, name) pairs ->
    In other (Model.library_rows d) ->
    Library.external_id other = fid ->
    (forall lib, In lib (Model.library_rows d) ->
                 Library.external_id lib = fid ->
                 Library.server_id lib <> Some server_id) ->
    ServerAdmin.scan_server_libraries env server_id d
    = (d, ServerAdmin.ServerError).
Proof.
  intros env sid d server pairs fid name other Hs Hscan Hin Hother Hext Hnot.
  pose proof (server_by_id_id d sid server Hs) as Hid.
  unfold ServerAdmin.scan_server_libraries. rewrite Hs, Hscan, Hid.
  rewrite (scan_loop_clash sid fid name pairs Hin); [reflexivity| |].
  - destruct (find _ _) as [lib|] eqn:Ef; [|reflexivity].
    apply find_some in Ef as [Hl Hp]. unfold ServerAdmin.is_library in Hp.
    apply andb_prop in Hp as [He Hsrv].
    apply String.eqb_eq in He. apply opt_Z_eqb_eq in Hsrv.
    exfalso. exact (Hnot lib Hl He Hsrv).
  - apply existsb_exists. exists other. split; [exact Hother|].
    now apply String.eqb_eq.
Qed.

Lemma scan_fails_on_an_id_taken_elsewhere_witness :
  ServerAdmin.scan_server_libraries AdminSamples.env_clash 2 AdminSamples.db
  = (AdminSamples.db, ServerAdmin.ServerError).
Proof.
  apply (scan_fails_on_an_id_taken_elsewhere
           AdminSamples.env_clash 2 AdminSamples.db Samples.jellyfin
           [("f-1", "Films"); ("lib-a", "Comics")] "lib-a" "Comics"
           JoinSamples.lib_a).
  - reflexivity.
  - reflexivity.
  - simpl. auto.
  - simpl. auto.
  - reflexivity.
  - intros lib [<-|[<-|[<-|[]]]]; simpl; discriminate.
Defined.


(* ===================================================================== *)
(** * The library listings of the two clients                             *)
(* ===================================================================== *)

Section Catalogs.
Import Http.

Lemma key_eqb_refl (k : json) : Dict.hashable k = true -> Dict.key_eqb k k = true.
Proof.
  destruct k as [|b|n|s|l|f]; simpl; intros H; try discriminate.
  - reflexivity.
  - now destruct b.
  - apply Z.eqb_refl.
  - apply String.eqb_refl.
Qed.

Lemma has_put_self (k v : json) (d : list (json * json)) :
  Dict.key_eqb k k = true -> Dict.has k (Dict.put k v d) = true.
Proof.
  intros Hk. unfold Dict.has. induction d as [|[k' v'] d IH]; simpl.
  - now rewrite Hk.
  - destruct (Dict.key_eqb k' k) eqn:E; simpl; [now rewrite E|].
    now rewrite E, IH.
Qed.

Lemma has_put_mono (k k' v : json) (d : list (json * json)) :
  Dict.has k d = true -> Dict.has k (Dict.put k' v d) = true.
Proof.
  unfold Dict.has. induction d as [|[k0 v0] d IH]; simpl; [discriminate|].
  intros H. destruct (Dict.key_eqb k0 k') eqn:E; simpl; [exact H|].
  apply orb_true_iff in H as [H|H]; [now rewrite H|].
  rewrite (IH H). apply orb_true_r.
Qed.

Variable entry : json -> option (json * json).

Hypothesis entry_hashable :
  forall p k v, entry p = Some (k, v) -> Dict.hashable k = true.

Lemma comprehension_none (items : list json) :
  (exists p, In p items /\ entry p = None) ->
  forall acc, Dict.comprehension entry items acc = None.
Proof.
  induction items as [|q items IH]; intros (p & Hin & Hp) acc;
    [contradiction|].
  simpl. destruct Hin as [->|Hin].
  - now rewrite Hp.
  - destruct (entry q) as [[k v]|]; [|reflexivity].
    apply IH. exists p. auto.
Qed.

Lemma comprehension_has (items : list json) :
  forall acc d,
    Dict.comprehension entry items acc = Some d ->
    (forall k, Dict.has k acc = true -> Dict.has k d = true)
    /\ (forall p k v, In p items -> entry p = Some (k, v) ->
                      Dict.has k d = true).
Proof.
  induction items as [|q items IH]; intros acc d H; simpl in H.
  - inversion H; subst. split; [auto | intros p k v []].
  - destruct (entry q) as [[k0 v0]|] eqn:Eq; [|discriminate].
    destruct (IH _ _ H) as [Hmono Hall]. split.
    + intros k Hk. apply Hmono. now apply has_put_mono.
    + intros p k v [->|Hin] Hp.
      * rewrite Eq in Hp. inversion Hp; subst.
        apply Hmono. apply has_put_self. apply key_eqb_refl.
        exact (entry_hashable _ _ _ Eq).
      * exact (Hall p k v Hin Hp).
Qed.

Lemma comprehension_total (items : list json) :
  (forall p, In p items -> entry p <> None) ->
  forall acc, Dict.comprehension entry items acc <> None.
Proof.
  induction items as [|q items IH]; intros Hall acc; simpl; [discriminate|].
  destruct (entry q) as [[k v]|] eqn:Eq.
  - apply IH. intros p Hin. apply Hall. simpl. auto.
  - exfalso. apply (Hall q); simpl; auto.
Qed.

End Catalogs.

Section CatalogEntries.
Import Http.

Lemma romm_entry_hashable (p k v : json) :
  RommCatalog.entry p = Some (k, v) -> Dict.hashable k = true.
Proof.
  destruct p as [| | | | |fields]; simpl; try discriminate.
  destruct (lookup "id" fields) as [id|]; [|discriminate].
  destruct (Dict.hashable id) eqn:E; [|discriminate].
  intros H. inversion H; subst. exact E.
Qed.

Lemma komga_entry_hashable (p k v : json) :
  KomgaCatalog.entry p = Some (k, v) -> Dict.hashable k = true.
Proof.
  destruct p as [| | | | |fields]; simpl; try discriminate.
  destruct (lookup "id" fields) as [id|]; [|discriminate].
  destruct (lookup "name" fields) as [name|]; [|discriminate].
  destruct (Dict.hashable id) eqn:E; [|discriminate].
  intros H. inversion H; subst. exact E.
Qed.

End CatalogEntries.

(** X28.  The library listings are all or nothing.  In both clients
    [libraries] gives the empty dict when the payload is not a list and
    when a single item of the list is not an object, has no "id" or an
    id that cannot be a dict key, whatever the other items are; Komga's
    also when an item has no "name", where RomM's uses the id as the
    name.  When every item is fit, the id of every item is a key of the
    result. *)
Theorem libraries_are_all_or_nothing :
  forall (items : list Http.json),
    (forall payload,
        (forall l, payload <> Some (Http.JArr l)) ->
        RommCatalog.libraries payload = []
        /\ KomgaCatalog.libraries payload = [])
    /\ ((exists p, In p items /\ RommCatalog.entry p = None) ->
        RommCatalog.libraries (Some (Http.JArr items)) = [])
    /\ ((exists p, In p items /\ KomgaCatalog.entry p = None) ->
        KomgaCatalog.libraries (Some (Http.JArr items)) = [])
    /\ ((forall p, In p items -> RommCatalog.entry p <> None) ->
        forall p k v, In p items -> RommCatalog.entry p = Some (k, v) ->
          Dict.has k (RommCatalog.libraries (Some (Http.JArr items))) = true)
    /\ ((forall p, In p items -> KomgaCatalog.entry p <> None) ->
        forall p k v, In p items -> KomgaCatalog.entry p = Some (k, v) ->
          Dict.has k (KomgaCatalog.libraries (Some (Http.JArr items))) = true)
    /\ (forall fields id,
          Http.lookup "id" fields = Some id ->
          Dict.hashable id = true ->
          Http.lookup "name" fields = None ->
          RommCatalog.entry (Http.JObj fields) = Some (id, id)
          /\ KomgaCatalog.entry (Http.JObj fields) = None).
Proof.
  intros items.
  split; [|split; [|split; [|split; [|split]]]].
  - intros payload Hnot. destruct payload as [[| | | |l|]|];
      try (split; reflexivity).
    exfalso. exact (Hnot l eq_refl).
  - intros Hbad. unfold RommCatalog.libraries.
    now rewrite (comprehension_none RommCatalog.entry items Hbad).
  - intros Hbad. unfold KomgaCatalog.libraries.
    now rewrite (comprehension_none KomgaCatalog.entry items Hbad).
  - intros Hfit p k v Hin Hp. unfold RommCatalog.libraries.
    destruct (Dict.comprehension RommCatalog.entry items []) as [d|] eqn:E.
    + exact (proj2 (comprehension_has RommCatalog.entry romm_entry_hashable
                                      items [] d E) p k v Hin Hp).
    + exfalso.
      exact (comprehension_total RommCatalog.entry items Hfit [] E).
  - intros Hfit p k v Hin Hp. unfold KomgaCatalog.libraries.
    destruct (Dict.comprehension KomgaCatalog.entry items []) as [d|] eqn:E.
    + exact (proj2 (comprehension_has KomgaCatalog.entry komga_entry_hashable
                                      items [] d E) p k v Hin Hp).
    + exfalso.
      exact (comprehension_total KomgaCatalog.entry items Hfit [] E).
  - intros fields id Hid Hhash Hname. simpl. now rewrite Hid, Hname, Hhash.
Qed.
